(** * feast-trino: the Trino offline store

    A shallow embedding of [trino.py]: the relational meaning of the SQL
    that the offline store compiles (the point-in-time join template
    [MULTIPLE_FEATURE_VIEW_POINT_IN_TIME_JOIN] and the latest-snapshot query
    of [pull_latest_from_table_or_query]), and the Python entry points that
    build retrieval jobs and export them to a destination table.

    Tables are lists of rows, a row is an ordered list of named cells, and
    SQL's three-valued logic is kept: a comparison with NULL is UNKNOWN and
    only TRUE lets a row through a [WHERE] or an [ON]. *)

From Stdlib Require Import ZArith NArith List String Ascii Bool Lia.
From Stdlib Require Import DecimalString.
Import ListNotations.

Local Open Scope string_scope.
Local Open Scope Z_scope.
Local Open Scope list_scope.

Infix "+++" := String.append (at level 60, right associativity).

(* ================================================================== *)
(** ** SQL values, rows and operators *)
(* ================================================================== *)

Module Sql.

(** A cell.  Numbers and timestamps are both [VInt]; a timestamp is its
    count of milliseconds (Trino's default [timestamp(3)]). *)
Inductive value : Type :=
| VNull
| VInt (n : Z)
| VStr (s : string).

Definition value_eq_dec (a b : value) : {a = b} + {a <> b}.
Proof.
  decide equality; [apply Z.eq_dec | apply string_dec].
Defined.

Definition values_eq_dec : forall a b : list value, {a = b} + {a <> b} :=
  list_eq_dec value_eq_dec.

(** Three-valued truth: [None] is UNKNOWN. *)
Definition tri := option bool.

Definition sql_and (a b : tri) : tri :=
  match a, b with
  | Some false, _ | _, Some false => Some false
  | Some true, Some true => Some true
  | _, _ => None
  end.

(** A [WHERE] or [ON] keeps a row only when its predicate is TRUE. *)
Definition holds (a : tri) : bool :=
  match a with Some true => true | _ => false end.

(** [a = b].  Cells of different kinds never compare TRUE (Trino rejects
    such a query when it analyses it). *)
Definition sql_eq (a b : value) : tri :=
  match a, b with
  | VInt x, VInt y => Some (x =? y)
  | VStr s, VStr t => Some (s =? t)%string
  | _, _ => None
  end.

Definition sql_le (a b : value) : tri :=
  match a, b with
  | VInt x, VInt y => Some (x <=? y)
  | _, _ => None
  end.

Definition sql_ge (a b : value) : tri := sql_le b a.

(** [x BETWEEN lo AND hi] is [x >= lo AND x <= hi]. *)
Definition sql_between (x lo hi : value) : tri :=
  sql_and (sql_ge x lo) (sql_le x hi).

(** [t - interval 'n' second] on a millisecond timestamp. *)
Definition interval_second (n : Z) : Z := 1000 * n.

Definition sql_minus_interval (t : value) (n : Z) : value :=
  match t with
  | VInt x => VInt (x - interval_second n)
  | _ => VNull
  end.

(** [CAST(v AS VARCHAR)].  A number is printed in decimal; a timestamp is
    printed here as the decimal of its millisecond count (Trino prints the
    calendar form, which is injective in the timestamp as well). *)
Definition cast_varchar (v : value) : value :=
  match v with
  | VNull => VNull
  | VInt n => VStr (NilZero.string_of_int (Z.to_int n))
  | VStr s => VStr s
  end.

(** [CONCAT(v1, ..., vn)]: NULL as soon as one argument is NULL. *)
Fixpoint sql_concat (vs : list value) : value :=
  match vs with
  | [] => VStr ""
  | VStr s :: rest =>
      match sql_concat rest with
      | VStr t => VStr (s +++ t)
      | _ => VNull
      end
  | _ :: _ => VNull
  end.

(** [MAX] and [MIN] skip NULLs and are NULL over no value at all. *)
Fixpoint sql_max (vs : list value) : value :=
  match vs with
  | [] => VNull
  | VInt x :: rest =>
      match sql_max rest with
      | VInt y => VInt (Z.max x y)
      | _ => VInt x
      end
  | _ :: rest => sql_max rest
  end.

Fixpoint sql_min (vs : list value) : value :=
  match vs with
  | [] => VNull
  | VInt x :: rest =>
      match sql_min rest with
      | VInt y => VInt (Z.min x y)
      | _ => VInt x
      end
  | _ :: rest => sql_min rest
  end.

(** *** Rows *)

Definition row : Type := list (string * value).

Definition row_eq_dec : forall a b : row, {a = b} + {a <> b} :=
  list_eq_dec (fun p q : string * value =>
    match string_dec (fst p) (fst q), value_eq_dec (snd p) (snd q) with
    | left e1, left e2 =>
        left (match p, q return fst p = fst q -> snd p = snd q -> p = q with
              | (_, _), (_, _) => fun h1 h2 => f_equal2 pair h1 h2
              end e1 e2)
    | right n, _ => right (fun h => n (f_equal fst h))
    | _, right n => right (fun h => n (f_equal snd h))
    end).

(** A column reference resolves to the first cell of that name; a name the
    row does not have reads as NULL (Trino rejects such a query). *)
Fixpoint col (r : row) (c : string) : value :=
  match r with
  | [] => VNull
  | (c', v) :: r' => if (c' =? c)%string then v else col r' c
  end.

Definition columns (r : row) : list string := map fst r.

(** [SELECT c1, ..., cn]. *)
Definition project (cs : list string) (r : row) : row :=
  map (fun c => (c, col r c)) cs.

Definition mem (c : string) (cs : list string) : bool :=
  existsb (String.eqb c) cs.

Definition remove_cols (cs : list string) (r : row) : row :=
  filter (fun p => negb (mem (fst p) cs)) r.

(** *** Joins with [USING] *)

(** Every [USING] column compares TRUE. *)
Definition using_match (cs : list string) (l r : row) : bool :=
  forallb (fun c => holds (sql_eq (col l c) (col r c))) cs.

(** The output of [l JOIN r USING (cs)]: one copy of the join columns,
    then the other columns of [l], then the other columns of [r]. *)
Definition using_row (cs : list string) (l r : row) : row :=
  project cs l ++ remove_cols cs l ++ remove_cols cs r.

Definition join_using (cs : list string) (L R : list row) : list row :=
  flat_map (fun l => map (using_row cs l) (filter (using_match cs l) R)) L.

(** [L LEFT JOIN R USING (cs)], where [rcols] are the columns of [R]: a
    row of [L] without a partner is kept once, padded with NULLs. *)
Definition null_row (cs : list string) : row := map (fun c => (c, VNull)) cs.

Definition left_join_using (cs rcols : list string) (L R : list row)
  : list row :=
  flat_map (fun l =>
    match filter (using_match cs l) R with
    | [] => [using_row cs l (null_row rcols)]
    | ms => map (using_row cs l) ms
    end) L.

(** *** Grouping and windows *)

(** [GROUP BY] and [PARTITION BY] put NULLs of a column in one group. *)
Definition group_keys (key : row -> list value) (T : list row)
  : list (list value) :=
  nodup values_eq_dec (map key T).

Definition in_group (key : row -> list value) (k : list value) (r : row)
  : bool :=
  if values_eq_dec (key r) k then true else false.

(** [ORDER BY ... DESC]: larger first, NULLs last. *)
Definition desc_cmp (a b : value) : comparison :=
  match a, b with
  | VInt x, VInt y => Z.compare y x
  | VInt _, _ => Lt
  | _, VInt _ => Gt
  | _, _ => Eq
  end.

Fixpoint desc_cmp_list (a b : list value) : comparison :=
  match a, b with
  | x :: a', y :: b' =>
      match desc_cmp x y with
      | Eq => desc_cmp_list a' b'
      | c => c
      end
  | _, _ => Eq
  end.

(** [order_desc keys r1 r2]: [r1] sorts no later than [r2]. *)
Definition order_desc (keys : list string) (r1 r2 : row) : bool :=
  match desc_cmp_list (map (col r1) keys) (map (col r2) keys) with
  | Gt => false
  | _ => true
  end.

Section Sorting.
Context {A : Type} (before : A -> A -> bool).

Fixpoint insert_sorted (x : A) (l : list A) : list A :=
  match l with
  | [] => [x]
  | y :: l' => if before x y then x :: y :: l' else y :: insert_sorted x l'
  end.

(** A stable sort: rows that tie keep the order they came in.  SQL leaves
    the order of ties open. *)
Fixpoint sort_by (l : list A) : list A :=
  match l with
  | [] => []
  | x :: l' => insert_sorted x (sort_by l')
  end.

End Sorting.

(** Numbers the rows of one sorted partition from [n] on. *)
Fixpoint number_rows (alias : string) (n : Z) (l : list row) : list row :=
  match l with
  | [] => []
  | r :: l' => (r ++ [(alias, VInt n)]) :: number_rows alias (n + 1) l'
  end.

(** The partitions of [OVER (PARTITION BY part ORDER BY keys DESC)], each
    in its window order. *)
Definition partitions (part keys : list string) (T : list row)
  : list (list row) :=
  map (fun k =>
         sort_by (order_desc keys)
           (filter (in_group (fun r => map (col r) part) k) T))
    (group_keys (fun r => map (col r) part) T).

(** [SELECT *, ROW_NUMBER() OVER (PARTITION BY part ORDER BY keys DESC)
    AS alias FROM T]. *)
Definition row_number (alias : string) (part keys : list string)
  (T : list row) : list row :=
  flat_map (number_rows alias 1) (partitions part keys T).

End Sql.

(* ================================================================== *)
(** ** The point-in-time join template *)
(* ================================================================== *)

Module Template.
Import Sql.

(** The query context of one feature view, as the template reads it.
    [created_timestamp_column] is tested for truth by the template, so
    both [None] and the empty string count as absent.  An entry of
    [entity_selections] is the text [column AS alias]; it is kept here as
    the pair of the two names. *)
Record FeatureViewQueryContext : Type := {
  name : string;
  ttl : Z;
  entities : list string;
  features : list string;
  event_timestamp_column : string;
  created_timestamp_column : option string;
  table_subquery : string;
  entity_selections : list (string * string)
}.

Definition has_created (fv : FeatureViewQueryContext) : bool :=
  match created_timestamp_column fv with
  | Some c => negb (c =? "")%string
  | None => false
  end.

Definition created_column (fv : FeatureViewQueryContext) : string :=
  match created_timestamp_column fv with
  | Some c => c
  | None => ""
  end.

(** [{{featureview.name}}__entity_row_unique_id]. *)
Definition unique_id_column (fv : FeatureViewQueryContext) : string :=
  name fv +++ "__entity_row_unique_id".

(** The output name of a feature:
    [{% if full_feature_names %}{{ featureview.name }}__{{feature}}
     {% else %}{{ feature }}{% endif %}]. *)
Definition feature_alias (full_feature_names : bool)
  (fv : FeatureViewQueryContext) (feature : string) : string :=
  if full_feature_names then name fv +++ "__" +++ feature else feature.

Definition feature_columns (full_feature_names : bool)
  (fv : FeatureViewQueryContext) : list string :=
  map (feature_alias full_feature_names fv) (features fv).

(** The timestamp columns a feature view is ranked and re-joined on. *)
Definition timestamp_keys (fv : FeatureViewQueryContext) : list string :=
  "event_timestamp" ::
  (if has_created fv then ["created_timestamp"] else []).

Section Query.

(** What the engine holds: the rows of every table expression. *)
Variable db : string -> list row.

(** The variables the template is rendered with. *)
Variable featureviews : list FeatureViewQueryContext.
Variable left_table_query_string : string.
Variable entity_df_event_timestamp_col : string.
Variable full_feature_names : bool.
Variable final_output_feature_names : list string.

(** The expression aliased [<name>__entity_row_unique_id]. *)
Definition entity_row_unique_id (fv : FeatureViewQueryContext) (r : row)
  : value :=
  match entities fv with
  | [] => cast_varchar (col r entity_df_event_timestamp_col)
  | _ :: _ =>
      sql_concat
        (map (fun entity => cast_varchar (col r entity)) (entities fv)
         ++ [cast_varchar (col r entity_df_event_timestamp_col)])
  end.

(** [entity_dataframe]: every request row, with [entity_timestamp] and
    one unique id per feature view appended. *)
Definition entity_dataframe_row (r : row) : row :=
  r ++ ("entity_timestamp", col r entity_df_event_timestamp_col)
    :: map (fun fv => (unique_id_column fv, entity_row_unique_id fv r))
         featureviews.

Definition entity_dataframe : list row :=
  map entity_dataframe_row (db left_table_query_string).

(** [<name>__entity_dataframe]: the request rows grouped by the feature
    view's join keys, the entity timestamp and the unique id. *)
Definition fv_entity_columns (fv : FeatureViewQueryContext) : list string :=
  entities fv ++ ["entity_timestamp"; unique_id_column fv].

Definition fv_entity_dataframe (fv : FeatureViewQueryContext) : list row :=
  nodup row_eq_dec (map (project (fv_entity_columns fv)) entity_dataframe).

(** [<name>__subquery]: the coarse window on the source rows. *)
Definition max_entity_timestamp : value :=
  sql_max (map (fun e => col e "entity_timestamp") entity_dataframe).

Definition min_entity_timestamp : value :=
  sql_min (map (fun e => col e "entity_timestamp") entity_dataframe).

Definition subquery_where (fv : FeatureViewQueryContext) (r : row) : tri :=
  let upper :=
    sql_le (col r (event_timestamp_column fv)) max_entity_timestamp in
  if ttl fv =? 0 then upper
  else sql_and upper
         (sql_ge (col r (event_timestamp_column fv))
            (sql_minus_interval min_entity_timestamp (ttl fv))).

Definition subquery_select (fv : FeatureViewQueryContext) (r : row) : row :=
  ("event_timestamp", col r (event_timestamp_column fv))
  :: (if has_created fv
      then [("created_timestamp", col r (created_column fv))] else [])
  ++ map (fun sel => (snd sel, col r (fst sel))) (entity_selections fv)
  ++ map (fun feature =>
            (feature_alias full_feature_names fv feature, col r feature))
       (features fv).

Definition subquery (fv : FeatureViewQueryContext) : list row :=
  map (subquery_select fv)
    (filter (fun r => holds (subquery_where fv r)) (db (table_subquery fv))).

(** [<name>__base]: the join of the windowed rows with the grouped
    request rows. *)
Definition base_on (fv : FeatureViewQueryContext) (s e : row) : tri :=
  let upper :=
    sql_and (Some true)
      (sql_le (col s "event_timestamp") (col e "entity_timestamp")) in
  let window :=
    if ttl fv =? 0 then upper
    else sql_and upper
           (sql_ge (col s "event_timestamp")
              (sql_minus_interval (col e "entity_timestamp") (ttl fv))) in
  fold_left
    (fun acc entity => sql_and acc (sql_eq (col s entity) (col e entity)))
    (entities fv) window.

Definition base_pairs (fv : FeatureViewQueryContext) : list (row * row) :=
  filter (fun p => holds (base_on fv (fst p) (snd p)))
    (list_prod (subquery fv) (fv_entity_dataframe fv)).

Definition base_select (fv : FeatureViewQueryContext) (p : row * row) : row :=
  fst p ++ [("entity_timestamp", col (snd p) "entity_timestamp");
            (unique_id_column fv, col (snd p) (unique_id_column fv))].

Definition base (fv : FeatureViewQueryContext) : list row :=
  map (base_select fv) (base_pairs fv).

(** [<name>__dedup], emitted when the created timestamp is declared: the
    latest created timestamp of every (unique id, event timestamp). *)
Definition dedup_keys (fv : FeatureViewQueryContext) : list string :=
  [unique_id_column fv; "event_timestamp"].

Definition dedup (fv : FeatureViewQueryContext) : list row :=
  map (fun k =>
         combine (dedup_keys fv) k
         ++ [("created_timestamp",
              sql_max (map (fun b => col b "created_timestamp")
                         (filter (in_group
                                    (fun b => map (col b) (dedup_keys fv)) k)
                            (base fv))))])
    (group_keys (fun b => map (col b) (dedup_keys fv)) (base fv)).

(** The columns [<name>__latest] and [<name>__cleaned] join on. *)
Definition latest_keys (fv : FeatureViewQueryContext) : list string :=
  unique_id_column fv :: timestamp_keys fv.

(** [<name>__latest]: the first row of every unique id in the window
    order, reduced to its key columns. *)
Definition latest_source (fv : FeatureViewQueryContext) : list row :=
  if has_created fv
  then join_using
         [unique_id_column fv; "event_timestamp"; "created_timestamp"]
         (base fv) (dedup fv)
  else base fv.

Definition latest (fv : FeatureViewQueryContext) : list row :=
  map (project (timestamp_keys fv ++ [unique_id_column fv]))
    (filter (fun r => holds (sql_eq (col r "row_number") (VInt 1)))
       (row_number "row_number" [unique_id_column fv] (timestamp_keys fv)
          (latest_source fv))).

(** [<name>__cleaned]: [SELECT base.*, <uid> FROM base JOIN latest
    USING (...)].  After a [USING] join Trino leaves the join columns out
    of [base.*]. *)
Definition cleaned_select (fv : FeatureViewQueryContext) (b : row) : row :=
  remove_cols (latest_keys fv) b
  ++ [(unique_id_column fv, col b (unique_id_column fv))].

Definition cleaned (fv : FeatureViewQueryContext) : list row :=
  flat_map (fun b =>
      map (fun _ => cleaned_select fv b)
        (filter (using_match (latest_keys fv) b) (latest fv)))
    (base fv).

(** The final statement: the request rows, left-joined with every feature
    view's cleaned rows on that view's unique id. *)
Definition joined_columns (fv : FeatureViewQueryContext) : list string :=
  unique_id_column fv :: feature_columns full_feature_names fv.

Definition joined_select (fv : FeatureViewQueryContext) : list row :=
  map (project (joined_columns fv)) (cleaned fv).

Definition left_join_view (T : list row) (fv : FeatureViewQueryContext)
  : list row :=
  left_join_using [unique_id_column fv] (joined_columns fv) T
    (joined_select fv).

Definition assembled : list row :=
  fold_left left_join_view featureviews entity_dataframe.

Definition MULTIPLE_FEATURE_VIEW_POINT_IN_TIME_JOIN : list row :=
  map (project final_output_feature_names) assembled.

End Query.

(** Modelled from the spec: [final_output_feature_names] is computed by
    [offline_utils.build_point_in_time_query], which is not part of this
    repository; the final projection selects the columns of the entity
    table, then every requested feature column of every feature view
    under the name the qualification mode gives it. *)
Definition output_feature_names (entity_df_columns : list string)
  (featureviews : list FeatureViewQueryContext) (full_feature_names : bool)
  : list string :=
  entity_df_columns
  ++ flat_map (feature_columns full_feature_names) featureviews.

End Template.

(* ================================================================== *)
(** ** Python values used by the offline store *)
(* ================================================================== *)

Module Py.

(** [sep.join(parts)]. *)
Definition join (sep : string) (parts : list string) : string :=
  String.concat sep parts.

(** [s[:n]]. *)
Definition slice_to (n : nat) (s : string) : string :=
  string_of_list_ascii (firstn n (list_ascii_of_string s)).

(** [repr(s)] of a [str] that holds no quote, backslash or control
    character: the text between single quotes. *)
Definition repr (s : string) : string := "'" +++ s +++ "'".

Definition digit_char (base : N) (d : N) : ascii :=
  if (d <? 10)%N then ascii_of_N (48 + d) else ascii_of_N (87 + d).

(** The [width] lowest digits of [n] in [base], most significant first. *)
Fixpoint digits (base : N) (width : nat) (n : N) : list ascii :=
  match width with
  | O => []
  | S w => digits base w (n / base) ++ [digit_char base (n mod base)]
  end.

(** [datetime.date]: the library keeps the year between 1 and 9999. *)
Record date : Type := { year : N; month : N; day : N }.

(** [d.strftime("%Y%m%d")]. *)
Definition strftime_Ymd (d : date) : string :=
  string_of_list_ascii
    (digits 10 4 (year d) ++ digits 10 2 (month d) ++ digits 10 2 (day d)).

(** [uuid.UUID]: a 128-bit number; [str] prints its 32 hexadecimal digits
    in groups of 8, 4, 4, 4 and 12. *)
Definition uuid : Type := N.

Definition str_uuid (u : uuid) : string :=
  let h := digits 16 32 (u mod 2 ^ 128) in
  let dash := ["-"%char] in
  string_of_list_ascii
    (firstn 8 h ++ dash ++ firstn 4 (skipn 8 h) ++ dash
     ++ firstn 4 (skipn 12 h) ++ dash ++ firstn 4 (skipn 16 h) ++ dash
     ++ skipn 20 h).

(** The types [type(x)] can name where the store looks at them. *)
Inductive py_type : Type :=
| TStr
| TDataFrame
| TOther (qualname : string).

Definition str_type (t : py_type) : string :=
  match t with
  | TStr => "<class 'str'>"
  | TDataFrame => "<class 'pandas.core.frame.DataFrame'>"
  | TOther q => "<class '" +++ q +++ "'>"
  end.

(** The exceptions the store raises itself. *)
Inductive exn : Type :=
| ValueError (message : string)
| InvalidEntityType (entity_type : py_type)
| Raised (by_collaborator : string).

Inductive result (A : Type) : Type :=
| Ok (a : A)
| Raise (e : exn).
Arguments Ok {A} a.
Arguments Raise {A} e.

Definition bind {A B : Type} (m : result A) (k : A -> result B) : result B :=
  match m with
  | Ok a => k a
  | Raise e => Raise e
  end.

End Py.

Notation "x <- m ;; k" := (Py.bind m (fun x => k))
  (at level 61, m at next level, right associativity).

(* ================================================================== *)
(** ** The offline store: configuration, jobs and entry points *)
(* ================================================================== *)

Module Store.
Import Sql Py.

Record TrinoOfflineStoreConfig : Type := {
  host : string;
  port : Z;
  catalog : string;
  dataset : string
}.

(** [config.offline_store] is tested with [isinstance]. *)
Inductive OfflineStoreConfig : Type :=
| TrinoStore (c : TrinoOfflineStoreConfig)
| OtherStore (config_type : py_type).

Record RepoConfig : Type := { offline_store : OfflineStoreConfig }.

(** [data_source] is tested with [isinstance]; a [TrinoSource] answers
    [get_table_query_string()]. *)
Inductive DataSource : Type :=
| TrinoSource (table_query_string : string)
| OtherSource (source_type : py_type).

(** The client, as [_get_trino_client] builds it. *)
Record Trino : Type := {
  client_user : string;
  client_catalog : string;
  client_host : string;
  client_port : Z
}.

(** What [execute_query] returns. *)
Record QueryResult : Type := {
  data : list (list value);
  columns_names : list string;
  schema : list (string * string)
}.

(** [entity_df: Union[pd.DataFrame, str]], or whatever else a caller
    passes. *)
Inductive EntityDf : Type :=
| EntityQuery (sql : string)
| EntityFrame
| EntityOther (qualname : string).

Definition type_of_entity_df (entity_df : EntityDf) : py_type :=
  match entity_df with
  | EntityQuery _ => TStr
  | EntityFrame => TDataFrame
  | EntityOther q => TOther q
  end.

Definition _get_trino_client (c : TrinoOfflineStoreConfig) : Trino :=
  {| client_user := "user";
     client_catalog := catalog c;
     client_host := host c;
     client_port := port c |}.

Definition newline : string := String (ascii_of_nat 10) "".

(** [timestamp_columns], [field_string]'s columns and the columns of the
    [PARTITION BY] clause, which is left out when the joined keys are the
    empty text. *)
Definition timestamp_columns (event_timestamp_column : string)
  (created_timestamp_column : option string) : list string :=
  event_timestamp_column ::
  match created_timestamp_column with
  | Some c => if (c =? "")%string then [] else [c]
  | None => []
  end.

Definition field_columns (join_key_columns feature_name_columns : list string)
  (event_timestamp_column : string) (created_timestamp_column : option string)
  : list string :=
  join_key_columns ++ feature_name_columns
  ++ timestamp_columns event_timestamp_column created_timestamp_column.

Definition partition_by_join_key_string (join_key_columns : list string)
  : string :=
  let s := join ", " join_key_columns in
  if (s =? "")%string then s else "PARTITION BY " +++ s.

Definition partition_columns (join_key_columns : list string) : list string :=
  if (join ", " join_key_columns =? "")%string then [] else join_key_columns.

Section Collaborators.

(** Declared by the libraries the store imports. *)
Variable OnDemandFeatureView : Type.
Variable FeatureView : Type.
Variable Registry : Type.
Variable dtype : Type.
Variable DUMMY_ENTITY_ID : string.
Variable DUMMY_ENTITY_VAL : string.

(** [str(d)] of a [datetime] kept as its millisecond count. *)
Variable str_datetime : Z -> string.

(** The attribute [project] of the client class. *)
Variable project_of : Trino -> string.

(** The engine: the statements it ran before, the statement to run, and
    its rows or the exception it raises. *)
Variable execute_query : list string -> string -> result QueryResult.

(** What the engine holds: the rows of every table expression. *)
Variable db : string -> list row.

Record TrinoRetrievalJob : Type := {
  _query : string;
  _client : Trino;
  _config : RepoConfig;
  _full_feature_names : bool;
  _on_demand_feature_views : option (list OnDemandFeatureView)
}.

Definition full_feature_names (job : TrinoRetrievalJob) : bool :=
  _full_feature_names job.

Definition on_demand_feature_views (job : TrinoRetrievalJob)
  : option (list OnDemandFeatureView) :=
  _on_demand_feature_views job.

Definition to_sql (job : TrinoRetrievalJob) : string := _query job.

(** [to_trino], run on a given day with a given fresh uuid by a client
    that has [executed] some statements: the value returned or the
    exception raised, and the statements executed afterwards.  A store
    configuration of another class has no known [dataset]. *)
Definition to_trino (job : TrinoRetrievalJob) (timeout retry_cadence : Z)
  (today : date) (fresh : uuid) (executed : list string)
  : result string * list string :=
  match offline_store (_config job) with
  | OtherStore _ => (Raise (Raised "AttributeError"), executed)
  | TrinoStore c =>
      let today := strftime_Ymd today in
      let rand_id := slice_to 7 (str_uuid fresh) in
      let destination_table :=
        project_of (_client job) +++ "." +++ dataset c +++ ".historical_"
        +++ today +++ "_" +++ rand_id in
      let query :=
        "CREATE TABLE " +++ destination_table +++ " AS ("
        +++ _query job +++ ")" in
      (_ <- execute_query executed query ;; Ok destination_table,
       executed ++ [query])
  end.

(** [pd.DataFrame(data=..., columns=...)] and [pyarrow.table(data=...,
    columns=...)]: the table built, or what the library raises. *)
Variable DataFrame : Type.
Variable pd_DataFrame : list (list value) -> list string -> result DataFrame.
Variable Table : Type.
Variable pyarrow_table : list (list value) -> list string -> result Table.

(** [_to_df_internal] and [_to_arrow_internal], run by a client that has
    [executed] some statements. *)
Definition _to_df_internal (job : TrinoRetrievalJob) (executed : list string)
  : result DataFrame * list string :=
  (results <- execute_query executed (_query job) ;;
   pd_DataFrame (data results) (columns_names results),
   executed ++ [_query job]).

Definition _to_arrow_internal (job : TrinoRetrievalJob)
  (executed : list string) : result Table * list string :=
  (results <- execute_query executed (_query job) ;;
   pyarrow_table (data results) (columns_names results),
   executed ++ [_query job]).

(** The text of the snapshot query. *)
Definition snapshot_query (from_expression : string)
  (join_key_columns feature_name_columns : list string)
  (event_timestamp_column : string) (created_timestamp_column : option string)
  (start_date end_date : Z) : string :=
  let timestamp_columns :=
    timestamp_columns event_timestamp_column created_timestamp_column in
  let timestamp_desc_string := join " DESC, " timestamp_columns +++ " DESC" in
  let field_string :=
    join ", "
      (join_key_columns ++ feature_name_columns ++ timestamp_columns) in
  join newline
    [ "";
      "            SELECT";
      "                " +++ field_string;
      "                " +++
        match join_key_columns with
        | [] => ", " +++ repr DUMMY_ENTITY_VAL +++ " AS " +++ DUMMY_ENTITY_ID
        | _ :: _ => ""
        end;
      "            FROM (";
      "                SELECT " +++ field_string +++ ",";
      "                ROW_NUMBER() OVER("
        +++ partition_by_join_key_string join_key_columns +++ " ORDER BY "
        +++ timestamp_desc_string +++ ") AS _feast_row";
      "                FROM " +++ from_expression;
      "                WHERE " +++ event_timestamp_column
        +++ " BETWEEN TIMESTAMP '" +++ str_datetime start_date
        +++ "' AND TIMESTAMP '" +++ str_datetime end_date +++ "'";
      "            )";
      "            WHERE _feast_row = 1";
      "            " ].

(** The rows that query selects. *)
Definition snapshot_ranked (from_expression : string)
  (join_key_columns feature_name_columns : list string)
  (event_timestamp_column : string) (created_timestamp_column : option string)
  (start_date end_date : Z) : list row :=
  let fields :=
    field_columns join_key_columns feature_name_columns
      event_timestamp_column created_timestamp_column in
  flat_map (fun p => number_rows "_feast_row" 1 (map (project fields) p))
    (partitions (partition_columns join_key_columns)
       (timestamp_columns event_timestamp_column created_timestamp_column)
       (filter (fun r =>
                  holds (sql_between (col r event_timestamp_column)
                           (VInt start_date) (VInt end_date)))
          (db from_expression))).

Definition snapshot_select (join_key_columns feature_name_columns : list string)
  (event_timestamp_column : string) (created_timestamp_column : option string)
  (r : row) : row :=
  project
    (field_columns join_key_columns feature_name_columns
       event_timestamp_column created_timestamp_column) r
  ++ match join_key_columns with
     | [] => [(DUMMY_ENTITY_ID, VStr DUMMY_ENTITY_VAL)]
     | _ :: _ => []
     end.

Definition snapshot_rows (from_expression : string)
  (join_key_columns feature_name_columns : list string)
  (event_timestamp_column : string) (created_timestamp_column : option string)
  (start_date end_date : Z) : list row :=
  map (snapshot_select join_key_columns feature_name_columns
         event_timestamp_column created_timestamp_column)
    (filter (fun r => holds (sql_eq (col r "_feast_row") (VInt 1)))
       (snapshot_ranked from_expression join_key_columns feature_name_columns
          event_timestamp_column created_timestamp_column
          start_date end_date)).

Definition pull_latest_from_table_or_query (config : RepoConfig)
  (data_source : DataSource)
  (join_key_columns feature_name_columns : list string)
  (event_timestamp_column : string) (created_timestamp_column : option string)
  (start_date end_date : Z) : result TrinoRetrievalJob :=
  match data_source with
  | OtherSource t =>
      Raise (ValueError
               ("The data_source object is not a TrinoSource but is instead '"
                +++ str_type t +++ "'"))
  | TrinoSource from_expression =>
      match offline_store config with
      | OtherStore t =>
          Raise (ValueError
                   ("The config.offline_store object is not a "
                    +++ "TrinoOfflineStoreConfig but is instead '"
                    +++ str_type t +++ "'"))
      | TrinoStore c =>
          Ok {| _query :=
                  snapshot_query from_expression join_key_columns
                    feature_name_columns event_timestamp_column
                    created_timestamp_column start_date end_date;
                _client := _get_trino_client c;
                _config := config;
                _full_feature_names := false;
                _on_demand_feature_views := None |}
      end
  end.

(** Collaborators of [get_historical_features]. *)
Variable get_temp_entity_table_name : string.
Variable entity_schema_of : QueryResult -> list (string * dtype).
Variable infer_event_timestamp_from_entity_df :
  list (string * dtype) -> result string.
Variable get_expected_join_keys :
  string -> list FeatureView -> Registry -> list string.
Variable assert_expected_columns_in_entity_df :
  list (string * dtype) -> list string -> string -> result unit.
Variable get_feature_view_query_context :
  list string -> list FeatureView -> Registry -> string ->
  result (list Template.FeatureViewQueryContext).
Variable build_point_in_time_query :
  list Template.FeatureViewQueryContext -> string -> string ->
  list string -> bool -> string.
Variable get_requested_odfvs :
  list string -> string -> Registry -> list OnDemandFeatureView.

Definition _get_table_reference_for_new_entity (catalog dataset_name : string)
  : string :=
  let table_name := get_temp_entity_table_name in
  catalog +++ "." +++ dataset_name +++ "." +++ table_name.

(** The schema of the uploaded entity table, or the exception raised, and
    the statements executed afterwards.  [entity_schema_of] stands for
    what pandas makes of the one row read back. *)
Definition _upload_entity_df_and_get_entity_schema (client : Trino)
  (table_name : string) (entity_df : EntityDf) (executed : list string)
  : result (list (string * dtype)) * list string :=
  match entity_df with
  | EntityQuery sql =>
      let create :=
        "CREATE TABLE " +++ table_name +++ " AS (" +++ sql +++ ")" in
      match execute_query executed create with
      | Raise e => (Raise e, executed ++ [create])
      | Ok _ =>
          let read := "SELECT * FROM " +++ table_name +++ " LIMIT 1" in
          (results <- execute_query (executed ++ [create]) read ;;
           Ok (entity_schema_of results),
           executed ++ [create; read])
      end
  | EntityFrame => (Raise (InvalidEntityType (type_of_entity_df entity_df)),
                    executed)
  | EntityOther _ => (Raise (InvalidEntityType (type_of_entity_df entity_df)),
                      executed)
  end.

Definition get_historical_features (config : RepoConfig)
  (feature_views : list FeatureView) (feature_refs : list string)
  (entity_df : EntityDf) (registry : Registry) (project : string)
  (full_feature_names : bool) (executed : list string)
  : result TrinoRetrievalJob * list string :=
  match offline_store config with
  | OtherStore _ =>
      (Raise (ValueError
                ("This function should be used with a "
                 +++ "TrinoOfflineStoreConfig object. Instead we have "
                 +++ "config.offline_store being "
                 +++ "'{type(config.offline_store)}'")),
       executed)
  | TrinoStore c =>
      let client := _get_trino_client c in
      let table_reference :=
        _get_table_reference_for_new_entity (catalog c) (dataset c) in
      let uploaded :=
        _upload_entity_df_and_get_entity_schema client table_reference
          entity_df executed in
      (entity_schema <- fst uploaded ;;
       entity_df_event_timestamp_col <-
         infer_event_timestamp_from_entity_df entity_schema ;;
       _ <- assert_expected_columns_in_entity_df entity_schema
              (get_expected_join_keys project feature_views registry)
              entity_df_event_timestamp_col ;;
       query_context <-
         get_feature_view_query_context feature_refs feature_views
           registry project ;;
       Ok {| _query :=
               build_point_in_time_query query_context table_reference
                 entity_df_event_timestamp_col (map fst entity_schema)
                 full_feature_names;
             _client := client;
             _config := config;
             _full_feature_names := full_feature_names;
             _on_demand_feature_views :=
               Some (get_requested_odfvs feature_refs project registry) |},
       snd uploaded)
  end.

End Collaborators.

Arguments _query {OnDemandFeatureView} _.
Arguments _client {OnDemandFeatureView} _.
Arguments _config {OnDemandFeatureView} _.
Arguments _full_feature_names {OnDemandFeatureView} _.
Arguments _on_demand_feature_views {OnDemandFeatureView} _.
Arguments full_feature_names {OnDemandFeatureView} job.
Arguments on_demand_feature_views {OnDemandFeatureView} job.
Arguments to_sql {OnDemandFeatureView} job.
Arguments to_trino {OnDemandFeatureView} project_of execute_query job
  timeout retry_cadence today fresh executed.

End Store.

(* ================================================================== *)
(** ** Facts about lists and strings *)
(* ================================================================== *)

Module ListFacts.

Lemma filter_flat_map {A B : Type} (f : B -> bool) (g : A -> list B)
  (l : list A) :
  filter f (flat_map g l) = flat_map (fun x => filter f (g x)) l.
Proof.
  induction l as [|x l IH]; simpl; [reflexivity|].
  now rewrite filter_app, IH.
Qed.

Lemma flat_map_flat_map {A B C : Type} (f : A -> list B) (g : B -> list C)
  (l : list A) :
  flat_map g (flat_map f l) = flat_map (fun x => flat_map g (f x)) l.
Proof.
  induction l as [|x l IH]; simpl; [reflexivity|].
  now rewrite flat_map_app, IH.
Qed.

Lemma flat_map_map {A B C : Type} (f : A -> B) (g : B -> list C)
  (l : list A) : flat_map g (map f l) = flat_map (fun x => g (f x)) l.
Proof. induction l as [|x l IH]; simpl; [reflexivity | now rewrite IH]. Qed.

Lemma flat_map_length_ge {A B : Type} (f : A -> list B) (l : list A) :
  (forall x, f x <> []) -> (List.length l <= List.length (flat_map f l))%nat.
Proof.
  intro H. induction l as [|x l IH]; simpl; [lia|].
  rewrite length_app. specialize (H x). destruct (f x); [congruence|].
  simpl. lia.
Qed.

Lemma flat_map_length_eq {A B : Type} (f : A -> list B) (l : list A) :
  (forall x, List.length (f x) = 1%nat) ->
  List.length (flat_map f l) = List.length l.
Proof.
  intro H. induction l as [|x l IH]; simpl; [reflexivity|].
  rewrite length_app, H, IH. reflexivity.
Qed.

Lemma NoDup_app_disjoint {A : Type} (l1 l2 : list A) (x : A) :
  NoDup (l1 ++ l2) -> In x l1 -> In x l2 -> False.
Proof.
  induction l1 as [|y l1 IH]; simpl; [tauto|].
  intros Hnd [->|Hin] H2; inversion Hnd as [|? ? Hy Hnd']; subst.
  - apply Hy, in_or_app. now right.
  - auto.
Qed.

Lemma NoDup_map_eq {A B : Type} (f : A -> B) (l : list A) (x y : A) :
  NoDup (map f l) -> In x l -> In y l -> f x = f y -> x = y.
Proof.
  induction l as [|a l IH]; [intros _ []|]. cbn [map].
  intros Hnd Hx Hy E. inversion Hnd as [|? ? Ha Hnd']; subst.
  destruct Hx as [->|Hx]; destruct Hy as [->|Hy]; auto.
  - exfalso. apply Ha. rewrite E. now apply in_map.
  - exfalso. apply Ha. rewrite <- E. now apply in_map.
Qed.

Lemma forallb_ext_key {A : Type} (f g : A -> bool) (l : list A) :
  (forall x, In x l -> f x = g x) -> forallb f l = forallb g l.
Proof.
  induction l as [|x l IH]; intro H; [reflexivity|]. cbn [forallb].
  rewrite (H x) by now left. f_equal. apply IH. intros y Hy. apply H.
  now right.
Qed.

Lemma heads_map {A B : Type} (f : A -> B) (P : list (list A)) :
  flat_map (fun p => match p with [] => [] | r :: _ => [r] end)
    (map (map f) P)
  = map f (flat_map (fun p => match p with [] => [] | r :: _ => [r] end) P).
Proof.
  induction P as [|p P IH]; [reflexivity|]. cbn [map flat_map].
  rewrite map_app, IH. now destruct p.
Qed.

Lemma length_append (a b : string) :
  String.length (a +++ b) = (String.length a + String.length b)%nat.
Proof. induction a as [|c a IH]; simpl; [reflexivity | now rewrite IH]. Qed.

Lemma append_empty_r (s : string) : s +++ "" = s.
Proof. induction s as [|c s IH]; simpl; [reflexivity | now rewrite IH]. Qed.

Lemma append_inj_l (a x y : string) : a +++ x = a +++ y -> x = y.
Proof.
  induction a as [|c a IH]; simpl; [auto|]. intro H. injection H as H. auto.
Qed.

End ListFacts.

(* ================================================================== *)
(** ** Facts about values, aggregates and column lookup *)
(* ================================================================== *)

Module SqlFacts.
Import Sql ListFacts.

Lemma holds_some (b : bool) : holds (Some b) = b.
Proof. now destruct b. Qed.

Lemma holds_sql_and (a b : tri) : holds (sql_and a b) = holds a && holds b.
Proof. destruct a as [[|]|], b as [[|]|]; reflexivity. Qed.

Lemma holds_sql_eq (a b : value) :
  holds (sql_eq a b) = true <-> a = b /\ a <> VNull.
Proof.
  destruct a as [|x|s], b as [|y|t]; unfold sql_eq;
    rewrite ?holds_some, ?Z.eqb_eq, ?String.eqb_eq; simpl;
    (split; [intro H | intros [H H']]); try discriminate;
    try congruence; subst; (split; [reflexivity | discriminate]).
Qed.

Lemma holds_sql_le (a b : value) :
  holds (sql_le a b) = true <->
  exists x y, a = VInt x /\ b = VInt y /\ x <= y.
Proof.
  destruct a as [|x|s], b as [|y|t]; unfold sql_le;
    rewrite ?holds_some, ?Z.leb_le; simpl;
    (split; [intro H | intros (x' & y' & H1 & H2 & H3)]);
    try discriminate.
  - now exists x, y.
  - injection H1 as ->. now injection H2 as ->.
Qed.

Lemma holds_fold_and {A : Type} (f : A -> tri) (l : list A) (init : tri) :
  holds (fold_left (fun acc x => sql_and acc (f x)) l init)
  = holds init && forallb (fun x => holds (f x)) l.
Proof.
  revert init. induction l as [|x l IH]; intro init; simpl.
  - now rewrite andb_true_r.
  - rewrite IH, holds_sql_and. now rewrite andb_assoc.
Qed.

Lemma sql_max_not_str (vs : list value) (s : string) : sql_max vs <> VStr s.
Proof.
  induction vs as [|[|x|t] vs IH]; simpl; try discriminate; auto.
  destruct (sql_max vs); discriminate.
Qed.

Lemma sql_max_null (vs : list value) :
  sql_max vs = VNull <-> forall x, ~ In (VInt x) vs.
Proof.
  induction vs as [|v vs IH]; simpl; [split; auto|].
  assert (Hskip : (forall x, v <> VInt x) ->
    (sql_max vs = VNull <-> forall x, ~ (v = VInt x \/ In (VInt x) vs))).
  { intro Hv. rewrite IH. split; intros H x.
    - intros [H1|H1]; [now apply Hv in H1 | now apply H in H1].
    - intro H1. apply (H x). now right. }
  destruct v as [|x|t]; try (apply Hskip; intros; discriminate).
  split.
  - destruct (sql_max vs); discriminate.
  - intro H. exfalso. apply (H x). now left.
Qed.

(** [MAX] is the greatest number listed. *)
Lemma sql_max_spec (vs : list value) (m : Z) :
  sql_max vs = VInt m <->
  In (VInt m) vs /\ forall x, In (VInt x) vs -> x <= m.
Proof.
  revert m. induction vs as [|v vs IH]; intro m; simpl.
  - split; [discriminate | intros [[] _]].
  - assert (Hskip : v <> VInt m -> (forall x, v <> VInt x) ->
      (sql_max vs = VInt m <->
       (v = VInt m \/ In (VInt m) vs) /\
       (forall x, v = VInt x \/ In (VInt x) vs -> x <= m))).
    { intros Hv Hx. rewrite IH. split; intros [H1 H2]; split; auto.
      - intros x [H|H]; [now apply Hx in H | auto].
      - destruct H1 as [H1|H1]; [contradiction | auto]. }
    destruct v as [|x|s]; try (apply Hskip; intros; discriminate).
    destruct (sql_max vs) as [|y|t] eqn:E.
    + rewrite sql_max_null in E. split.
      * intro H. injection H as <-. split; [now left|].
        intros y [Hy|Hy]; [injection Hy as ->; lia | now apply E in Hy].
      * intros [[H1|H1] _]; [assumption | now apply E in H1].
    + destruct (proj1 (IH y) eq_refl) as [Hy1 Hy2]. split.
      * intro H. injection H as <-. split.
        -- destruct (Z.max_spec x y) as [[_ ->]|[_ ->]]; auto.
        -- intros z [Hz|Hz]; [injection Hz as ->; lia|].
           specialize (Hy2 z Hz). lia.
      * intros [H1 H2]. f_equal. apply Z.le_antisymm.
        -- apply Z.max_lub; apply H2; auto.
        -- destruct H1 as [H1|H1]; [injection H1 as ->; lia|].
           specialize (Hy2 m H1). lia.
    + now apply sql_max_not_str in E.
Qed.

Lemma sql_min_not_str (vs : list value) (s : string) : sql_min vs <> VStr s.
Proof.
  induction vs as [|[|x|t] vs IH]; simpl; try discriminate; auto.
  destruct (sql_min vs); discriminate.
Qed.

Lemma sql_min_null (vs : list value) :
  sql_min vs = VNull <-> forall x, ~ In (VInt x) vs.
Proof.
  induction vs as [|v vs IH]; simpl; [split; auto|].
  assert (Hskip : (forall x, v <> VInt x) ->
    (sql_min vs = VNull <-> forall x, ~ (v = VInt x \/ In (VInt x) vs))).
  { intro Hv. rewrite IH. split; intros H x.
    - intros [H1|H1]; [now apply Hv in H1 | now apply H in H1].
    - intro H1. apply (H x). now right. }
  destruct v as [|x|t]; try (apply Hskip; intros; discriminate).
  split.
  - destruct (sql_min vs); discriminate.
  - intro H. exfalso. apply (H x). now left.
Qed.

(** [MIN] is the least number listed. *)
Lemma sql_min_spec (vs : list value) (m : Z) :
  sql_min vs = VInt m <->
  In (VInt m) vs /\ forall x, In (VInt x) vs -> m <= x.
Proof.
  revert m. induction vs as [|v vs IH]; intro m; simpl.
  - split; [discriminate | intros [[] _]].
  - assert (Hskip : v <> VInt m -> (forall x, v <> VInt x) ->
      (sql_min vs = VInt m <->
       (v = VInt m \/ In (VInt m) vs) /\
       (forall x, v = VInt x \/ In (VInt x) vs -> m <= x))).
    { intros Hv Hx. rewrite IH. split; intros [H1 H2]; split; auto.
      - intros x [H|H]; [now apply Hx in H | auto].
      - destruct H1 as [H1|H1]; [contradiction | auto]. }
    destruct v as [|x|s]; try (apply Hskip; intros; discriminate).
    destruct (sql_min vs) as [|y|t] eqn:E.
    + rewrite sql_min_null in E. split.
      * intro H. injection H as <-. split; [now left|].
        intros y [Hy|Hy]; [injection Hy as ->; lia | now apply E in Hy].
      * intros [[H1|H1] _]; [assumption | now apply E in H1].
    + destruct (proj1 (IH y) eq_refl) as [Hy1 Hy2]. split.
      * intro H. injection H as <-. split.
        -- destruct (Z.min_spec x y) as [[_ ->]|[_ ->]]; auto.
        -- intros z [Hz|Hz]; [injection Hz as ->; lia|].
           specialize (Hy2 z Hz). lia.
      * intros [H1 H2]. f_equal. apply Z.le_antisymm.
        -- destruct H1 as [H1|H1]; [injection H1 as ->; lia|].
           specialize (Hy2 m H1). lia.
        -- apply Z.min_glb; apply H2; auto.
    + now apply sql_min_not_str in E.
Qed.

Lemma sql_max_bounds (vs : list value) (x : Z) :
  In (VInt x) vs -> exists m, sql_max vs = VInt m /\ x <= m.
Proof.
  intro H. destruct (sql_max vs) as [|m|s] eqn:E.
  - rewrite sql_max_null in E. now apply E in H.
  - exists m. split; [reflexivity|]. apply sql_max_spec in E. now apply E.
  - now apply sql_max_not_str in E.
Qed.

Lemma sql_min_bounds (vs : list value) (x : Z) :
  In (VInt x) vs -> exists m, sql_min vs = VInt m /\ m <= x.
Proof.
  intro H. destruct (sql_min vs) as [|m|s] eqn:E.
  - rewrite sql_min_null in E. now apply E in H.
  - exists m. split; [reflexivity|]. apply sql_min_spec in E. now apply E.
  - now apply sql_min_not_str in E.
Qed.

(** *** Column lookup *)

Lemma col_app_in (r r' : row) (c : string) :
  In c (columns r) -> col (r ++ r') c = col r c.
Proof.
  induction r as [|[c' v] r IH]; simpl; [intros []|].
  destruct (String.eqb_spec c' c); [reflexivity|].
  intros [H|H]; [contradiction | auto].
Qed.

Lemma col_app_notin (r r' : row) (c : string) :
  ~ In c (columns r) -> col (r ++ r') c = col r' c.
Proof.
  induction r as [|[c' v] r IH]; simpl; [reflexivity|].
  intro H. destruct (String.eqb_spec c' c); [exfalso; auto | auto].
Qed.

Lemma col_notin (r : row) (c : string) : ~ In c (columns r) -> col r c = VNull.
Proof.
  induction r as [|[c' v] r IH]; simpl; [reflexivity|].
  intro H. destruct (String.eqb_spec c' c); [exfalso; auto | auto].
Qed.

Lemma columns_project (cs : list string) (r : row) :
  columns (project cs r) = cs.
Proof.
  unfold columns, project. rewrite map_map. simpl. apply map_id.
Qed.

Lemma col_project (cs : list string) (r : row) (c : string) :
  In c cs -> col (project cs r) c = col r c.
Proof.
  induction cs as [|c' cs IH]; simpl; [intros []|].
  destruct (String.eqb_spec c' c); [now subst|].
  intros [H|H]; [contradiction | auto].
Qed.

(** *** Projections and joins *)

Lemma using_match_spec (cs : list string) (l r : row) :
  using_match cs l r = true <->
  forall c, In c cs -> col l c = col r c /\ col l c <> VNull.
Proof.
  unfold using_match. rewrite forallb_forall.
  split; intros H c Hc; apply holds_sql_eq; auto.
Qed.

Lemma col_using_row (cs : list string) (l r : row) (c : string) :
  In c cs -> col (using_row cs l r) c = col l c.
Proof.
  intro Hc. unfold using_row.
  rewrite col_app_in by (now rewrite columns_project).
  now apply col_project.
Qed.

Lemma columns_remove_cols (cs : list string) (r : row) (c : string) :
  In c (columns (remove_cols cs r)) -> In c (columns r).
Proof.
  unfold columns, remove_cols. rewrite !in_map_iff.
  intros (p & Hp & Hin). apply filter_In in Hin as [Hin _]. eauto.
Qed.

Lemma columns_using_row (cs : list string) (l r : row) (c : string) :
  In c (columns (using_row cs l r)) ->
  In c cs \/ In c (columns l) \/ In c (columns r).
Proof.
  unfold using_row, columns at 1. rewrite !map_app, !in_app_iff.
  fold (columns (project cs l)). rewrite columns_project.
  intros [H|[H|H]]; [now left | right; left | right; right];
    now apply columns_remove_cols in H.
Qed.

Lemma join_using_In (cs : list string) (L R : list row) (x : row) :
  In x (join_using cs L R) <->
  exists l r, In l L /\ In r R /\ using_match cs l r = true /\
              x = using_row cs l r.
Proof.
  unfold join_using. rewrite in_flat_map. split.
  - intros (l & Hl & Hx). apply in_map_iff in Hx as (r & <- & Hr).
    apply filter_In in Hr as [Hr Hm]. now exists l, r.
  - intros (l & r & Hl & Hr & Hm & ->). exists l. split; [assumption|].
    apply in_map. now apply filter_In.
Qed.

Lemma project_numbered (cs : list string) (alias : string) (n : Z)
  (r : row) :
  (forall c, In c cs -> In c (columns r)) ->
  project cs (r ++ [(alias, VInt n)]) = project cs r.
Proof.
  intro H. unfold project. apply map_ext_in. intros c Hc.
  now rewrite col_app_in by auto.
Qed.

Lemma project_project (cs : list string) (r : row) :
  project cs (project cs r) = project cs r.
Proof.
  unfold project at 1 3. apply map_ext_in. intros c Hc.
  now rewrite col_project.
Qed.

Lemma cells_project (cs : list string) (r : row) :
  map snd (project cs r) = map (col r) cs.
Proof. unfold project. now rewrite map_map. Qed.

Lemma col_remove_cols (cs : list string) (r : row) (c : string) :
  ~ In c cs -> col (remove_cols cs r) c = col r c.
Proof.
  intro Hc. induction r as [|[c' v] r IH]; [reflexivity|].
  unfold remove_cols in *. cbn [filter fst col].
  destruct (mem c' cs) eqn:Em; cbn [negb].
  - destruct (String.eqb_spec c' c) as [->|Hne]; [|exact IH].
    exfalso. apply Hc. unfold mem in Em. apply existsb_exists in Em
      as (y & Hy & Ey). apply String.eqb_eq in Ey. now subst.
  - cbn [col]. now rewrite IH.
Qed.

Lemma in_columns_remove_cols (cs : list string) (r : row) (c : string) :
  In c (columns r) -> ~ In c cs -> In c (columns (remove_cols cs r)).
Proof.
  unfold columns, remove_cols. rewrite !in_map_iff.
  intros ([c' v] & <- & Hin) Hc. exists (c', v). split; [reflexivity|].
  apply filter_In. split; [assumption|]. cbn [fst].
  destruct (mem c' cs) eqn:Em; [|reflexivity].
  exfalso. apply Hc. unfold mem in Em. apply existsb_exists in Em
    as (y & Hy & Ey). apply String.eqb_eq in Ey. now subst.
Qed.

Lemma col_null_row (cs : list string) (c : string) :
  col (null_row cs) c = VNull.
Proof.
  induction cs as [|c' cs IH]; [reflexivity|]. cbn [null_row map col].
  now destruct (c' =? c)%string.
Qed.

Lemma columns_null_row (cs : list string) : columns (null_row cs) = cs.
Proof.
  unfold columns, null_row. rewrite map_map. cbn [fst]. apply map_id.
Qed.

(** The cell of a column after [l JOIN r USING (cs)]. *)
Lemma col_using_row_left (cs : list string) (l r : row) (c : string) :
  In c (columns l) -> col (using_row cs l r) c = col l c.
Proof.
  intro Hc. destruct (in_dec string_dec c cs) as [Hin|Hout].
  - now apply col_using_row.
  - unfold using_row.
    rewrite col_app_notin by (now rewrite columns_project).
    rewrite col_app_in by (now apply in_columns_remove_cols).
    now apply col_remove_cols.
Qed.

Lemma col_using_row_right (cs : list string) (l r : row) (c : string) :
  ~ In c cs -> ~ In c (columns l) -> col (using_row cs l r) c = col r c.
Proof.
  intros Hcs Hl. unfold using_row.
  rewrite col_app_notin by (now rewrite columns_project).
  rewrite col_app_notin
    by (intro H; now apply columns_remove_cols in H).
  now apply col_remove_cols.
Qed.

Lemma using_match_left_ext (cs : list string) (l l' r : row) :
  (forall c, In c cs -> col l c = col l' c) ->
  using_match cs l r = using_match cs l' r.
Proof.
  intro H. unfold using_match.
  induction cs as [|c cs IH]; [reflexivity|]. cbn [forallb].
  rewrite (H c) by now left. f_equal. apply IH.
  intros c' Hc'. apply H. now right.
Qed.

Definition left_join_row (cs rcols : list string) (R : list row) (l : row)
  : list row :=
  match filter (using_match cs l) R with
  | [] => [using_row cs l (null_row rcols)]
  | ms => map (using_row cs l) ms
  end.

Lemma left_join_using_rows (cs rcols : list string) (L R : list row) :
  left_join_using cs rcols L R = flat_map (left_join_row cs rcols R) L.
Proof. reflexivity. Qed.

Lemma left_join_row_length (cs rcols : list string) (R : list row) (l : row) :
  List.length (left_join_row cs rcols R l)
  = Nat.max 1 (List.length (filter (using_match cs l) R)).
Proof.
  unfold left_join_row.
  destruct (filter (using_match cs l) R) as [|m ms]; [reflexivity|].
  rewrite length_map. simpl. reflexivity.
Qed.

Lemma left_join_row_nonempty (cs rcols : list string) (R : list row)
  (l : row) : left_join_row cs rcols R l <> [].
Proof.
  unfold left_join_row.
  destruct (filter (using_match cs l) R); discriminate.
Qed.

End SqlFacts.

(* ================================================================== *)
(** ** Facts about sorting, partitions and ROW_NUMBER *)
(* ================================================================== *)

Module WindowFacts.
Import Sql ListFacts SqlFacts.

(** *** The stable sort *)

Section SortFacts.
Context {A : Type} (before : A -> A -> bool).
Hypothesis before_total : forall x y, before x y = true \/ before y x = true.
Hypothesis before_trans :
  forall x y z, before x y = true -> before y z = true -> before x z = true.

Lemma insert_sorted_In (x y : A) (l : list A) :
  In y (insert_sorted before x l) <-> y = x \/ In y l.
Proof.
  induction l as [|z l IH]; simpl.
  - intuition.
  - destruct (before x z); simpl; [intuition|]. rewrite IH. intuition.
Qed.

Lemma sort_by_In (y : A) (l : list A) : In y (sort_by before l) <-> In y l.
Proof.
  induction l as [|x l IH]; simpl; [tauto|].
  rewrite insert_sorted_In, IH. intuition.
Qed.

(** [h] sorts no later than any element of [l]. *)
Definition leads (h : A) (l : list A) : Prop :=
  forall x, In x l -> before h x = true.

Fixpoint ordered (l : list A) : Prop :=
  match l with
  | [] => True
  | h :: t => leads h t /\ ordered t
  end.

Lemma insert_sorted_ordered (x : A) (l : list A) :
  ordered l -> ordered (insert_sorted before x l).
Proof.
  induction l as [|z l IH]; simpl.
  - intros _. split; [intros ? []|exact I].
  - intros [Hz Hl]. destruct (before x z) eqn:E; simpl.
    + split; [|now split]. intros y [<-|Hy]; [assumption|].
      apply before_trans with z; auto.
    + split; [|auto]. intros y Hy. apply insert_sorted_In in Hy as [->|Hy].
      * destruct (before_total x z) as [H|H]; [congruence | assumption].
      * auto.
Qed.

Lemma sort_by_ordered (l : list A) : ordered (sort_by before l).
Proof.
  induction l as [|x l IH]; simpl; [exact I|].
  now apply insert_sorted_ordered.
Qed.

Lemma sort_by_head (l : list A) (h : A) (t : list A) :
  sort_by before l = h :: t -> In h l /\ leads h l.
Proof.
  intro E. split.
  - apply sort_by_In. rewrite E. now left.
  - intros x Hx. apply sort_by_In in Hx. rewrite E in Hx.
    pose proof (sort_by_ordered l) as Ho. rewrite E in Ho.
    destruct Ho as [Hh _]. destruct Hx as [<-|Hx]; [|auto].
    destruct (before_total h h); assumption.
Qed.

End SortFacts.

Lemma sort_by_nil {A : Type} (before : A -> A -> bool) (l : list A) :
  sort_by before l = [] -> l = [].
Proof.
  destruct l as [|x l]; [reflexivity|]. simpl.
  destruct (sort_by before l) as [|y s]; simpl; [discriminate|].
  destruct (before x y); discriminate.
Qed.

(** *** The descending order *)

Lemma desc_cmp_antisym (a b : value) : desc_cmp b a = CompOpp (desc_cmp a b).
Proof.
  destruct a as [|x|s], b as [|y|t]; simpl; try reflexivity.
  apply Z.compare_antisym.
Qed.

Lemma desc_cmp_eq_l (a b c : value) :
  desc_cmp a b = Eq -> desc_cmp a c = desc_cmp b c.
Proof.
  destruct a as [|x|s], b as [|y|t], c as [|z|u]; simpl;
    try reflexivity; try discriminate.
  intro H. apply Z.compare_eq in H. now subst.
Qed.

Lemma desc_cmp_eq_r (a b c : value) :
  desc_cmp b c = Eq -> desc_cmp a b = desc_cmp a c.
Proof.
  destruct a as [|x|s], b as [|y|t], c as [|z|u]; simpl;
    try reflexivity; try discriminate.
  intro H. apply Z.compare_eq in H. now subst.
Qed.

Lemma desc_cmp_lt_trans (a b c : value) :
  desc_cmp a b = Lt -> desc_cmp b c = Lt -> desc_cmp a c = Lt.
Proof.
  destruct a as [|x|s], b as [|y|t], c as [|z|u]; simpl;
    try reflexivity; try discriminate.
  rewrite !Z.compare_lt_iff. lia.
Qed.

Lemma desc_cmp_list_antisym (a b : list value) :
  desc_cmp_list b a = CompOpp (desc_cmp_list a b).
Proof.
  revert b. induction a as [|x a IH]; intros [|y b]; simpl; try reflexivity.
  rewrite (desc_cmp_antisym x y).
  destruct (desc_cmp x y); simpl; auto.
Qed.

Lemma desc_cmp_list_trans (a b c : list value) :
  List.length a = List.length b -> List.length b = List.length c ->
  desc_cmp_list a b <> Gt -> desc_cmp_list b c <> Gt ->
  desc_cmp_list a c <> Gt.
Proof.
  revert b c. induction a as [|x a IH]; intros [|y b] [|z c]; simpl;
    try discriminate; try congruence.
  intros Hab Hbc. injection Hab as Hab. injection Hbc as Hbc.
  destruct (desc_cmp x y) eqn:Exy.
  - rewrite (desc_cmp_eq_l _ _ z Exy).
    destruct (desc_cmp y z); [eauto | discriminate | congruence].
  - destruct (desc_cmp y z) eqn:Eyz.
    + rewrite <- (desc_cmp_eq_r x _ _ Eyz), Exy. discriminate.
    + rewrite (desc_cmp_lt_trans _ _ _ Exy Eyz). discriminate.
    + congruence.
  - congruence.
Qed.

Lemma order_desc_total (keys : list string) (r1 r2 : row) :
  order_desc keys r1 r2 = true \/ order_desc keys r2 r1 = true.
Proof.
  unfold order_desc.
  rewrite (desc_cmp_list_antisym (map (col r1) keys) (map (col r2) keys)).
  destruct (desc_cmp_list (map (col r1) keys) (map (col r2) keys));
    simpl; auto.
Qed.

Lemma order_desc_trans (keys : list string) (r1 r2 r3 : row) :
  order_desc keys r1 r2 = true -> order_desc keys r2 r3 = true ->
  order_desc keys r1 r3 = true.
Proof.
  unfold order_desc. intros H12 H23.
  pose proof (desc_cmp_list_trans (map (col r1) keys) (map (col r2) keys)
                (map (col r3) keys)) as H.
  rewrite !length_map in H. specialize (H eq_refl eq_refl).
  destruct (desc_cmp_list (map (col r1) keys) (map (col r3) keys));
    try reflexivity.
  exfalso. apply H; [| |reflexivity].
  - destruct (desc_cmp_list (map (col r1) keys) (map (col r2) keys));
      congruence.
  - destruct (desc_cmp_list (map (col r2) keys) (map (col r3) keys));
      congruence.
Qed.

Lemma order_desc_head (k : string) (ks : list string) (a b : row)
  (ta tb : Z) :
  col a k = VInt ta -> col b k = VInt tb ->
  order_desc (k :: ks) a b = true -> tb <= ta.
Proof.
  intros Ha Hb. unfold order_desc. cbn [map desc_cmp_list].
  rewrite Ha, Hb. cbn [desc_cmp].
  destruct (Z.compare_spec tb ta); intro; try lia; discriminate.
Qed.

Lemma order_desc_event (a b : row) (ta tb : Z) :
  col a "event_timestamp" = VInt ta -> col b "event_timestamp" = VInt tb ->
  (order_desc ["event_timestamp"] a b = true <-> tb <= ta).
Proof.
  intros Ha Hb. unfold order_desc. cbn [map desc_cmp_list].
  rewrite Ha, Hb. cbn [desc_cmp].
  destruct (Z.compare_spec tb ta); split; intro; try lia; try reflexivity;
    discriminate.
Qed.

Lemma order_desc_event_created (a b : row) (ta ca tb cb : Z) :
  col a "event_timestamp" = VInt ta -> col a "created_timestamp" = VInt ca ->
  col b "event_timestamp" = VInt tb -> col b "created_timestamp" = VInt cb ->
  (order_desc ["event_timestamp"; "created_timestamp"] a b = true <->
   tb < ta \/ (tb = ta /\ cb <= ca)).
Proof.
  intros Ha Hca Hb Hcb. unfold order_desc. cbn [map desc_cmp_list].
  rewrite Ha, Hb, Hca, Hcb. cbn [desc_cmp].
  destruct (Z.compare_spec tb ta); destruct (Z.compare_spec cb ca);
    split; intro; try lia; try reflexivity; discriminate.
Qed.

(** *** Partitions and their first rows *)

Lemma in_group_true (key : row -> list value) (k : list value) (r : row) :
  in_group key k r = true <-> key r = k.
Proof.
  unfold in_group. destruct (values_eq_dec (key r) k); split;
    congruence.
Qed.

Definition numbered_one (alias : string) (r : row) : bool :=
  holds (sql_eq (col r alias) (VInt 1)).

Lemma col_numbered (alias : string) (n : Z) (r : row) :
  ~ In alias (columns r) -> col (r ++ [(alias, VInt n)]) alias = VInt n.
Proof.
  intro H. rewrite col_app_notin by assumption. simpl.
  now rewrite String.eqb_refl.
Qed.

Lemma filter_number_rows_later (alias : string) (n : Z) (p : list row) :
  1 < n -> Forall (fun r => ~ In alias (columns r)) p ->
  filter (numbered_one alias) (number_rows alias n p) = [].
Proof.
  revert n. induction p as [|r p IH]; intros n Hn Hp; simpl; [reflexivity|].
  inversion Hp as [|? ? Hr Hp']; subst.
  unfold numbered_one at 1. rewrite col_numbered by assumption.
  simpl. destruct (Z.eqb_spec n 1); [lia|]. apply IH; [lia | assumption].
Qed.

(** [WHERE alias = 1] keeps the first row of a numbered partition. *)
Lemma filter_number_rows_first (alias : string) (p : list row) :
  Forall (fun r => ~ In alias (columns r)) p ->
  filter (numbered_one alias) (number_rows alias 1 p)
  = match p with
    | [] => []
    | r :: _ => [r ++ [(alias, VInt 1)]]
    end.
Proof.
  destruct p as [|r p]; intro Hp; simpl; [reflexivity|].
  inversion Hp as [|? ? Hr Hp']; subst.
  unfold numbered_one at 1. rewrite col_numbered by assumption. simpl.
  f_equal. apply filter_number_rows_later; [lia | assumption].
Qed.

(** The first row of every partition. *)
Definition firsts (part keys : list string) (T : list row) : list row :=
  flat_map (fun p => match p with [] => [] | r :: _ => [r] end)
    (partitions part keys T).

Lemma partitions_In (part keys : list string) (T : list row) (p : list row)
  (r : row) :
  In p (partitions part keys T) -> In r p -> In r T.
Proof.
  unfold partitions. rewrite in_map_iff. intros (k & <- & _) Hr.
  apply sort_by_In in Hr. now apply filter_In in Hr.
Qed.

Lemma rank_one_heads (alias : string) (P : list (list row)) :
  Forall (Forall (fun r => ~ In alias (columns r))) P ->
  flat_map (fun p => filter (numbered_one alias) (number_rows alias 1 p)) P
  = map (fun r => r ++ [(alias, VInt 1)])
      (flat_map (fun p => match p with [] => [] | r :: _ => [r] end) P).
Proof.
  induction 1 as [|p P Hp HP IH]; [reflexivity|].
  cbn [flat_map]. rewrite map_app, IH. f_equal.
  rewrite filter_number_rows_first by assumption. now destruct p.
Qed.

Lemma rank_one_firsts (alias : string) (part keys : list string)
  (T : list row) :
  Forall (fun r => ~ In alias (columns r)) T ->
  filter (numbered_one alias) (row_number alias part keys T)
  = map (fun r => r ++ [(alias, VInt 1)]) (firsts part keys T).
Proof.
  intro HT. unfold row_number, firsts. rewrite filter_flat_map.
  apply rank_one_heads. apply Forall_forall. intros p Hp.
  apply Forall_forall. intros r Hr. rewrite Forall_forall in HT.
  apply HT. now apply (partitions_In part keys T p).
Qed.

Lemma firsts_sound (part keys : list string) (T : list row) (h : row) :
  In h (firsts part keys T) ->
  In h T /\
  forall x, In x T -> map (col x) part = map (col h) part ->
            order_desc keys h x = true.
Proof.
  unfold firsts, partitions. rewrite in_flat_map.
  intros (p & Hp & Hh). apply in_map_iff in Hp as (k & <- & Hk).
  destruct (sort_by (order_desc keys)
              (filter (in_group (fun r => map (col r) part) k) T))
    as [|h' t] eqn:E; [destruct Hh|].
  destruct Hh as [<-|[]].
  apply (sort_by_head _ (order_desc_total keys) (order_desc_trans keys))
    in E as [Hin Hlead].
  apply filter_In in Hin as [Hin Hkey]. apply in_group_true in Hkey.
  split; [assumption|]. intros x Hx Hxk. apply Hlead.
  apply filter_In. split; [assumption|]. apply in_group_true. congruence.
Qed.

Lemma firsts_complete (part keys : list string) (T : list row) (x : row) :
  In x T ->
  exists h, In h (firsts part keys T) /\
            map (col h) part = map (col x) part.
Proof.
  intro Hx. unfold firsts, partitions.
  set (k := map (col x) part).
  destruct (sort_by (order_desc keys)
              (filter (in_group (fun r => map (col r) part) k) T))
    as [|h t] eqn:E.
  - apply sort_by_nil in E. exfalso.
    assert (Hin : In x (filter (in_group (fun r => map (col r) part) k) T)).
    { apply filter_In. split; [assumption|]. now apply in_group_true. }
    rewrite E in Hin. destruct Hin.
  - exists h. split.
    + apply in_flat_map. exists (h :: t). split; [|now left].
      apply in_map_iff. exists k. split; [assumption|].
      unfold group_keys. apply nodup_In.
      now apply (in_map (fun r => map (col r) part)).
    + assert (Hh : In h (sort_by (order_desc keys)
                (filter (in_group (fun r => map (col r) part) k) T)))
        by (rewrite E; now left).
      apply sort_by_In, filter_In in Hh as [_ Hh].
      now apply in_group_true in Hh.
Qed.

(** One first row per partition. *)
Lemma firsts_keys_NoDup (part keys : list string) (T : list row) :
  NoDup (map (fun h => map (col h) part) (firsts part keys T)).
Proof.
  unfold firsts, partitions, group_keys.
  assert (Hnd : NoDup (nodup values_eq_dec (map (fun r => map (col r) part) T)))
    by apply NoDup_nodup.
  induction (nodup values_eq_dec (map (fun r => map (col r) part) T))
    as [|k ks IH]; simpl; [constructor|].
  inversion Hnd as [|? ? Hk Hks]; subst. specialize (IH Hks).
  destruct (sort_by (order_desc keys)
              (filter (in_group (fun r => map (col r) part) k) T))
    as [|h t] eqn:E; simpl; [assumption|].
  constructor; [|assumption].
  assert (Hh : In h (sort_by (order_desc keys)
              (filter (in_group (fun r => map (col r) part) k) T)))
    by (rewrite E; now left).
  apply sort_by_In, filter_In in Hh as [_ Hh]. apply in_group_true in Hh.
  rewrite Hh. intro Hin. apply Hk.
  apply in_map_iff in Hin as (h' & Hh' & Hin).
  apply in_flat_map in Hin as (p & Hp & Hin).
  apply in_map_iff in Hp as (k' & <- & Hk').
  destruct (sort_by (order_desc keys)
              (filter (in_group (fun r => map (col r) part) k') T))
    as [|h'' t''] eqn:E'; [destruct Hin|].
  destruct Hin as [->|[]].
  assert (Hh2 : In h' (sort_by (order_desc keys)
              (filter (in_group (fun r => map (col r) part) k') T)))
    by (rewrite E'; now left).
  apply sort_by_In, filter_In in Hh2 as [_ Hh2]. apply in_group_true in Hh2.
  congruence.
Qed.

End WindowFacts.

(* ================================================================== *)
(** ** The window and the join of one feature view *)
(* ================================================================== *)

Module JoinFacts.
Import Sql ListFacts SqlFacts Template.

(** The [ON] of [<name>__base], read as a proposition. *)
Lemma base_on_spec (fv : FeatureViewQueryContext) (s e : row) :
  holds (base_on fv s e) = true <->
  (forall k, In k (entities fv) -> col s k = col e k /\ col s k <> VNull) /\
  exists t te,
    col s "event_timestamp" = VInt t /\
    col e "entity_timestamp" = VInt te /\
    t <= te /\ (ttl fv = 0 \/ te - interval_second (ttl fv) <= t).
Proof.
  unfold base_on. rewrite holds_fold_and, andb_true_iff, forallb_forall.
  assert (Hkeys :
    (forall k, In k (entities fv) ->
       holds (sql_eq (col s k) (col e k)) = true) <->
    (forall k, In k (entities fv) -> col s k = col e k /\ col s k <> VNull)).
  { split; intros H k Hk; apply holds_sql_eq; auto. }
  rewrite Hkeys. clear Hkeys.
  enough (Hwin :
    holds (if ttl fv =? 0
           then sql_and (Some true)
                  (sql_le (col s "event_timestamp") (col e "entity_timestamp"))
           else sql_and
                  (sql_and (Some true)
                     (sql_le (col s "event_timestamp")
                        (col e "entity_timestamp")))
                  (sql_ge (col s "event_timestamp")
                     (sql_minus_interval (col e "entity_timestamp") (ttl fv))))
    = true <->
    exists t te,
      col s "event_timestamp" = VInt t /\
      col e "entity_timestamp" = VInt te /\
      t <= te /\ (ttl fv = 0 \/ te - interval_second (ttl fv) <= t)).
  { rewrite Hwin. tauto. }
  destruct (Z.eqb_spec (ttl fv) 0) as [Httl|Httl].
  - rewrite holds_sql_and. cbn [holds andb]. rewrite holds_sql_le. split.
    + intros (t & te & Ht & Hte & Hle). exists t, te. auto.
    + intros (t & te & Ht & Hte & Hle & _). now exists t, te.
  - rewrite !holds_sql_and. cbn [holds andb]. rewrite andb_true_iff.
    unfold sql_ge. rewrite !holds_sql_le. split.
    + intros [(t & te & Ht & Hte & Hle) (x & y & Hx & Hy & Hxy)].
      exists t, te. repeat split; auto. right.
      rewrite Hte in Hx. simpl in Hx. injection Hx as <-.
      rewrite Ht in Hy. now injection Hy as <-.
    + intros (t & te & Ht & Hte & Hle & [Hz|Hlo]); [contradiction|].
      repeat split; [now exists t, te|].
      exists (te - interval_second (ttl fv)), t. rewrite Hte. auto.
Qed.

Section Query.

Variable db : string -> list row.
Variable featureviews : list FeatureViewQueryContext.
Variable left_table_query_string : string.
Variable entity_df_event_timestamp_col : string.
Variable full_feature_names : bool.

Local Abbreviation requests :=
  (entity_dataframe db featureviews left_table_query_string
     entity_df_event_timestamp_col).
Local Abbreviation requests_of :=
  (fv_entity_dataframe db featureviews left_table_query_string
     entity_df_event_timestamp_col).
Local Abbreviation select := (subquery_select full_feature_names).
Local Abbreviation windowed :=
  (subquery db featureviews left_table_query_string
     entity_df_event_timestamp_col full_feature_names).
Local Abbreviation pairs :=
  (base_pairs db featureviews left_table_query_string
     entity_df_event_timestamp_col full_feature_names).

(** The greatest and the least entity timestamp of the request rows. *)
Definition greatest_entity_timestamp (hi : Z) : Prop :=
  (exists e, In e requests /\ col e "entity_timestamp" = VInt hi) /\
  forall e x, In e requests -> col e "entity_timestamp" = VInt x -> x <= hi.

Definition least_entity_timestamp (lo : Z) : Prop :=
  (exists e, In e requests /\ col e "entity_timestamp" = VInt lo) /\
  forall e x, In e requests -> col e "entity_timestamp" = VInt x -> lo <= x.

Lemma max_entity_timestamp_spec (hi : Z) :
  max_entity_timestamp db featureviews left_table_query_string
    entity_df_event_timestamp_col = VInt hi
  <-> greatest_entity_timestamp hi.
Proof.
  unfold max_entity_timestamp, greatest_entity_timestamp.
  rewrite sql_max_spec. split; intros [H1 H2]; split.
  - apply in_map_iff in H1 as (e & He & Hin). now exists e.
  - intros e x Hin He. apply H2. rewrite <- He.
    now apply (in_map (fun e => col e "entity_timestamp")).
  - destruct H1 as (e & Hin & He). rewrite <- He.
    now apply (in_map (fun e => col e "entity_timestamp")).
  - intros x Hx. apply in_map_iff in Hx as (e & He & Hin). eauto.
Qed.

Lemma min_entity_timestamp_spec (lo : Z) :
  min_entity_timestamp db featureviews left_table_query_string
    entity_df_event_timestamp_col = VInt lo
  <-> least_entity_timestamp lo.
Proof.
  unfold min_entity_timestamp, least_entity_timestamp.
  rewrite sql_min_spec. split; intros [H1 H2]; split.
  - apply in_map_iff in H1 as (e & He & Hin). now exists e.
  - intros e x Hin He. apply H2. rewrite <- He.
    now apply (in_map (fun e => col e "entity_timestamp")).
  - destruct H1 as (e & Hin & He). rewrite <- He.
    now apply (in_map (fun e => col e "entity_timestamp")).
  - intros x Hx. apply in_map_iff in Hx as (e & He & Hin). eauto.
Qed.

(** The window of [<name>__subquery], read off its [WHERE]. *)
Definition in_window (fv : FeatureViewQueryContext) (t : Z) : Prop :=
  (exists hi, greatest_entity_timestamp hi /\ t <= hi) /\
  (ttl fv = 0 \/
   exists lo, least_entity_timestamp lo /\ lo - interval_second (ttl fv) <= t).

Lemma subquery_where_window (fv : FeatureViewQueryContext) (r : row) :
  holds (subquery_where db featureviews left_table_query_string
           entity_df_event_timestamp_col fv r) = true
  <-> exists t, col r (event_timestamp_column fv) = VInt t /\ in_window fv t.
Proof.
  unfold subquery_where, in_window.
  assert (Hup : forall a,
    holds (sql_le a (max_entity_timestamp db featureviews
                       left_table_query_string entity_df_event_timestamp_col))
    = true <->
    exists t, a = VInt t /\ exists hi, greatest_entity_timestamp hi /\ t <= hi).
  { intro a. rewrite holds_sql_le. split.
    - intros (x & y & -> & Hy & Hxy). exists x. split; [reflexivity|].
      exists y. now rewrite <- max_entity_timestamp_spec.
    - intros (t & -> & hi & Hhi & Hle). exists t, hi.
      now rewrite max_entity_timestamp_spec. }
  destruct (Z.eqb_spec (ttl fv) 0) as [Httl|Httl].
  - rewrite Hup. split.
    + intros (t & Ht & Hhi). exists t. auto.
    + intros (t & Ht & Hhi & _). now exists t.
  - rewrite holds_sql_and, andb_true_iff, Hup. unfold sql_ge.
    rewrite holds_sql_le. split.
    + intros [(t & Ht & Hhi) (x & y & Hx & Hy & Hxy)].
      exists t. repeat split; auto. right.
      destruct (min_entity_timestamp db featureviews left_table_query_string
                  entity_df_event_timestamp_col) as [|lo|s] eqn:E;
        try discriminate.
      exists lo. rewrite <- min_entity_timestamp_spec. split; [assumption|].
      simpl in Hx. injection Hx as <-. rewrite Ht in Hy. now injection Hy as <-.
    + intros (t & Ht & Hhi & [Hz|(lo & Hlo & Hle)]); [contradiction|].
      split; [now exists t|].
      apply min_entity_timestamp_spec in Hlo. rewrite Hlo. simpl.
      now exists (lo - interval_second (ttl fv)), t.
Qed.

(** C2. Before the join, the source rows of a feature view are kept
    exactly when their event timestamp lies between the least entity
    timestamp of all request rows minus the ttl (in seconds) and the
    greatest entity timestamp of all request rows; with a ttl of 0 there
    is no lower bound. *)
Theorem subquery_prefilter_window (fv : FeatureViewQueryContext) (s : row) :
  In s (windowed fv) <->
  exists r t,
    In r (db (table_subquery fv)) /\ s = select fv r /\
    col r (event_timestamp_column fv) = VInt t /\
    (exists hi, greatest_entity_timestamp hi /\ t <= hi) /\
    (ttl fv = 0 \/
     exists lo, least_entity_timestamp lo /\
                lo - interval_second (ttl fv) <= t).
Proof.
  unfold subquery. rewrite in_map_iff. split.
  - intros (r & Hs & Hr). apply filter_In in Hr as [Hr Hw].
    apply subquery_where_window in Hw as (t & Ht & Hw1 & Hw2).
    exists r, t. auto.
  - intros (r & t & Hr & Hs & Ht & Hw1 & Hw2). exists r. split; [auto|].
    apply filter_In. split; [assumption|].
    apply subquery_where_window. exists t. split; [assumption|].
    now split.
Qed.

Lemma some_entity_timestamp (fv : FeatureViewQueryContext) (e : row) :
  In e (requests_of fv) ->
  exists e', In e' requests /\
             col e' "entity_timestamp" = col e "entity_timestamp".
Proof.
  unfold fv_entity_dataframe. rewrite nodup_In, in_map_iff.
  intros (e' & <- & Hin). exists e'. split; [assumption|].
  symmetry. apply col_project. unfold fv_entity_columns.
  apply in_or_app. right. now left.
Qed.

(** C1. A source row of a feature view and a grouped request row are
    joined exactly when they agree on every join key of the view, the
    event timestamp is at most the entity timestamp, and the ttl is 0 or
    the event timestamp is at least the entity timestamp minus the ttl in
    seconds.  With a ttl of 0 nothing bounds the event timestamp from
    below; the coarse window of the subquery never removes such a pair. *)
Theorem base_join_condition (fv : FeatureViewQueryContext) (r e : row) :
  In r (db (table_subquery fv)) ->
  In e (requests_of fv) ->
  (In (select fv r, e) (pairs fv) <->
   (forall k, In k (entities fv) ->
      col (select fv r) k = col e k /\ col (select fv r) k <> VNull) /\
   exists t te,
     col r (event_timestamp_column fv) = VInt t /\
     col e "entity_timestamp" = VInt te /\
     t <= te /\ (ttl fv = 0 \/ te - interval_second (ttl fv) <= t)).
Proof.
  intros Hr He. unfold base_pairs. rewrite filter_In. simpl fst. simpl snd.
  rewrite base_on_spec.
  replace (col (select fv r) "event_timestamp")
    with (col r (event_timestamp_column fv)) by reflexivity.
  split; [tauto|]. intros [Hk (t & te & Ht & Hte & Hle & Hlo)].
  split; [|split; [assumption | now exists t, te]].
  apply in_prod; [|assumption].
  unfold subquery. apply in_map. apply filter_In. split; [assumption|].
  apply subquery_where_window. exists t. split; [assumption|].
  destruct (some_entity_timestamp fv e He) as (e' & Hin & He').
  rewrite Hte in He'.
  assert (Hv : In (VInt te)
                 (map (fun e => col e "entity_timestamp") requests)).
  { rewrite <- He'. now apply (in_map (fun e => col e "entity_timestamp")). }
  split.
  - destruct (sql_max_bounds _ _ Hv) as (hi & Hhi & Hge).
    exists hi. split; [now apply max_entity_timestamp_spec | lia].
  - destruct Hlo as [Hz|Hlo]; [now left | right].
    destruct (sql_min_bounds _ _ Hv) as (lo & Hlo' & Hge).
    exists lo. split; [now apply min_entity_timestamp_spec | lia].
Qed.

End Query.
End JoinFacts.

(* ================================================================== *)
(** ** Deduplication, ranking and the re-join *)
(* ================================================================== *)

Module LatestFacts.
Import Sql ListFacts SqlFacts WindowFacts Template JoinFacts.

(** The unique-id column is longer than any fixed name of the template. *)
Lemma unique_id_column_length (fv : FeatureViewQueryContext) :
  (22 <= String.length (unique_id_column fv))%nat.
Proof. unfold unique_id_column. rewrite length_append. simpl. lia. Qed.

Lemma unique_id_column_fresh (fv : FeatureViewQueryContext) (c : string) :
  (String.length c < 22)%nat -> unique_id_column fv <> c.
Proof.
  intros Hc E. pose proof (unique_id_column_length fv) as H.
  rewrite E in H. lia.
Qed.

Lemma eqb_unique_id_column (fv : FeatureViewQueryContext) (c : string) :
  (String.length c < 22)%nat -> (unique_id_column fv =? c)%string = false.
Proof. intro H. now apply String.eqb_neq, unique_id_column_fresh. Qed.

Section Query.

Variable db : string -> list row.
Variable featureviews : list FeatureViewQueryContext.
Variable left_table_query_string : string.
Variable entity_df_event_timestamp_col : string.
Variable full_feature_names : bool.

Local Abbreviation base_of :=
  (base db featureviews left_table_query_string
     entity_df_event_timestamp_col full_feature_names).
Local Abbreviation dedup_of :=
  (dedup db featureviews left_table_query_string
     entity_df_event_timestamp_col full_feature_names).
Local Abbreviation source_of :=
  (latest_source db featureviews left_table_query_string
     entity_df_event_timestamp_col full_feature_names).
Local Abbreviation latest_of :=
  (latest db featureviews left_table_query_string
     entity_df_event_timestamp_col full_feature_names).
Local Abbreviation cleaned_of :=
  (cleaned db featureviews left_table_query_string
     entity_df_event_timestamp_col full_feature_names).

(** The columns of [<name>__subquery] and of [<name>__base]. *)
Definition subquery_columns (fv : FeatureViewQueryContext) : list string :=
  "event_timestamp"
  :: (if has_created fv then ["created_timestamp"] else [])
  ++ map snd (entity_selections fv)
  ++ feature_columns full_feature_names fv.

Definition base_columns (fv : FeatureViewQueryContext) : list string :=
  subquery_columns fv ++ ["entity_timestamp"; unique_id_column fv].

Lemma columns_subquery_select (fv : FeatureViewQueryContext) (r : row) :
  columns (subquery_select full_feature_names fv r) = subquery_columns fv.
Proof.
  unfold columns, subquery_select, subquery_columns, feature_columns.
  cbn [map]. f_equal. rewrite !map_app, !map_map. cbn [fst].
  f_equal. now destruct (has_created fv).
Qed.

Lemma base_row_shape (fv : FeatureViewQueryContext) (b : row) :
  In b (base_of fv) ->
  exists r e t,
    b = subquery_select full_feature_names fv r
        ++ [("entity_timestamp", col e "entity_timestamp");
            (unique_id_column fv, col e (unique_id_column fv))] /\
    col b "event_timestamp" = VInt t.
Proof.
  unfold base. rewrite in_map_iff. intros ([s e] & <- & Hp).
  unfold base_pairs in Hp. apply filter_In in Hp as [Hp Hon].
  apply in_prod_iff in Hp as [Hs He]. cbn [fst snd] in Hon.
  apply base_on_spec in Hon
    as (_ & t & te & Ht & _).
  unfold subquery in Hs. apply in_map_iff in Hs as (r & <- & Hr).
  exists r, e, t. split; [reflexivity|]. exact Ht.
Qed.

Lemma base_row_columns (fv : FeatureViewQueryContext) (b : row) :
  In b (base_of fv) -> columns b = base_columns fv.
Proof.
  intro Hb. apply base_row_shape in Hb as (r & e & t & -> & _).
  unfold columns at 1. rewrite map_app.
  fold (columns (subquery_select full_feature_names fv r)).
  now rewrite columns_subquery_select.
Qed.

Lemma base_event_timestamp (fv : FeatureViewQueryContext) (b : row) :
  In b (base_of fv) -> exists t, col b "event_timestamp" = VInt t.
Proof.
  intro Hb. apply base_row_shape in Hb as (r & e & t & _ & Ht). eauto.
Qed.

(** *** Deduplication on the created timestamp *)

Definition latest_created (fv : FeatureViewQueryContext) (u t : value)
  : value :=
  sql_max (map (fun b => col b "created_timestamp")
             (filter (in_group (fun b => map (col b) (dedup_keys fv)) [u; t])
                (base_of fv))).

Definition dedup_row (fv : FeatureViewQueryContext) (u t : value) : row :=
  [(unique_id_column fv, u); ("event_timestamp", t);
   ("created_timestamp", latest_created fv u t)].

Lemma dedup_In (fv : FeatureViewQueryContext) (d : row) :
  In d (dedup_of fv) <->
  exists b, In b (base_of fv) /\
            d = dedup_row fv (col b (unique_id_column fv))
                  (col b "event_timestamp").
Proof.
  unfold dedup, group_keys. rewrite in_map_iff. split.
  - intros (k & <- & Hk). apply nodup_In, in_map_iff in Hk as (b & <- & Hb).
    now exists b.
  - intros (b & Hb & ->).
    exists [col b (unique_id_column fv); col b "event_timestamp"].
    split; [reflexivity|]. apply nodup_In.
    now apply (in_map (fun b => map (col b) (dedup_keys fv))).
Qed.

Lemma col_dedup_row (fv : FeatureViewQueryContext) (u t : value) :
  col (dedup_row fv u t) (unique_id_column fv) = u /\
  col (dedup_row fv u t) "event_timestamp" = t /\
  col (dedup_row fv u t) "created_timestamp" = latest_created fv u t.
Proof.
  unfold dedup_row. cbn [col].
  rewrite String.eqb_refl, !eqb_unique_id_column by (simpl; lia).
  repeat split.
Qed.

Lemma latest_created_spec (fv : FeatureViewQueryContext) (u t : value)
  (m : Z) :
  latest_created fv u t = VInt m <->
  (exists b, In b (base_of fv) /\ col b (unique_id_column fv) = u /\
             col b "event_timestamp" = t /\
             col b "created_timestamp" = VInt m) /\
  forall b c, In b (base_of fv) -> col b (unique_id_column fv) = u ->
              col b "event_timestamp" = t ->
              col b "created_timestamp" = VInt c -> c <= m.
Proof.
  unfold latest_created. rewrite sql_max_spec.
  assert (Hgroup : forall b,
    In b (filter (in_group (fun b => map (col b) (dedup_keys fv)) [u; t])
            (base_of fv)) <->
    In b (base_of fv) /\ col b (unique_id_column fv) = u /\
    col b "event_timestamp" = t).
  { intro b. rewrite filter_In, in_group_true. cbn [dedup_keys map].
    split; intros [Hb H]; (split; [assumption|]).
    - now injection H.
    - destruct H as [-> ->]. reflexivity. }
  split; intros [H1 H2]; split.
  - apply in_map_iff in H1 as (b & Hc & Hb). apply Hgroup in Hb.
    exists b. tauto.
  - intros b c Hb Hu Ht Hc. apply H2. rewrite <- Hc.
    apply (in_map (fun b => col b "created_timestamp")).
    apply Hgroup. auto.
  - destruct H1 as (b & Hb & Hu & Ht & Hc). rewrite <- Hc.
    apply (in_map (fun b => col b "created_timestamp")).
    apply Hgroup. auto.
  - intros c Hc. apply in_map_iff in Hc as (b & Hc & Hb).
    apply Hgroup in Hb as (Hb & Hu & Ht). eauto.
Qed.

Definition dedup_using (fv : FeatureViewQueryContext) : list string :=
  [unique_id_column fv; "event_timestamp"; "created_timestamp"].

Definition joined_row (fv : FeatureViewQueryContext) (b : row) : row :=
  using_row (dedup_using fv) b
    (dedup_row fv (col b (unique_id_column fv)) (col b "event_timestamp")).

Lemma col_joined_row (fv : FeatureViewQueryContext) (b : row) (c : string) :
  In c (dedup_using fv) -> col (joined_row fv b) c = col b c.
Proof. apply col_using_row. Qed.

(** The rows of [base JOIN dedup USING (...)]: the base rows that carry
    the latest created timestamp of their (unique id, event timestamp). *)
Lemma join_dedup_In (fv : FeatureViewQueryContext) (x : row) :
  In x (join_using (dedup_using fv) (base_of fv) (dedup_of fv)) <->
  exists b,
    In b (base_of fv) /\
    x = joined_row fv b /\
    col b (unique_id_column fv) <> VNull /\
    col b "created_timestamp"
    = latest_created fv (col b (unique_id_column fv))
        (col b "event_timestamp") /\
    col b "created_timestamp" <> VNull.
Proof.
  rewrite join_using_In. split.
  - intros (b & d & Hb & Hd & Hm & ->).
    apply dedup_In in Hd as (b' & Hb' & ->).
    rewrite using_match_spec in Hm.
    destruct (col_dedup_row fv (col b' (unique_id_column fv))
                (col b' "event_timestamp")) as (Eu & Et & Ec).
    destruct (Hm (unique_id_column fv)) as [Hu Hun]; [now left|].
    destruct (Hm "event_timestamp") as [Ht Htn]; [right; now left|].
    destruct (Hm "created_timestamp") as [Hc Hcn]; [right; right; now left|].
    rewrite Eu in Hu. rewrite Et in Ht. rewrite Ec in Hc.
    exists b. unfold joined_row. rewrite Hu, Ht. rewrite Hu in Hun.
    repeat split; auto.
  - intros (b & Hb & -> & Hun & Hc & Hcn).
    exists b, (dedup_row fv (col b (unique_id_column fv))
                 (col b "event_timestamp")).
    unfold joined_row. repeat split; auto.
    + apply dedup_In. now exists b.
    + apply using_match_spec.
      destruct (col_dedup_row fv (col b (unique_id_column fv))
                  (col b "event_timestamp")) as (Eu & Et & Ec).
      destruct (base_event_timestamp fv b Hb) as (t & Ht).
      intros c [<-|[<-|[<-|[]]]].
      * now rewrite Eu.
      * rewrite Et. split; [reflexivity|]. rewrite Ht. discriminate.
      * rewrite Ec. now split.
Qed.

(** *** The first row per unique id *)

(** No column the caller names is called [row_number]. *)
Definition row_number_free (fv : FeatureViewQueryContext) : Prop :=
  ~ In "row_number"
      (map snd (entity_selections fv) ++ feature_columns full_feature_names fv).

Lemma row_number_not_base_column (fv : FeatureViewQueryContext) :
  row_number_free fv -> ~ In "row_number" (base_columns fv).
Proof.
  unfold row_number_free, base_columns, subquery_columns. intros H Hin.
  cbn [In app] in Hin. destruct Hin as [Hin|Hin]; [discriminate|].
  rewrite !in_app_iff in Hin. rewrite in_app_iff in H.
  destruct Hin as [[Hin|Hin]|Hin].
  - destruct (has_created fv); [destruct Hin as [?|[]]; discriminate
                                | destruct Hin].
  - tauto.
  - destruct Hin as [Hin|[Hin|[]]]; [discriminate|].
    now apply unique_id_column_fresh in Hin; [|simpl; lia].
Qed.

Lemma source_row_columns (fv : FeatureViewQueryContext) (x : row) :
  row_number_free fv -> In x (source_of fv) ->
  ~ In "row_number" (columns x) /\
  forall c, In c (timestamp_keys fv ++ [unique_id_column fv]) ->
            In c (columns x).
Proof.
  intros Hfree. apply row_number_not_base_column in Hfree.
  unfold latest_source, timestamp_keys.
  destruct (has_created fv) eqn:Hc.
  - fold (dedup_using fv). rewrite join_dedup_In.
    intros (b & Hb & -> & _). split.
    + intro Hin. unfold joined_row in Hin.
      apply columns_using_row in Hin as [Hin|[Hin|Hin]].
      * destruct Hin as [Hin|[Hin|[Hin|[]]]]; try discriminate.
        now apply unique_id_column_fresh in Hin; [|simpl; lia].
      * now rewrite (base_row_columns fv b Hb) in Hin.
      * destruct Hin as [Hin|[Hin|[Hin|[]]]]; try discriminate.
        now apply unique_id_column_fresh in Hin; [|simpl; lia].
    + intros c Hin. unfold joined_row, using_row, columns. rewrite map_app.
      apply in_or_app. left. fold (columns (project (dedup_using fv) b)).
      rewrite columns_project. unfold dedup_using.
      destruct Hin as [<-|[<-|[<-|[]]]]; simpl; auto.
  - intro Hb. rewrite (base_row_columns fv x Hb). split; [assumption|].
    unfold base_columns, subquery_columns. intros c [<-|[<-|[]]].
    + now left.
    + apply in_or_app. right. right. now left.
Qed.

(** [<name>__latest] holds the key columns of the first row of every
    unique id. *)
Lemma latest_firsts (fv : FeatureViewQueryContext) :
  row_number_free fv ->
  latest_of fv
  = map (project (timestamp_keys fv ++ [unique_id_column fv]))
      (firsts [unique_id_column fv] (timestamp_keys fv) (source_of fv)).
Proof.
  intro Hfree. unfold latest.
  change (fun r : row => holds (sql_eq (col r "row_number") (VInt 1)))
    with (numbered_one "row_number").
  rewrite rank_one_firsts.
  - rewrite map_map. apply map_ext_in. intros h Hh.
    apply project_numbered. apply firsts_sound in Hh as [Hh _].
    now apply (source_row_columns fv h Hfree).
  - apply Forall_forall. intros x Hx.
    now apply (source_row_columns fv x Hfree).
Qed.

Lemma cleaned_In (fv : FeatureViewQueryContext) (r : row) :
  In r (cleaned_of fv) <->
  exists b, In b (base_of fv) /\ r = cleaned_select fv b /\
            exists l, In l (latest_of fv) /\
                      using_match (latest_keys fv) b l = true.
Proof.
  unfold cleaned. rewrite in_flat_map. split.
  - intros (b & Hb & Hr). apply in_map_iff in Hr as (l & <- & Hl).
    apply filter_In in Hl. exists b. eauto.
  - intros (b & Hb & -> & l & Hl & Hm). exists b. split; [assumption|].
    apply in_map_iff. exists l. split; [reflexivity|]. now apply filter_In.
Qed.

(** A base row survives into [<name>__cleaned] when its keys are those
    of the first row of its unique id. *)
Lemma survives_first (fv : FeatureViewQueryContext) (b : row) :
  row_number_free fv ->
  (exists l, In l (latest_of fv) /\ using_match (latest_keys fv) b l = true)
  <->
  exists h, In h (firsts [unique_id_column fv] (timestamp_keys fv)
                    (source_of fv)) /\
            forall c, In c (latest_keys fv) ->
                      col b c = col h c /\ col b c <> VNull.
Proof.
  intro Hfree. rewrite (latest_firsts fv Hfree).
  assert (Hm : forall h,
    using_match (latest_keys fv) b
      (project (timestamp_keys fv ++ [unique_id_column fv]) h) = true <->
    forall c, In c (latest_keys fv) -> col b c = col h c /\ col b c <> VNull).
  { intro h. rewrite using_match_spec.
    split; intros H c Hc; specialize (H c Hc);
      rewrite col_project in *; auto;
      unfold latest_keys in Hc; apply in_or_app;
      destruct Hc as [<-|Hc]; [right; now left | now left
                              | right; now left | now left]. }
  split.
  - intros (l & Hl & Hl'). apply in_map_iff in Hl as (h & <- & Hh).
    exists h. split; [assumption|]. now apply Hm.
  - intros (h & Hh & Hk).
    exists (project (timestamp_keys fv ++ [unique_id_column fv]) h).
    split; [now apply in_map | now apply Hm].
Qed.

(** *** What [<name>__cleaned] keeps *)

(** The row is, among the joined rows of its unique id, one with the
    greatest event timestamp. *)
Definition latest_by_event (fv : FeatureViewQueryContext) (b : row)
  : Prop :=
  col b (unique_id_column fv) <> VNull /\
  exists t,
    col b "event_timestamp" = VInt t /\
    forall b' t',
      In b' (base_of fv) ->
      col b' (unique_id_column fv) = col b (unique_id_column fv) ->
      col b' "event_timestamp" = VInt t' -> t' <= t.

(** The row is, among the joined rows of its unique id that have a
    created timestamp, one with the greatest event timestamp and, among
    these, the greatest created timestamp. *)
Definition latest_by_event_then_created (fv : FeatureViewQueryContext)
  (b : row) : Prop :=
  col b (unique_id_column fv) <> VNull /\
  exists t c,
    col b "event_timestamp" = VInt t /\
    col b "created_timestamp" = VInt c /\
    forall b' t' c',
      In b' (base_of fv) ->
      col b' (unique_id_column fv) = col b (unique_id_column fv) ->
      col b' "event_timestamp" = VInt t' ->
      col b' "created_timestamp" = VInt c' ->
      t' < t \/ (t' = t /\ c' <= c).

Lemma survives_without_created (fv : FeatureViewQueryContext) (b : row) :
  has_created fv = false -> In b (base_of fv) ->
  ((exists h, In h (firsts [unique_id_column fv] (timestamp_keys fv)
                      (source_of fv)) /\
              forall c, In c (latest_keys fv) ->
                        col b c = col h c /\ col b c <> VNull)
   <-> latest_by_event fv b).
Proof.
  intros Hc Hb. unfold latest_source, latest_keys, timestamp_keys.
  rewrite Hc. destruct (base_event_timestamp fv b Hb) as (t & Ht).
  split.
  - intros (h & Hh & Hk). apply firsts_sound in Hh as [Hh Hlead].
    destruct (Hk (unique_id_column fv)) as [Hu Hun]; [now left|].
    destruct (Hk "event_timestamp") as [Hte _]; [right; now left|].
    split; [assumption|]. exists t. split; [assumption|].
    intros b' t' Hb' Hu' Ht'.
    apply (order_desc_event h b' t t'); [congruence | assumption|].
    apply Hlead; [assumption|]. cbn [map]. congruence.
  - intros (Hun & t0 & Ht0 & Hmax).
    rewrite Ht in Ht0. injection Ht0 as <-.
    destruct (firsts_complete [unique_id_column fv] ["event_timestamp"]
                (base_of fv) b Hb) as (h & Hh & Hu).
    exists h. split; [assumption|]. cbn [map] in Hu. injection Hu as Hu.
    apply firsts_sound in Hh as [Hh Hlead].
    destruct (base_event_timestamp fv h Hh) as (th & Hth).
    assert (Hle : t <= th).
    { apply (order_desc_event h b th t Hth Ht). apply Hlead; [assumption|].
      cbn [map]. congruence. }
    assert (Hge : th <= t) by (apply (Hmax h th); auto).
    intros c [<-|[<-|[]]].
    + split; [congruence | assumption].
    + rewrite Ht, Hth. split; [f_equal; lia | discriminate].
Qed.

Lemma source_with_created (fv : FeatureViewQueryContext) (x : row) :
  has_created fv = true ->
  (In x (source_of fv) <->
   exists b m,
     In b (base_of fv) /\
     x = joined_row fv b /\
     col b (unique_id_column fv) <> VNull /\
     col b "created_timestamp" = VInt m /\
     forall b' c',
       In b' (base_of fv) ->
       col b' (unique_id_column fv) = col b (unique_id_column fv) ->
       col b' "event_timestamp" = col b "event_timestamp" ->
       col b' "created_timestamp" = VInt c' -> c' <= m).
Proof.
  intro Hc. unfold latest_source. rewrite Hc. fold (dedup_using fv).
  rewrite join_dedup_In. split.
  - intros (b & Hb & -> & Hun & Hm & Hmn).
    destruct (col b "created_timestamp") as [|m|s] eqn:E;
      [congruence | | symmetry in Hm; now apply sql_max_not_str in Hm].
    exists b, m. repeat split; auto.
    symmetry in Hm. apply latest_created_spec in Hm as [_ Hm]. exact Hm.
  - intros (b & m & Hb & -> & Hun & Hm & Hmax).
    exists b. repeat split; auto; [|rewrite Hm; discriminate].
    rewrite Hm. symmetry. apply latest_created_spec. split; [|exact Hmax].
    now exists b.
Qed.

Lemma survives_with_created (fv : FeatureViewQueryContext) (b : row) :
  has_created fv = true -> In b (base_of fv) ->
  ((exists h, In h (firsts [unique_id_column fv] (timestamp_keys fv)
                      (source_of fv)) /\
              forall c, In c (latest_keys fv) ->
                        col b c = col h c /\ col b c <> VNull)
   <-> latest_by_event_then_created fv b).
Proof.
  intros Hc Hb. unfold latest_keys, timestamp_keys. rewrite Hc.
  destruct (base_event_timestamp fv b Hb) as (t & Ht).
  assert (Hkeys : forall b0,
    col (joined_row fv b0) (unique_id_column fv)
    = col b0 (unique_id_column fv) /\
    col (joined_row fv b0) "event_timestamp" = col b0 "event_timestamp" /\
    col (joined_row fv b0) "created_timestamp"
    = col b0 "created_timestamp").
  { intro b0. repeat split; apply col_joined_row; simpl; auto. }
  split.
  - intros (h & Hh & Hk). apply firsts_sound in Hh as [Hh Hlead].
    apply (source_with_created fv h Hc) in Hh
      as (bh & m & Hbh & Hx & Hbun & Hbm & Hbmax).
    destruct (Hkeys bh) as (Eu & Et & Ec).
    rewrite <- Hx in Eu, Et, Ec.
    destruct (Hk (unique_id_column fv)) as [Hu Hun]; [now left|].
    destruct (Hk "event_timestamp") as [Hte _]; [right; now left|].
    destruct (Hk "created_timestamp") as [Hce _]; [right; right; now left|].
    split; [assumption|]. exists t, m.
    split; [assumption|]. split; [congruence|].
    intros b' t' c' Hb' Hu' Ht' Hc'.
    (* the latest created timestamp of the group of [b'] *)
    destruct (sql_max_bounds
                (map (fun b => col b "created_timestamp")
                   (filter (in_group (fun b => map (col b) (dedup_keys fv))
                              [col b' (unique_id_column fv);
                               col b' "event_timestamp"])
                      (base_of fv))) c') as (m' & Hm' & Hle).
    { rewrite <- Hc'. apply (in_map (fun b => col b "created_timestamp")).
      apply filter_In. split; [assumption|]. now apply in_group_true. }
    fold (latest_created fv (col b' (unique_id_column fv))
            (col b' "event_timestamp")) in Hm'.
    apply latest_created_spec in Hm'
      as [(b'' & Hb'' & Hu'' & Ht'' & Hc'') Hmax''].
    assert (Hx'' : In (joined_row fv b'') (source_of fv)).
    { apply (source_with_created fv _ Hc). exists b'', m'.
      repeat split; auto; [congruence|].
      intros b3 c3 Hb3 Hu3 Ht3 Hc3. apply (Hmax'' b3 c3); congruence. }
    destruct (Hkeys b'') as (Eu'' & Et'' & Ec'').
    specialize (Hlead _ Hx''). cbn [map] in Hlead.
    rewrite Eu'' in Hlead. specialize (Hlead ltac:(congruence)).
    apply (order_desc_event_created h _ t m t' m') in Hlead;
      try congruence. lia.
  - intros (Hun & t0 & c & Ht0 & Hcb & Hmax).
    rewrite Ht in Ht0. injection Ht0 as <-.
    assert (Hxb : In (joined_row fv b) (source_of fv)).
    { apply (source_with_created fv _ Hc). exists b, c.
      repeat split; auto.
      intros b' c' Hb' Hu' Ht' Hc'. rewrite Ht in Ht'.
      destruct (Hmax b' t c' Hb' Hu' Ht' Hc'); lia. }
    destruct (Hkeys b) as (Eu & Et & Ec).
    destruct (firsts_complete [unique_id_column fv]
                ["event_timestamp"; "created_timestamp"]
                (source_of fv) _ Hxb) as (h & Hh & Hu).
    exists h. split; [assumption|].
    assert (Hu' : col h (unique_id_column fv)
                  = col (joined_row fv b) (unique_id_column fv))
      by (cbn [map] in Hu; injection Hu; intro Hi; exact Hi).
    clear Hu. rename Hu' into Hu. rewrite Eu in Hu.
    apply firsts_sound in Hh as [Hh Hlead].
    specialize (Hlead _ Hxb). cbn [map] in Hlead. rewrite Eu in Hlead.
    specialize (Hlead ltac:(congruence)).
    apply (source_with_created fv h Hc) in Hh
      as (bh & m & Hbh & Hx & Hbun & Hbm & Hbmax).
    destruct (Hkeys bh) as (Eu' & Et' & Ec').
    rewrite <- Hx in Eu', Et', Ec'.
    destruct (base_event_timestamp fv bh Hbh) as (th & Hth).
    apply (order_desc_event_created h _ th m t c) in Hlead;
      try congruence.
    assert (Hge : th < t \/ (th = t /\ m <= c)).
    { apply (Hmax bh th m); congruence. }
    intros k [<-|[<-|[<-|[]]]].
    + split; [congruence | assumption].
    + rewrite Ht, Et', Hth. split; [f_equal; lia | discriminate].
    + rewrite Hcb, Ec', Hbm. split; [f_equal; lia | discriminate].
Qed.

Lemma latest_unique_ids (fv : FeatureViewQueryContext) :
  row_number_free fv ->
  NoDup (map (fun l => col l (unique_id_column fv)) (latest_of fv)).
Proof.
  intro Hfree. rewrite (latest_firsts fv Hfree), map_map.
  pose proof (firsts_keys_NoDup [unique_id_column fv] (timestamp_keys fv)
                (source_of fv)) as Hnd.
  rewrite (map_ext (fun h => col (project (timestamp_keys fv
                                           ++ [unique_id_column fv]) h)
                                (unique_id_column fv))
             (fun h => col h (unique_id_column fv))).
  - apply (NoDup_map_inv (fun v => [v])). now rewrite map_map.
  - intro h. apply col_project. apply in_or_app. right. now left.
Qed.


End Query.
End LatestFacts.

(* ================================================================== *)
(** ** The final left joins *)
(* ================================================================== *)

Module AssemblyFacts.
Import Sql ListFacts SqlFacts Template.

(** *** The rows that stem from one request row *)

Section Query.

Variable db : string -> list row.
Variable featureviews : list FeatureViewQueryContext.
Variable left_table_query_string : string.
Variable entity_df_event_timestamp_col : string.
Variable full_feature_names : bool.

Local Abbreviation requests :=
  (entity_dataframe db featureviews left_table_query_string
     entity_df_event_timestamp_col).
Local Abbreviation view_rows :=
  (joined_select db featureviews left_table_query_string
     entity_df_event_timestamp_col full_feature_names).
Local Abbreviation join_view :=
  (left_join_view db featureviews left_table_query_string
     entity_df_event_timestamp_col full_feature_names).
Local Abbreviation view_columns := (feature_columns full_feature_names).

(** The rows of a feature view that a request row is joined with. *)
Definition partners (fv : FeatureViewQueryContext) (l : row) : list row :=
  filter (using_match [unique_id_column fv] l) (view_rows fv).

(** The final rows that stem from one request row, before the final
    projection. *)
Definition request_rows (views : list FeatureViewQueryContext) (e : row)
  : list row :=
  fold_left join_view views [e].

Lemma join_view_rows (T : list row) (fv : FeatureViewQueryContext) :
  join_view T fv
  = flat_map (left_join_row [unique_id_column fv]
                (joined_columns full_feature_names fv) (view_rows fv)) T.
Proof. reflexivity. Qed.

Lemma fold_join_view_rows (views : list FeatureViewQueryContext)
  (T : list row) :
  fold_left join_view views T = flat_map (request_rows views) T.
Proof.
  revert T. induction views as [|fv views IH]; intro T.
  - simpl. induction T as [|x T IHT]; [reflexivity|]. simpl. now f_equal.
  - cbn [fold_left]. rewrite IH, join_view_rows, flat_map_flat_map.
    apply flat_map_ext. intro e. unfold request_rows. cbn [fold_left].
    rewrite IH, join_view_rows. cbn [flat_map]. now rewrite app_nil_r.
Qed.

Lemma request_rows_cons (fv : FeatureViewQueryContext)
  (views : list FeatureViewQueryContext) (e : row) :
  request_rows (fv :: views) e
  = flat_map (request_rows views)
      (left_join_row [unique_id_column fv]
         (joined_columns full_feature_names fv) (view_rows fv) e).
Proof.
  unfold request_rows at 1. cbn [fold_left].
  rewrite fold_join_view_rows, join_view_rows. cbn [flat_map].
  now rewrite app_nil_r.
Qed.

Lemma request_rows_nonempty (views : list FeatureViewQueryContext)
  (e : row) : request_rows views e <> [].
Proof.
  revert e. induction views as [|fv views IH]; intro e; [discriminate|].
  rewrite request_rows_cons.
  destruct (left_join_row [unique_id_column fv]
              (joined_columns full_feature_names fv) (view_rows fv) e)
    as [|x xs] eqn:E; [now apply left_join_row_nonempty in E|].
  cbn [flat_map]. intro H. apply app_eq_nil in H as [H _].
  now apply IH in H.
Qed.

Lemma request_rows_single (views : list FeatureViewQueryContext) (e : row) :
  (forall fv l, In fv views -> (List.length (partners fv l) <= 1)%nat) ->
  List.length (request_rows views e) = 1%nat.
Proof.
  revert e. induction views as [|fv views IH]; intros e H; [reflexivity|].
  rewrite request_rows_cons.
  pose proof (left_join_row_length [unique_id_column fv]
                (joined_columns full_feature_names fv) (view_rows fv) e)
    as Hlen.
  specialize (H fv e (or_introl eq_refl)) as Hone. unfold partners in Hone.
  destruct (left_join_row [unique_id_column fv]
              (joined_columns full_feature_names fv) (view_rows fv) e)
    as [|x [|y xs]]; cbn [List.length] in Hlen; try lia.
  cbn [flat_map]. rewrite app_nil_r. apply IH.
  intros fv' l Hin. apply H. now right.
Qed.

(** *** Null padding *)

Variable entity_df_columns : list string.

(** The columns of [entity_dataframe]. *)
Definition request_columns : list string :=
  entity_df_columns
  ++ "entity_timestamp" :: map unique_id_column featureviews.

(** Every request row has the columns of the entity table, and no two
    columns of the final join share a name. *)
Definition well_named : Prop :=
  (forall r, In r (db left_table_query_string) ->
             columns r = entity_df_columns) /\
  NoDup (request_columns ++ flat_map view_columns featureviews).

Lemma columns_entity_dataframe (e : row) :
  well_named -> In e requests -> columns e = request_columns.
Proof.
  intros [Hschema _] He. unfold entity_dataframe in He.
  apply in_map_iff in He as (r & <- & Hr).
  unfold entity_dataframe_row, columns, request_columns.
  rewrite map_app. cbn [map fst]. rewrite map_map. cbn [fst].
  f_equal. now apply Hschema.
Qed.

(** What holds of a row [x] that stems from the request row [e] once the
    views [done] are joined. *)
Definition padded (done : list FeatureViewQueryContext) (e x : row) : Prop :=
  (forall c, In c request_columns -> col x c = col e c) /\
  (forall c, In c (columns x) ->
             In c request_columns \/ In c (flat_map view_columns done)) /\
  (forall c, In c request_columns \/ In c (flat_map view_columns done) ->
             In c (columns x)) /\
  (forall fv f, In fv done -> partners fv e = [] ->
                In f (view_columns fv) -> col x f = VNull).

Lemma partners_ext (fv : FeatureViewQueryContext) (l l' : row) :
  col l (unique_id_column fv) = col l' (unique_id_column fv) ->
  partners fv l = partners fv l'.
Proof.
  intro H. unfold partners. apply filter_ext. intro s.
  apply using_match_left_ext. intros c [<-|[]]. exact H.
Qed.

Lemma padded_step (done : list FeatureViewQueryContext)
  (fv : FeatureViewQueryContext) (e x x' : row) :
  In (unique_id_column fv) request_columns ->
  NoDup (request_columns ++ flat_map view_columns (done ++ [fv])) ->
  padded done e x ->
  In x' (left_join_row [unique_id_column fv]
           (joined_columns full_feature_names fv) (view_rows fv) x) ->
  padded (done ++ [fv]) e x'.
Proof.
  intros Huid Hnd (Hreq & Hsub & Hsup & Hnull) Hx'. unfold padded.
  rewrite flat_map_app in *. cbn [flat_map] in *. rewrite app_nil_r in *.
  assert (Hfresh : forall f, In f (view_columns fv) ->
            f <> unique_id_column fv /\ ~ In f (columns x)).
  { intros f Hf.
    assert (Hreqf : ~ In f request_columns).
    { intro Hin. apply (NoDup_app_disjoint _ _ f Hnd Hin).
      apply in_or_app. now right. }
    split; [intros ->; contradiction|].
    intro Hin. apply Hsub in Hin as [Hin|Hin]; [contradiction|].
    apply NoDup_app_remove_l in Hnd.
    exact (NoDup_app_disjoint _ _ f Hnd Hin Hf). }
  assert (Hshape : exists s,
            x' = using_row [unique_id_column fv] x s /\
            columns s = joined_columns full_feature_names fv /\
            (partners fv x = [] -> forall c, col s c = VNull)).
  { unfold left_join_row in Hx'. fold (partners fv x) in Hx'.
    destruct (partners fv x) as [|m ms] eqn:E.
    - destruct Hx' as [<-|[]].
      exists (null_row (joined_columns full_feature_names fv)).
      split; [reflexivity|]. split; [apply columns_null_row|].
      intros _ c. apply col_null_row.
    - apply in_map_iff in Hx' as (s & <- & Hs). exists s.
      split; [reflexivity|]. split; [|discriminate].
      assert (Hs' : In s (partners fv x)) by (rewrite E; exact Hs).
      unfold partners in Hs'. apply filter_In in Hs' as [Hs' _].
      unfold joined_select in Hs'. apply in_map_iff in Hs' as (y & <- & _).
      apply columns_project. }
  destruct Hshape as (s & -> & Hcols & Hpad).
  assert (Hleft : forall c, In c (columns x) ->
            col (using_row [unique_id_column fv] x s) c = col x c)
    by (intros; now apply col_using_row_left).
  split; [|split; [|split]].
  - intros c Hc. rewrite Hleft by (apply Hsup; now left). now apply Hreq.
  - intros c Hc. apply columns_using_row in Hc as [Hc|[Hc|Hc]].
    + destruct Hc as [<-|[]]. now left.
    + apply Hsub in Hc as [Hc|Hc]; [now left | right].
      apply in_or_app. now left.
    + rewrite Hcols in Hc. destruct Hc as [<-|Hc]; [now left | right].
      apply in_or_app. now right.
  - intros c Hc. unfold using_row, columns.
    rewrite !map_app, !in_app_iff.
    fold (columns (project [unique_id_column fv] x)).
    rewrite columns_project.
    destruct (string_dec c (unique_id_column fv)) as [->|Hne];
      [left; now left|].
    assert (Hout : ~ In c [unique_id_column fv])
      by (intros [H|[]]; congruence).
    rewrite in_app_iff in Hc.
    destruct Hc as [Hc|[Hc|Hc]].
    + right. left. apply in_columns_remove_cols; [|assumption].
      apply Hsup. now left.
    + right. left. apply in_columns_remove_cols; [|assumption].
      apply Hsup. now right.
    + right. right. apply in_columns_remove_cols; [|assumption].
      rewrite Hcols. now right.
  - intros fv' f Hin Hnone Hf. apply in_app_or in Hin as [Hin|[<-|[]]].
    + rewrite Hleft.
      * now apply (Hnull fv' f).
      * apply Hsup. right. apply in_flat_map. now exists fv'.
    + destruct (Hfresh f Hf) as [Hne Hnx].
      rewrite col_using_row_right; [|intros [H|[]]; congruence | assumption].
      apply Hpad. rewrite <- Hnone. apply partners_ext.
      now apply Hreq.
Qed.

Lemma padded_request_rows (done todo : list FeatureViewQueryContext)
  (e x x' : row) :
  (forall fv, In fv todo -> In (unique_id_column fv) request_columns) ->
  NoDup (request_columns ++ flat_map view_columns (done ++ todo)) ->
  padded done e x -> In x' (request_rows todo x) ->
  padded (done ++ todo) e x'.
Proof.
  revert done x. induction todo as [|fv todo IH]; intros done x Huid Hnd Hp Hx'.
  - destruct Hx' as [<-|[]]. now rewrite app_nil_r.
  - rewrite request_rows_cons in Hx'.
    apply in_flat_map in Hx' as (y & Hy & Hx').
    replace (done ++ fv :: todo) with ((done ++ [fv]) ++ todo) in *
      by (now rewrite <- app_assoc).
    apply (IH (done ++ [fv]) y); auto.
    + intros fv' Hin. apply Huid. now right.
    + apply (padded_step done fv e x y); auto.
      * apply Huid. now left.
      * rewrite flat_map_app in Hnd. rewrite app_assoc in Hnd.
        now apply NoDup_app_remove_r in Hnd.
Qed.

Lemma final_rows (final_output_feature_names : list string) :
  MULTIPLE_FEATURE_VIEW_POINT_IN_TIME_JOIN db featureviews
    left_table_query_string entity_df_event_timestamp_col
    full_feature_names final_output_feature_names
  = flat_map (fun e => map (project final_output_feature_names)
                         (request_rows featureviews e))
      requests.
Proof.
  unfold MULTIPLE_FEATURE_VIEW_POINT_IN_TIME_JOIN, assembled.
  rewrite fold_join_view_rows.
  induction requests as [|e E IH]; [reflexivity|].
  cbn [flat_map]. now rewrite map_app, IH.
Qed.


End Query.

End AssemblyFacts.

(* ================================================================== *)
(** ** The unique id of a request row *)
(* ================================================================== *)

Module UniqueIdFacts.
Import Sql ListFacts SqlFacts Template JoinFacts.

Lemma sql_concat_single (v : value) :
  sql_concat [cast_varchar v] = cast_varchar v.
Proof. destruct v; simpl; [reflexivity| |]; now rewrite append_empty_r. Qed.

Section Query.

Variable db : string -> list row.
Variable featureviews : list FeatureViewQueryContext.
Variable left_table_query_string : string.
Variable entity_df_event_timestamp_col : string.
Variable full_feature_names : bool.

Local Abbreviation unique_id :=
  (entity_row_unique_id entity_df_event_timestamp_col).
Local Abbreviation requests_of :=
  (fv_entity_dataframe db featureviews left_table_query_string
     entity_df_event_timestamp_col).

(** C9, as the code has it. The unique id of a request row for a feature
    view is the concatenation of the view's join-key values cast to text,
    followed by the entity event timestamp cast to text, and it is the
    cell the request row carries under the view's unique-id column.  For
    a view without entities nothing is substituted: the unique id is the
    timestamp text alone, the grouped request rows carry no join-key
    column, and the join condition is the bounds on the event timestamp
    alone. *)
Theorem unique_id_concatenates_keys (fv : FeatureViewQueryContext) :
  (forall r,
     unique_id fv r
     = sql_concat
         (map (fun entity => cast_varchar (col r entity)) (entities fv)
          ++ [cast_varchar (col r entity_df_event_timestamp_col)])) /\
  (forall r, In fv featureviews ->
     In (unique_id_column fv, unique_id fv r)
        (entity_dataframe_row featureviews entity_df_event_timestamp_col r)) /\
  (entities fv = [] ->
   (forall r, unique_id fv r
              = cast_varchar (col r entity_df_event_timestamp_col)) /\
   (forall e, In e (requests_of fv) ->
              columns e = ["entity_timestamp"; unique_id_column fv]) /\
   (forall s e,
      holds (base_on fv s e) = true <->
      exists t te,
        col s "event_timestamp" = VInt t /\
        col e "entity_timestamp" = VInt te /\
        t <= te /\ (ttl fv = 0 \/ te - interval_second (ttl fv) <= t))).
Proof.
  split; [|split].
  - intro r. unfold entity_row_unique_id.
    destruct (entities fv); [|reflexivity].
    cbn [map app]. now rewrite sql_concat_single.
  - intros r Hfv. unfold entity_dataframe_row. apply in_or_app. right. right.
    apply (in_map (fun fv => (unique_id_column fv, unique_id fv r))).
    exact Hfv.
  - intro Hnone. split; [|split].
    + intro r. unfold entity_row_unique_id. now rewrite Hnone.
    + intros e He. unfold fv_entity_dataframe in He.
      apply nodup_In, in_map_iff in He as (x & <- & _).
      rewrite columns_project. unfold fv_entity_columns. now rewrite Hnone.
    + intros s e. rewrite base_on_spec.
      rewrite Hnone. split; [tauto|]. intro H. split; [intros k []|exact H].
Qed.

End Query.
End UniqueIdFacts.

(* ================================================================== *)
(** ** Rows up to the names of some columns *)
(* ================================================================== *)

Module RenameFacts.
Import Sql ListFacts SqlFacts WindowFacts.

(** *** Lists related element by element *)

Section Related.
Context {A B : Type} (R : A -> B -> Prop).

Lemma Forall2_filter (f : A -> bool) (g : B -> bool) (l1 : list A)
  (l2 : list B) :
  Forall2 R l1 l2 -> (forall x y, R x y -> f x = g y) ->
  Forall2 R (filter f l1) (filter g l2).
Proof.
  intros H Hfg. induction H as [|x y l1 l2 Hxy H IH]; [constructor|].
  cbn [filter]. rewrite (Hfg x y Hxy). destruct (g y); auto.
Qed.

Lemma Forall2_map_eq {C : Type} (f : A -> C) (g : B -> C) (l1 : list A)
  (l2 : list B) :
  Forall2 R l1 l2 -> (forall x y, R x y -> f x = g y) ->
  map f l1 = map g l2.
Proof.
  intros H Hfg. induction H as [|x y l1 l2 Hxy H IH]; [reflexivity|].
  cbn [map]. now rewrite (Hfg x y Hxy), IH.
Qed.

End Related.

Lemma Forall2_map {A B C D : Type} (R : A -> B -> Prop) (S : C -> D -> Prop)
  (f : A -> C) (g : B -> D) (l1 : list A) (l2 : list B) :
  Forall2 R l1 l2 -> (forall x y, R x y -> S (f x) (g y)) ->
  Forall2 S (map f l1) (map g l2).
Proof.
  intros H Hfg. induction H; cbn [map]; constructor; auto.
Qed.

Lemma Forall2_flat_map {A B C D : Type} (R : A -> B -> Prop)
  (S : C -> D -> Prop) (f : A -> list C) (g : B -> list D) (l1 : list A)
  (l2 : list B) :
  Forall2 R l1 l2 -> (forall x y, R x y -> Forall2 S (f x) (g y)) ->
  Forall2 S (flat_map f l1) (flat_map g l2).
Proof.
  intros H Hfg. induction H; cbn [flat_map]; [constructor|].
  apply Forall2_app; auto.
Qed.

Lemma Forall2_same {A : Type} (R : A -> A -> Prop) (l : list A) :
  (forall x, In x l -> R x x) -> Forall2 R l l.
Proof.
  induction l as [|x l IH]; intro H; constructor.
  - apply H. now left.
  - apply IH. intros y Hy. apply H. now right.
Qed.

Lemma Forall2_list_prod {A B C : Type} (R : A -> B -> Prop) (l1 : list A)
  (l2 : list B) (E : list C) :
  Forall2 R l1 l2 ->
  Forall2 (fun p q => R (fst p) (fst q) /\ snd p = snd q)
    (list_prod l1 E) (list_prod l2 E).
Proof.
  intro H. induction H as [|x y l1 l2 Hxy H IH]; [constructor|].
  cbn [list_prod]. apply Forall2_app; [|exact IH].
  clear IH. induction E as [|e E IHE]; cbn [map]; constructor; auto.
Qed.

Lemma Forall2_insert_sorted {A B : Type} (R : A -> B -> Prop)
  (before1 : A -> A -> bool) (before2 : B -> B -> bool) (x : A) (y : B)
  (l1 : list A) (l2 : list B) :
  (forall a b a' b', R a b -> R a' b' -> before1 a a' = before2 b b') ->
  R x y -> Forall2 R l1 l2 ->
  Forall2 R (insert_sorted before1 x l1) (insert_sorted before2 y l2).
Proof.
  intros Hb Hxy H. induction H as [|a b l1 l2 Hab H IH]; cbn [insert_sorted].
  - constructor; [assumption | constructor].
  - rewrite (Hb x y a b Hxy Hab). destruct (before2 y b); auto.
Qed.

Lemma Forall2_sort_by {A B : Type} (R : A -> B -> Prop)
  (before1 : A -> A -> bool) (before2 : B -> B -> bool) (l1 : list A)
  (l2 : list B) :
  (forall a b a' b', R a b -> R a' b' -> before1 a a' = before2 b b') ->
  Forall2 R l1 l2 ->
  Forall2 R (sort_by before1 l1) (sort_by before2 l2).
Proof.
  intros Hb H. induction H; cbn [sort_by]; [constructor|].
  now apply Forall2_insert_sorted.
Qed.

(** *** Rows that differ in the names of some columns *)

Section Renaming.

(** The pairs of names that stand for one another. *)
Variable ren : list (string * string).

(** A name no renaming touches, on either side. *)
Definition fixed (c : string) : Prop :=
  forall p, In p ren -> c <> fst p /\ c <> snd p.

(** No two pairs share one name only. *)
Definition one_to_one : Prop :=
  forall p q, In p ren -> In q ren -> (fst p = fst q <-> snd p = snd q).

Definition cell_rel (p q : string * value) : Prop :=
  snd p = snd q /\
  (In (fst p, fst q) ren \/ (fst p = fst q /\ fixed (fst p))).

Definition row_rel : row -> row -> Prop := Forall2 cell_rel.

Lemma col_fixed (r1 r2 : row) (c : string) :
  row_rel r1 r2 -> fixed c -> col r1 c = col r2 c.
Proof.
  intros H Hc. induction H as [|[c1 v1] [c2 v2] r1 r2 [Hv Hn] H IH];
    [reflexivity|].
  cbn [col]. cbn [fst snd] in Hv, Hn. subst v2.
  destruct Hn as [Hin|[-> _]].
  - destruct (Hc _ Hin) as [H1 H2]. cbn [fst snd] in H1, H2.
    destruct (String.eqb_spec c1 c); [congruence|].
    destruct (String.eqb_spec c2 c); [congruence | exact IH].
  - now rewrite IH.
Qed.

Lemma col_renamed (r1 r2 : row) (a1 a2 : string) :
  one_to_one -> row_rel r1 r2 -> In (a1, a2) ren -> col r1 a1 = col r2 a2.
Proof.
  intros Hinj H Ha. induction H as [|[c1 v1] [c2 v2] r1 r2 [Hv Hn] H IH];
    [reflexivity|].
  cbn [col]. cbn [fst snd] in Hv, Hn. subst v2.
  destruct Hn as [Hin|[-> Hfix]].
  - pose proof (Hinj _ _ Hin Ha) as Hiff. cbn [fst snd] in Hiff.
    destruct (String.eqb_spec c1 a1) as [E1|E1];
      destruct (String.eqb_spec c2 a2) as [E2|E2]; try reflexivity;
      try exact IH; tauto.
  - destruct (Hfix _ Ha) as [H1 H2]. cbn [fst snd] in H1, H2.
    destruct (String.eqb_spec c2 a1); [congruence|].
    destruct (String.eqb_spec c2 a2); [congruence | exact IH].
Qed.

Lemma row_rel_refl (r : row) :
  (forall c, In c (columns r) -> fixed c) -> row_rel r r.
Proof.
  intro H. apply Forall2_same. intros p Hp. split; [reflexivity|].
  right. split; [reflexivity|]. apply H. now apply in_map.
Qed.

Lemma row_rel_app (r1 r2 s1 s2 : row) :
  row_rel r1 r2 -> row_rel s1 s2 -> row_rel (r1 ++ s1) (r2 ++ s2).
Proof. apply Forall2_app. Qed.

Lemma mem_fixed (cs : list string) (p q : string * value) :
  (forall c, In c cs -> fixed c) -> cell_rel p q ->
  mem (fst p) cs = mem (fst q) cs.
Proof.
  intros Hcs [_ [Hin|[-> _]]]; [|reflexivity].
  assert (Hno : forall a, (a = fst p \/ a = fst q) -> mem a cs = false).
  { intros a Ha. destruct (mem a cs) eqn:E; [|reflexivity].
    unfold mem in E. apply existsb_exists in E as (c & Hc & Ec).
    apply String.eqb_eq in Ec. subst c.
    destruct (Hcs a Hc _ Hin) as [H1 H2]. cbn [fst snd] in H1, H2.
    destruct Ha; congruence. }
  rewrite (Hno (fst p)), (Hno (fst q)); auto.
Qed.

Lemma row_rel_remove_cols (cs : list string) (r1 r2 : row) :
  (forall c, In c cs -> fixed c) -> row_rel r1 r2 ->
  row_rel (remove_cols cs r1) (remove_cols cs r2).
Proof.
  intros Hcs H. unfold remove_cols. apply Forall2_filter; [exact H|].
  intros p q Hpq. now rewrite (mem_fixed cs p q Hcs Hpq).
Qed.

Lemma project_fixed (cs : list string) (r1 r2 : row) :
  (forall c, In c cs -> fixed c) -> row_rel r1 r2 ->
  project cs r1 = project cs r2.
Proof.
  intros Hcs H. unfold project. apply map_ext_in. intros c Hc.
  f_equal. apply col_fixed; auto.
Qed.

Lemma keys_fixed (cs : list string) (r1 r2 : row) :
  (forall c, In c cs -> fixed c) -> row_rel r1 r2 ->
  map (col r1) cs = map (col r2) cs.
Proof.
  intros Hcs H. apply map_ext_in. intros c Hc. apply col_fixed; auto.
Qed.

Lemma row_rel_project (cs : list string) (r : row) :
  (forall c, In c cs -> fixed c) -> row_rel (project cs r) (project cs r).
Proof.
  intro Hcs. apply row_rel_refl. intros c Hc.
  rewrite columns_project in Hc. auto.
Qed.

Lemma row_rel_using_row (cs : list string) (l1 l2 r1 r2 : row) :
  (forall c, In c cs -> fixed c) -> row_rel l1 l2 -> row_rel r1 r2 ->
  row_rel (using_row cs l1 r1) (using_row cs l2 r2).
Proof.
  intros Hcs Hl Hr. unfold using_row.
  rewrite (project_fixed cs l1 l2 Hcs Hl).
  repeat apply row_rel_app.
  - now apply row_rel_project.
  - now apply row_rel_remove_cols.
  - now apply row_rel_remove_cols.
Qed.

Lemma using_match_fixed (cs : list string) (l1 l2 r1 r2 : row) :
  (forall c, In c cs -> fixed c) -> row_rel l1 l2 -> row_rel r1 r2 ->
  using_match cs l1 r1 = using_match cs l2 r2.
Proof.
  intros Hcs Hl Hr. unfold using_match.
  induction cs as [|c cs IH]; [reflexivity|]. cbn [forallb].
  rewrite (col_fixed l1 l2 c Hl), (col_fixed r1 r2 c Hr)
    by (apply Hcs; now left).
  f_equal. apply IH. intros c' Hc'. apply Hcs. now right.
Qed.

Lemma order_desc_fixed (keys : list string) (a1 a2 b1 b2 : row) :
  (forall c, In c keys -> fixed c) -> row_rel a1 a2 -> row_rel b1 b2 ->
  order_desc keys a1 b1 = order_desc keys a2 b2.
Proof.
  intros Hk Ha Hb. unfold order_desc.
  now rewrite (keys_fixed keys a1 a2 Hk Ha), (keys_fixed keys b1 b2 Hk Hb).
Qed.

Lemma in_group_fixed (part : list string) (k : list value) (r1 r2 : row) :
  (forall c, In c part -> fixed c) -> row_rel r1 r2 ->
  in_group (fun r => map (col r) part) k r1
  = in_group (fun r => map (col r) part) k r2.
Proof.
  intros Hp H. unfold in_group. now rewrite (keys_fixed part r1 r2 Hp H).
Qed.

Lemma number_rows_rel (alias : string) (n : Z) (p1 p2 : list row) :
  fixed alias -> Forall2 row_rel p1 p2 ->
  Forall2 row_rel (number_rows alias n p1) (number_rows alias n p2).
Proof.
  intros Ha H. revert n. induction H as [|r1 r2 p1 p2 Hr H IH]; intro n;
    cbn [number_rows]; constructor; [|apply IH].
  apply row_rel_app; [exact Hr|]. constructor; [|constructor].
  split; [reflexivity|]. right. now split.
Qed.

Lemma partitions_rel (part keys : list string) (T1 T2 : list row) :
  (forall c, In c part -> fixed c) -> (forall c, In c keys -> fixed c) ->
  Forall2 row_rel T1 T2 ->
  Forall2 (Forall2 row_rel) (partitions part keys T1)
    (partitions part keys T2).
Proof.
  intros Hp Hk H. unfold partitions, group_keys.
  rewrite (Forall2_map_eq row_rel (fun r => map (col r) part)
             (fun r => map (col r) part) T1 T2 H)
    by (intros; now apply keys_fixed).
  apply Forall2_map with (R := eq).
  - apply Forall2_same. reflexivity.
  - intros k ? <-. apply Forall2_sort_by.
    + intros; now apply order_desc_fixed.
    + apply Forall2_filter; [exact H|]. intros; now apply in_group_fixed.
Qed.

Lemma row_number_rel (alias : string) (part keys : list string)
  (T1 T2 : list row) :
  fixed alias -> (forall c, In c part -> fixed c) ->
  (forall c, In c keys -> fixed c) -> Forall2 row_rel T1 T2 ->
  Forall2 row_rel (row_number alias part keys T1)
    (row_number alias part keys T2).
Proof.
  intros Ha Hp Hk H. unfold row_number.
  apply Forall2_flat_map with (R := Forall2 row_rel).
  - now apply partitions_rel.
  - intros; now apply number_rows_rel.
Qed.

Lemma join_using_rel (cs : list string) (L1 L2 R0 : list row) :
  (forall c, In c cs -> fixed c) ->
  (forall d c, In d R0 -> In c (columns d) -> fixed c) ->
  Forall2 row_rel L1 L2 ->
  Forall2 row_rel (join_using cs L1 R0) (join_using cs L2 R0).
Proof.
  intros Hcs HR H. unfold join_using.
  apply Forall2_flat_map with (R := row_rel); [exact H|].
  intros l1 l2 Hl.
  rewrite (filter_ext_in (using_match cs l1) (using_match cs l2)).
  - apply Forall2_map with (R := fun d d' => d = d' /\ In d R0).
    + apply Forall2_same. intros d Hd. apply filter_In in Hd. tauto.
    + intros d ? [<- Hd]. apply row_rel_using_row; auto.
      apply row_rel_refl. intros c Hc. now apply (HR d).
  - intros d Hd. apply using_match_fixed; auto.
    apply row_rel_refl. intros c Hc. now apply (HR d).
Qed.

End Renaming.

End RenameFacts.

(* ================================================================== *)
(** ** The qualification mode *)
(* ================================================================== *)

Module ToggleFacts.
Import Sql ListFacts SqlFacts WindowFacts Template.
Import JoinFacts LatestFacts AssemblyFacts RenameFacts.

(** The qualified and the bare name of every feature of a view. *)
Definition renaming (fv : FeatureViewQueryContext) : list (string * string) :=
  map (fun f => (feature_alias true fv f, feature_alias false fv f))
    (features fv).

(** The names the template itself refers to in the rows of a view. *)
Definition reserved (fv : FeatureViewQueryContext) : list string :=
  ["event_timestamp"; "created_timestamp"; "entity_timestamp"; "row_number";
   unique_id_column fv]
  ++ map snd (entity_selections fv) ++ entities fv.

(** No feature of the view goes, in either mode, by a name the template
    refers to. *)
Definition features_apart (fv : FeatureViewQueryContext) : Prop :=
  forall f c, In f (features fv) -> In c (reserved fv) ->
              feature_alias true fv f <> c /\ feature_alias false fv f <> c.

Lemma renaming_one_to_one (fv : FeatureViewQueryContext) :
  one_to_one (renaming fv).
Proof.
  intros p q Hp Hq. unfold renaming in *.
  apply in_map_iff in Hp as (f & <- & _).
  apply in_map_iff in Hq as (g & <- & _).
  cbn [fst snd feature_alias]. split.
  - intro H. now apply append_inj_l, append_inj_l in H.
  - now intros ->.
Qed.

Lemma reserved_fixed (fv : FeatureViewQueryContext) (c : string) :
  features_apart fv -> In c (reserved fv) -> fixed (renaming fv) c.
Proof.
  intros Hap Hc p Hp. unfold renaming in Hp.
  apply in_map_iff in Hp as (f & <- & Hf). cbn [fst snd].
  destruct (Hap f c Hf Hc). split; congruence.
Qed.

Lemma renaming_names (views : list FeatureViewQueryContext) :
  map fst (flat_map renaming views) = flat_map (feature_columns true) views /\
  map snd (flat_map renaming views) = flat_map (feature_columns false) views.
Proof.
  unfold renaming, feature_columns.
  induction views as [|fv fvs [IH1 IH2]]; [split; reflexivity|].
  cbn [flat_map]. rewrite !map_app, IH1, IH2, !map_map. split; reflexivity.
Qed.

Lemma base_on_ext (fv : FeatureViewQueryContext) (s1 s2 e : row) :
  col s1 "event_timestamp" = col s2 "event_timestamp" ->
  (forall k, In k (entities fv) -> col s1 k = col s2 k) ->
  base_on fv s1 e = base_on fv s2 e.
Proof.
  intros Ht Hk. unfold base_on. rewrite Ht.
  generalize (if ttl fv =? 0
              then sql_and (Some true)
                     (sql_le (col s2 "event_timestamp")
                        (col e "entity_timestamp"))
              else sql_and
                     (sql_and (Some true)
                        (sql_le (col s2 "event_timestamp")
                           (col e "entity_timestamp")))
                     (sql_ge (col s2 "event_timestamp")
                        (sql_minus_interval (col e "entity_timestamp")
                           (ttl fv)))).
  induction (entities fv) as [|k ks IH]; intro acc; [reflexivity|].
  cbn [fold_left]. rewrite (Hk k) by now left.
  apply IH. intros k' Hk'. apply Hk. now right.
Qed.

Section Query.

Variable db : string -> list row.
Variable featureviews : list FeatureViewQueryContext.
Variable left_table_query_string : string.
Variable entity_df_event_timestamp_col : string.

Local Abbreviation subquery_in :=
  (subquery db featureviews left_table_query_string
     entity_df_event_timestamp_col).
Local Abbreviation base_in :=
  (base db featureviews left_table_query_string
     entity_df_event_timestamp_col).
Local Abbreviation pairs_in :=
  (base_pairs db featureviews left_table_query_string
     entity_df_event_timestamp_col).
Local Abbreviation dedup_in :=
  (dedup db featureviews left_table_query_string
     entity_df_event_timestamp_col).
Local Abbreviation source_in :=
  (latest_source db featureviews left_table_query_string
     entity_df_event_timestamp_col).
Local Abbreviation latest_in :=
  (latest db featureviews left_table_query_string
     entity_df_event_timestamp_col).
Local Abbreviation cleaned_in :=
  (cleaned db featureviews left_table_query_string
     entity_df_event_timestamp_col).

Section View.

Variable fv : FeatureViewQueryContext.
Hypothesis apart : features_apart fv.

Local Abbreviation related := (row_rel (renaming fv)).

Lemma fixed_reserved (c : string) :
  In c (reserved fv) -> fixed (renaming fv) c.
Proof. now apply reserved_fixed. Qed.

Lemma fixed_unique_id : fixed (renaming fv) (unique_id_column fv).
Proof. apply fixed_reserved. unfold reserved. simpl. auto 10. Qed.

Lemma fixed_latest_keys (c : string) :
  In c (latest_keys fv) -> fixed (renaming fv) c.
Proof.
  intro Hc. apply fixed_reserved. unfold latest_keys, timestamp_keys in Hc.
  unfold reserved. destruct (has_created fv); simpl in Hc |- *;
    intuition (subst; auto 10).
Qed.

Lemma fixed_timestamp_keys (c : string) :
  In c (timestamp_keys fv) -> fixed (renaming fv) c.
Proof. intro Hc. apply fixed_latest_keys. now right. Qed.

Lemma fixed_dedup_using (c : string) :
  In c (dedup_using fv) -> fixed (renaming fv) c.
Proof.
  intro Hc. apply fixed_reserved. unfold reserved. simpl in Hc |- *.
  intuition (subst; auto 10).
Qed.

Lemma subquery_select_rel (r : row) :
  related (subquery_select true fv r) (subquery_select false fv r).
Proof.
  unfold subquery_select. constructor.
  { split; [reflexivity|]. right. split; [reflexivity|].
    apply fixed_reserved. now left. }
  repeat apply row_rel_app.
  - apply row_rel_refl. intros c Hc. apply fixed_reserved.
    destruct (has_created fv); [|destruct Hc].
    destruct Hc as [<-|[]]. right. now left.
  - apply row_rel_refl. intros c Hc. apply fixed_reserved.
    unfold columns in Hc. rewrite map_map in Hc. cbn [fst] in Hc.
    unfold reserved. apply in_or_app. right. apply in_or_app. now left.
  - apply Forall2_map with (R := fun f g => f = g /\ In f (features fv)).
    + apply Forall2_same. auto.
    + intros f ? [<- Hf]. split; [reflexivity|]. left. cbn [fst].
      unfold renaming.
      now apply (in_map (fun f => (feature_alias true fv f,
                                   feature_alias false fv f))).
Qed.

Lemma subquery_rel :
  Forall2 related (subquery_in true fv) (subquery_in false fv).
Proof.
  unfold subquery. apply Forall2_map with (R := eq).
  - apply Forall2_same. reflexivity.
  - intros r ? <-. apply subquery_select_rel.
Qed.

Lemma base_on_rel (s1 s2 e : row) :
  related s1 s2 -> base_on fv s1 e = base_on fv s2 e.
Proof.
  intro H. apply base_on_ext.
  - apply (col_fixed _ _ _ _ H). apply fixed_reserved. now left.
  - intros k Hk. apply (col_fixed _ _ _ _ H). apply fixed_reserved.
    unfold reserved. apply in_or_app. right. apply in_or_app. now right.
Qed.

Lemma base_rel : Forall2 related (base_in true fv) (base_in false fv).
Proof.
  unfold base, base_pairs.
  apply Forall2_map
    with (R := fun p q => related (fst p) (fst q) /\ snd p = snd q).
  - apply Forall2_filter.
    + apply Forall2_list_prod. exact subquery_rel.
    + intros p q [Hs He]. rewrite He. now rewrite (base_on_rel _ _ _ Hs).
  - intros p q [Hs He]. unfold base_select. rewrite He.
    apply row_rel_app; [exact Hs|]. apply row_rel_refl.
    intros c [<-|[<-|[]]]; apply fixed_reserved; unfold reserved; simpl;
      auto 10.
Qed.

Lemma dedup_eq : dedup_in true fv = dedup_in false fv.
Proof.
  unfold dedup, group_keys.
  assert (Hkeys : forall c, In c (dedup_keys fv) -> fixed (renaming fv) c).
  { intros c Hc. apply fixed_dedup_using. unfold dedup_using.
    destruct Hc as [<-|[<-|[]]]; simpl; auto. }
  rewrite (Forall2_map_eq related (fun b => map (col b) (dedup_keys fv))
             (fun b => map (col b) (dedup_keys fv)) _ _ base_rel)
    by (intros; now apply (keys_fixed (renaming fv))).
  apply map_ext. intro k. do 4 f_equal.
  apply (Forall2_map_eq related).
  - apply Forall2_filter; [exact base_rel|].
    intros; now apply (in_group_fixed (renaming fv)).
  - intros b1 b2 Hb. apply (col_fixed _ _ _ _ Hb).
    apply fixed_dedup_using. simpl. auto.
Qed.

Lemma dedup_columns (d : row) (c : string) :
  In d (dedup_in false fv) -> In c (columns d) -> In c (dedup_using fv).
Proof.
  intros Hd Hc. apply dedup_In in Hd as (b & _ & ->). exact Hc.
Qed.

Lemma source_rel : Forall2 related (source_in true fv) (source_in false fv).
Proof.
  unfold latest_source. destruct (has_created fv); [|exact base_rel].
  rewrite dedup_eq. apply (join_using_rel (renaming fv)).
  - exact fixed_dedup_using.
  - intros d c Hd Hc. apply fixed_dedup_using. now apply (dedup_columns d).
  - exact base_rel.
Qed.

Lemma latest_eq : latest_in true fv = latest_in false fv.
Proof.
  unfold latest. apply (Forall2_map_eq related).
  - apply Forall2_filter.
    + apply (row_number_rel (renaming fv)).
      * apply fixed_reserved. unfold reserved. simpl. auto 10.
      * intros c [<-|[]]. exact fixed_unique_id.
      * exact fixed_timestamp_keys.
      * exact source_rel.
    + intros r1 r2 Hr. rewrite (col_fixed _ _ _ _ Hr); [reflexivity|].
      apply fixed_reserved. unfold reserved. simpl. auto 10.
  - intros r1 r2 Hr. apply (project_fixed (renaming fv)); [|exact Hr].
    intros c Hc. apply fixed_latest_keys. unfold latest_keys.
    apply in_app_or in Hc as [Hc|[<-|[]]]; [now right | now left].
Qed.

Lemma cleaned_select_rel (b1 b2 : row) :
  related b1 b2 -> related (cleaned_select fv b1) (cleaned_select fv b2).
Proof.
  intro Hb. unfold cleaned_select. apply row_rel_app.
  - apply row_rel_remove_cols; [exact fixed_latest_keys | exact Hb].
  - rewrite (col_fixed _ _ _ _ Hb fixed_unique_id).
    apply row_rel_refl. intros c [<-|[]]. exact fixed_unique_id.
Qed.

Lemma cleaned_rel : Forall2 related (cleaned_in true fv) (cleaned_in false fv).
Proof.
  unfold cleaned. apply Forall2_flat_map with (R := related);
    [exact base_rel|].
  intros b1 b2 Hb. rewrite latest_eq.
  rewrite (filter_ext_in (using_match (latest_keys fv) b1)
             (using_match (latest_keys fv) b2)).
  - apply Forall2_map with (R := eq).
    + apply Forall2_same. reflexivity.
    + intros; now apply cleaned_select_rel.
  - intros l Hl. unfold using_match.
    apply forallb_ext_key. intros c Hc.
    now rewrite (col_fixed _ _ _ _ Hb (fixed_latest_keys c Hc)).
Qed.

End View.

(** *** The final join in the two modes *)

Variable entity_df_columns : list string.

Local Abbreviation requests :=
  (entity_dataframe db featureviews left_table_query_string
     entity_df_event_timestamp_col).
Local Abbreviation named :=
  (well_named db featureviews left_table_query_string).
Local Abbreviation request_names :=
  (request_columns featureviews entity_df_columns).

Definition renamings : list (string * string) :=
  flat_map renaming featureviews.

Hypothesis named_qualified : named true entity_df_columns.
Hypothesis named_bare : named false entity_df_columns.
Hypothesis apart : forall fv, In fv featureviews -> features_apart fv.

Local Abbreviation related := (row_rel renamings).

Lemma renamings_fst :
  map fst renamings = flat_map (feature_columns true) featureviews.
Proof. apply renaming_names. Qed.

Lemma renamings_snd :
  map snd renamings = flat_map (feature_columns false) featureviews.
Proof. apply renaming_names. Qed.

Lemma renamings_one_to_one : one_to_one renamings.
Proof.
  intros p q Hp Hq. split; intro E.
  - f_equal. apply (NoDup_map_eq fst renamings); auto.
    rewrite renamings_fst. destruct named_qualified as [_ Hnd].
    now apply NoDup_app_remove_l in Hnd.
  - f_equal. apply (NoDup_map_eq snd renamings); auto.
    rewrite renamings_snd. destruct named_bare as [_ Hnd].
    now apply NoDup_app_remove_l in Hnd.
Qed.

Lemma request_name_fixed (c : string) :
  In c request_names -> fixed renamings c.
Proof.
  intros Hc p Hp. split; intro E.
  - destruct named_qualified as [_ Hnd].
    apply (NoDup_app_disjoint _ _ c Hnd Hc).
    rewrite <- renamings_fst, E. now apply in_map.
  - destruct named_bare as [_ Hnd].
    apply (NoDup_app_disjoint _ _ c Hnd Hc).
    rewrite <- renamings_snd, E. now apply in_map.
Qed.

Lemma unique_id_request_name (fv : FeatureViewQueryContext) :
  In fv featureviews -> In (unique_id_column fv) request_names.
Proof.
  intro H. unfold request_columns. apply in_or_app. right. right.
  now apply in_map.
Qed.

Lemma requests_rel : Forall2 related requests requests.
Proof.
  apply Forall2_same. intros e He. apply row_rel_refl. intros c Hc.
  apply request_name_fixed.
  now rewrite <- (columns_entity_dataframe db featureviews
                    left_table_query_string entity_df_event_timestamp_col
                    true entity_df_columns e named_qualified He).
Qed.

Lemma joined_select_rel (fv : FeatureViewQueryContext) :
  In fv featureviews ->
  Forall2 related
    (joined_select db featureviews left_table_query_string
       entity_df_event_timestamp_col true fv)
    (joined_select db featureviews left_table_query_string
       entity_df_event_timestamp_col false fv).
Proof.
  intro Hfv. unfold joined_select.
  apply Forall2_map with (R := row_rel (renaming fv));
    [apply cleaned_rel; now apply apart|].
  intros c1 c2 Hc. unfold project, joined_columns. cbn [map]. constructor.
  - split.
    + cbn [snd]. apply (col_fixed _ _ _ _ Hc). apply fixed_unique_id.
      now apply apart.
    + right. split; [reflexivity|]. apply request_name_fixed.
      now apply unique_id_request_name.
  - unfold feature_columns. rewrite !map_map.
    apply Forall2_map with (R := fun f g => f = g /\ In f (features fv)).
    + apply Forall2_same. auto.
    + intros f ? [<- Hf].
      assert (Hin : In (feature_alias true fv f, feature_alias false fv f)
                       (renaming fv)).
      { unfold renaming.
        now apply (in_map (fun f => (feature_alias true fv f,
                                     feature_alias false fv f))). }
      split.
      * cbn [snd]. apply (col_renamed (renaming fv)); auto.
        apply renaming_one_to_one.
      * left. cbn [fst]. unfold renamings. apply in_flat_map. now exists fv.
Qed.

Lemma null_row_rel (fv : FeatureViewQueryContext) :
  In fv featureviews ->
  related (null_row (joined_columns true fv))
    (null_row (joined_columns false fv)).
Proof.
  intro Hfv. unfold null_row, joined_columns. cbn [map]. constructor.
  - split; [reflexivity|]. right. split; [reflexivity|].
    apply request_name_fixed. now apply unique_id_request_name.
  - unfold feature_columns. rewrite !map_map.
    apply Forall2_map with (R := fun f g => f = g /\ In f (features fv)).
    + apply Forall2_same. auto.
    + intros f ? [<- Hf]. split; [reflexivity|]. left. cbn [fst].
      unfold renamings. apply in_flat_map. exists fv. split; [assumption|].
      unfold renaming.
      now apply (in_map (fun f => (feature_alias true fv f,
                                   feature_alias false fv f))).
Qed.

Lemma left_join_view_rel (fv : FeatureViewQueryContext) (T1 T2 : list row) :
  In fv featureviews -> Forall2 related T1 T2 ->
  Forall2 related
    (left_join_view db featureviews left_table_query_string
       entity_df_event_timestamp_col true T1 fv)
    (left_join_view db featureviews left_table_query_string
       entity_df_event_timestamp_col false T2 fv).
Proof.
  intros Hfv HT. unfold left_join_view, left_join_using.
  assert (Hcs : forall c, In c [unique_id_column fv] -> fixed renamings c).
  { intros c [<-|[]]. apply request_name_fixed.
    now apply unique_id_request_name. }
  apply Forall2_flat_map with (R := related); [exact HT|].
  intros l1 l2 Hl.
  assert (Hm : Forall2 related
    (filter (using_match [unique_id_column fv] l1)
       (joined_select db featureviews left_table_query_string
          entity_df_event_timestamp_col true fv))
    (filter (using_match [unique_id_column fv] l2)
       (joined_select db featureviews left_table_query_string
          entity_df_event_timestamp_col false fv))).
  { apply Forall2_filter; [now apply joined_select_rel|].
    intros s1 s2 Hs. now apply (using_match_fixed renamings). }
  inversion Hm as [|s1 s2 m1 m2 Hs Hms E1 E2].
  - constructor; [|constructor].
    apply row_rel_using_row; auto. now apply null_row_rel.
  - rewrite E1, E2. apply Forall2_map with (R := related); [exact Hm|].
    intros; now apply row_rel_using_row.
Qed.

Lemma assembled_rel :
  Forall2 related
    (assembled db featureviews left_table_query_string
       entity_df_event_timestamp_col true)
    (assembled db featureviews left_table_query_string
       entity_df_event_timestamp_col false).
Proof.
  unfold assembled.
  assert (H : forall views T1 T2,
    (forall fv, In fv views -> In fv featureviews) ->
    Forall2 related T1 T2 ->
    Forall2 related
      (fold_left (left_join_view db featureviews left_table_query_string
                    entity_df_event_timestamp_col true) views T1)
      (fold_left (left_join_view db featureviews left_table_query_string
                    entity_df_event_timestamp_col false) views T2)).
  { induction views as [|fv views IH]; intros T1 T2 Hsub HT; [exact HT|].
    cbn [fold_left]. apply IH.
    - intros fv' Hin. apply Hsub. now right.
    - apply left_join_view_rel; [apply Hsub; now left | exact HT]. }
  apply H; [auto | exact requests_rel].
Qed.

(** C6. With distinct column names in both modes, and no feature going by
    a name the template refers to, the rows selected with and without
    [full_feature_names] are the same, in the same order and with the
    same cells; only the names of the feature columns differ, [f] of a
    view [F] being named [F__f] in the qualified mode. *)
Theorem full_feature_names_only_renames :
  let final := fun full_feature_names =>
    MULTIPLE_FEATURE_VIEW_POINT_IN_TIME_JOIN db featureviews
      left_table_query_string entity_df_event_timestamp_col
      full_feature_names
      (output_feature_names entity_df_columns featureviews
         full_feature_names) in
  map (map snd) (final true) = map (map snd) (final false) /\
  (forall r, In r (final true) ->
     columns r
     = entity_df_columns
       ++ flat_map (fun fv => map (fun f => name fv +++ "__" +++ f)
                                (features fv)) featureviews) /\
  (forall r, In r (final false) ->
     columns r = entity_df_columns ++ flat_map features featureviews).
Proof.
  cbv zeta. unfold MULTIPLE_FEATURE_VIEW_POINT_IN_TIME_JOIN. split; [|split].
  - rewrite !map_map. apply (Forall2_map_eq related); [exact assembled_rel|].
    intros x1 x2 Hx. rewrite !cells_project. unfold output_feature_names.
    rewrite <- renamings_fst, <- renamings_snd, !map_app, !map_map.
    f_equal.
    + apply map_ext_in. intros c Hc. apply (col_fixed renamings); auto.
      apply request_name_fixed. unfold request_columns.
      apply in_or_app. now left.
    + apply map_ext_in. intros [a1 a2] Hp. cbn [fst snd].
      apply (col_renamed renamings); auto. apply renamings_one_to_one.
  - intros r Hr. apply in_map_iff in Hr as (x & <- & _).
    rewrite columns_project. reflexivity.
  - intros r Hr. apply in_map_iff in Hr as (x & <- & _).
    rewrite columns_project. unfold output_feature_names, feature_columns.
    f_equal. apply flat_map_ext. intro fv. cbn [feature_alias].
    apply map_id.
Qed.

End Query.
End ToggleFacts.

(* ================================================================== *)
(** ** The snapshot query *)
(* ================================================================== *)

Module SnapshotFacts.
Import Sql Py ListFacts SqlFacts WindowFacts Store.

Lemma join_nonempty (sep : string) (parts : list string) :
  ~ In "" parts -> join sep parts = "" -> parts = [].
Proof.
  destruct parts as [|x xs]; [reflexivity|]. intros Hx E. exfalso.
  unfold join in E. cbn [String.concat] in E.
  destruct x as [|c x]; [apply Hx; now left|].
  destruct xs; discriminate.
Qed.

Lemma partition_columns_keys (join_key_columns : list string) :
  ~ In "" join_key_columns ->
  partition_columns join_key_columns = join_key_columns.
Proof.
  intro H. unfold partition_columns.
  destruct (String.eqb_spec (join ", " join_key_columns) "") as [E|E];
    [|reflexivity].
  symmetry. now apply (join_nonempty ", ").
Qed.

Lemma holds_sql_between (x : value) (lo hi : Z) :
  holds (sql_between x (VInt lo) (VInt hi)) = true <->
  exists t, x = VInt t /\ lo <= t <= hi.
Proof.
  unfold sql_between, sql_ge. rewrite holds_sql_and, andb_true_iff.
  rewrite !holds_sql_le. split.
  - intros [(a & b & Ha & Hb & Hab) (c & d & Hc & Hd & Hcd)].
    injection Ha as <-. subst x. injection Hc as <-. injection Hd as <-.
    exists b. split; [reflexivity | lia].
  - intros (t & -> & Hlo & Hhi). split.
    + now exists lo, t.
    + now exists t, hi.
Qed.

Section Snapshot.

Variable DUMMY_ENTITY_ID : string.
Variable DUMMY_ENTITY_VAL : string.
Variable db : string -> list row.
Variable from_expression : string.
Variable join_key_columns : list string.
Variable feature_name_columns : list string.
Variable event_timestamp_column : string.
Variable created_timestamp_column : option string.
Variable start_date : Z.
Variable end_date : Z.

Local Abbreviation fields :=
  (field_columns join_key_columns feature_name_columns
     event_timestamp_column created_timestamp_column).
Local Abbreviation order_columns :=
  (timestamp_columns event_timestamp_column created_timestamp_column).
Local Abbreviation select :=
  (snapshot_select DUMMY_ENTITY_ID DUMMY_ENTITY_VAL join_key_columns
     feature_name_columns event_timestamp_column created_timestamp_column).
Local Abbreviation rows :=
  (snapshot_rows DUMMY_ENTITY_ID DUMMY_ENTITY_VAL db from_expression
     join_key_columns feature_name_columns event_timestamp_column
     created_timestamp_column start_date end_date).

(** The source rows inside [[start_date, end_date]]. *)
Definition in_interval (r : row) : Prop :=
  In r (db from_expression) /\
  exists t, col r event_timestamp_column = VInt t /\
            start_date <= t <= end_date.

Definition windowed : list row :=
  filter (fun r =>
            holds (sql_between (col r event_timestamp_column)
                     (VInt start_date) (VInt end_date)))
    (db from_expression).

Lemma windowed_In (r : row) : In r windowed <-> in_interval r.
Proof.
  unfold windowed, in_interval. now rewrite filter_In, holds_sql_between.
Qed.

Lemma select_project (r : row) : select (project fields r) = select r.
Proof. unfold snapshot_select. now rewrite project_project. Qed.

(** The snapshot is the first row of every join-key group of the
    windowed rows. *)
Lemma snapshot_rows_firsts :
  ~ In "_feast_row" fields ->
  rows = map select
           (firsts (partition_columns join_key_columns) order_columns
              windowed).
Proof.
  intro Hfree. unfold snapshot_rows, snapshot_ranked. fold windowed.
  change (fun r : row => holds (sql_eq (col r "_feast_row") (VInt 1)))
    with (numbered_one "_feast_row").
  rewrite <- (flat_map_map (map (project fields))
                (number_rows "_feast_row" 1)).
  rewrite filter_flat_map, rank_one_heads.
  - rewrite heads_map, !map_map. apply map_ext. intro r.
    unfold snapshot_select at 1. rewrite project_numbered.
    + apply select_project.
    + intros c Hc. now rewrite columns_project.
  - apply Forall_forall. intros p Hp. apply in_map_iff in Hp as (q & <- & _).
    apply Forall_forall. intros r Hr. apply in_map_iff in Hr as (x & <- & _).
    now rewrite columns_project.
Qed.

Lemma col_select_key (r : row) (k : string) :
  In k join_key_columns -> col (select r) k = col r k.
Proof.
  intro Hk. unfold snapshot_select.
  assert (Hin : In k fields)
    by (unfold field_columns; apply in_or_app; now left).
  rewrite col_app_in by (now rewrite columns_project).
  now apply col_project.
Qed.

Lemma select_keys (r : row) :
  map (col (select r)) join_key_columns = map (col r) join_key_columns.
Proof. apply map_ext_in. intros k Hk. now apply col_select_key. Qed.


End Snapshot.
End SnapshotFacts.

(* ================================================================== *)
(** ** Retrieval jobs and entry points *)
(* ================================================================== *)

Module JobFacts.
Import Sql Py Store.

(** *** Fixed-width digits *)

Lemma digits_length (base : N) (width : nat) (n : N) :
  List.length (digits base width n) = width.
Proof.
  revert n. induction width as [|w IH]; intro n; simpl; [reflexivity|].
  rewrite length_app, IH. simpl. lia.
Qed.

Definition is_hex_digit (c : ascii) : bool :=
  let n := N_of_ascii c in
  ((48 <=? n) && (n <=? 57) || (97 <=? n) && (n <=? 102))%N.

Lemma digit_char_hex (d : N) :
  (d < 16)%N -> is_hex_digit (digit_char 16 d) = true.
Proof.
  intro H.
  assert (E : In d [0; 1; 2; 3; 4; 5; 6; 7; 8; 9; 10; 11; 12; 13; 14; 15]%N).
  { destruct d as [|p]; [now left|]. simpl.
    do 4 (destruct p as [p|p|]; try lia; auto 20). }
  simpl in E. repeat (destruct E as [<-|E]; [reflexivity|]). destruct E.
Qed.

Lemma digits_hex (width : nat) (n : N) :
  Forall (fun c => is_hex_digit c = true) (digits 16 width n).
Proof.
  revert n. induction width as [|w IH]; intro n; simpl; [constructor|].
  apply Forall_app. split; [apply IH|]. constructor; [|constructor].
  apply digit_char_hex. apply N.mod_upper_bound. discriminate.
Qed.

Lemma length_string_of_list_ascii (l : list ascii) :
  String.length (string_of_list_ascii l) = List.length l.
Proof. induction l as [|c l IH]; simpl; [reflexivity | now rewrite IH]. Qed.

Lemma strftime_Ymd_length (d : date) : String.length (strftime_Ymd d) = 8%nat.
Proof.
  unfold strftime_Ymd. rewrite length_string_of_list_ascii.
  now rewrite !length_app, !digits_length.
Qed.

(** The first seven characters of a printed uuid are its first seven
    hexadecimal digits. *)
Lemma rand_id_digits (u : uuid) :
  slice_to 7 (str_uuid u)
  = string_of_list_ascii (firstn 7 (digits 16 32 (u mod 2 ^ 128))).
Proof.
  unfold slice_to, str_uuid. rewrite list_ascii_of_string_of_list_ascii.
  reflexivity.
Qed.

Lemma rand_id_shape (u : uuid) :
  String.length (slice_to 7 (str_uuid u)) = 7%nat /\
  Forall (fun c => is_hex_digit c = true)
    (list_ascii_of_string (slice_to 7 (str_uuid u))).
Proof.
  rewrite rand_id_digits. split.
  - rewrite length_string_of_list_ascii, length_firstn, digits_length.
    reflexivity.
  - rewrite list_ascii_of_string_of_list_ascii.
    apply Forall_forall. intros c Hc.
    pose proof (digits_hex 32 (u mod 2 ^ 128)) as H.
    rewrite Forall_forall in H. apply H.
    rewrite <- (firstn_skipn 7). apply in_or_app. now left.
Qed.

Section Jobs.

Variable OnDemandFeatureView : Type.
Variable project_of : Trino -> string.
Variable execute_query : list string -> string -> result QueryResult.

Local Abbreviation job_type := (TrinoRetrievalJob OnDemandFeatureView).
Local Abbreviation export := (to_trino project_of execute_query).


End Jobs.

Definition is_trino_source (data_source : DataSource) : bool :=
  match data_source with TrinoSource _ => true | OtherSource _ => false end.

Definition is_trino_store (config : RepoConfig) : bool :=
  match offline_store config with
  | TrinoStore _ => true
  | OtherStore _ => false
  end.

Definition is_query (entity_df : EntityDf) : bool :=
  match entity_df with EntityQuery _ => true | _ => false end.

Section Entry.

Variable OnDemandFeatureView : Type.
Variable FeatureView : Type.
Variable Registry : Type.
Variable dtype : Type.
Variable DUMMY_ENTITY_ID : string.
Variable DUMMY_ENTITY_VAL : string.
Variable str_datetime : Z -> string.
Variable execute_query : list string -> string -> result QueryResult.
Variable get_temp_entity_table_name : string.
Variable entity_schema_of : QueryResult -> list (string * dtype).
Variable infer_event_timestamp_from_entity_df :
  list (string * dtype) -> result string.
Variable get_expected_join_keys :
  string -> list FeatureView -> Registry -> list string.
Variable assert_expected_columns_in_entity_df :
  list (string * dtype) -> list string -> string -> result unit.
Variable get_feature_view_query_context :
  list string -> list FeatureView -> Registry -> string ->
  result (list Template.FeatureViewQueryContext).
Variable build_point_in_time_query :
  list Template.FeatureViewQueryContext -> string -> string ->
  list string -> bool -> string.
Variable get_requested_odfvs :
  list string -> string -> Registry -> list OnDemandFeatureView.

Local Abbreviation pull_latest :=
  (pull_latest_from_table_or_query OnDemandFeatureView DUMMY_ENTITY_ID
     DUMMY_ENTITY_VAL str_datetime).
Local Abbreviation historical :=
  (get_historical_features OnDemandFeatureView FeatureView Registry dtype
     execute_query get_temp_entity_table_name entity_schema_of
     infer_event_timestamp_from_entity_df get_expected_join_keys
     assert_expected_columns_in_entity_df get_feature_view_query_context
     build_point_in_time_query get_requested_odfvs).

(** C10. Every job [pull_latest_from_table_or_query] returns has
    [full_feature_names] false and no on-demand feature views, and it
    returns a job for every Trino source and Trino store configuration. *)
Theorem pull_latest_job_defaults (config : RepoConfig)
  (data_source : DataSource)
  (join_key_columns feature_name_columns : list string)
  (event_timestamp_column : string) (created_timestamp_column : option string)
  (start_date end_date : Z) :
  (forall job,
     pull_latest config data_source join_key_columns feature_name_columns
       event_timestamp_column created_timestamp_column start_date end_date
     = Ok job ->
     full_feature_names job = false /\
     on_demand_feature_views job = None) /\
  (is_trino_source data_source = true -> is_trino_store config = true ->
   exists job,
     pull_latest config data_source join_key_columns feature_name_columns
       event_timestamp_column created_timestamp_column start_date end_date
     = Ok job).
Proof.
  unfold pull_latest_from_table_or_query, is_trino_source, is_trino_store.
  destruct data_source as [from_expression|t];
    destruct (offline_store config) as [c|t']; split;
    try discriminate; try (intros job H; discriminate H).
  - intros job H. injection H as <-. split; reflexivity.
  - intros _ _. eexists. reflexivity.
Qed.


End Entry.

End JobFacts.

(* ================================================================== *)
(** ** Where the cells of the result come from *)
(* ================================================================== *)

Module LineageFacts.
Import Sql ListFacts SqlFacts WindowFacts Template.
Import JoinFacts LatestFacts AssemblyFacts.

Lemma append_inj_r (a b s : string) : a +++ s = b +++ s -> a = b.
Proof.
  revert b. induction a as [|c a IH]; intros [|d b] H.
  - reflexivity.
  - exfalso. apply (f_equal String.length) in H.
    cbn in H. rewrite length_append in H. lia.
  - exfalso. apply (f_equal String.length) in H.
    cbn in H. rewrite length_append in H. lia.
  - cbn in H. injection H as -> H. f_equal. now apply IH.
Qed.

Lemma sql_concat_text (vs : list value) :
  (forall v, In v vs -> v <> VNull) ->
  (forall v, In v vs -> v = cast_varchar v) ->
  exists s, sql_concat vs = VStr s.
Proof.
  induction vs as [|v vs IH]; intros Hnn Hc; [now exists ""|].
  destruct IH as (t & Ht).
  - intros w Hw. apply Hnn. now right.
  - intros w Hw. apply Hc. now right.
  - destruct v as [|n|s].
    + exfalso. now apply (Hnn VNull); [left|].
    + specialize (Hc (VInt n) (or_introl eq_refl)). discriminate Hc.
    + cbn [sql_concat]. rewrite Ht. now exists (s +++ t).
Qed.

Lemma cast_varchar_idem (v : value) :
  cast_varchar v = cast_varchar (cast_varchar v).
Proof. now destruct v. Qed.

Lemma cast_varchar_null (v : value) : cast_varchar v = VNull <-> v = VNull.
Proof. destruct v; split; intro H; try discriminate; reflexivity. Qed.

(** The cell under a key of an association. *)
Lemma col_map_first {A : Type} (key : A -> string) (cell : A -> value)
  (l : list A) (a : A) :
  (forall x, In x l -> key x = key a -> cell x = cell a) -> In a l ->
  col (map (fun x => (key x, cell x)) l) (key a) = cell a.
Proof.
  induction l as [|x l IH]; intros Hsame Hin; [contradiction|].
  cbn [map col]. destruct (String.eqb_spec (key x) (key a)) as [E|E].
  - apply Hsame; [now left | assumption].
  - destruct Hin as [->|Hin]; [contradiction|].
    apply IH; [|assumption]. intros y Hy. apply Hsame. now right.
Qed.

Lemma col_map_key {A : Type} (key : A -> string) (cell : A -> value)
  (l : list A) (a : A) :
  NoDup (map key l) -> In a l ->
  col (map (fun x => (key x, cell x)) l) (key a) = cell a.
Proof.
  intros Hnd Hin. apply col_map_first; [|assumption].
  intros x Hx E. f_equal. now apply (NoDup_map_eq key l).
Qed.

Lemma not_in_columns_remove_cols (cs : list string) (r : row) (c : string) :
  In c cs -> ~ In c (columns (remove_cols cs r)).
Proof.
  intros Hc Hin. unfold columns, remove_cols in Hin.
  apply in_map_iff in Hin as ([c' v] & <- & Hf).
  apply filter_In in Hf as [_ Hf]. cbn [fst] in *.
  apply negb_true_iff in Hf. unfold mem in Hf.
  assert (Ht : existsb (String.eqb c') cs = true).
  { apply existsb_exists. exists c'. split; [assumption|].
    apply String.eqb_refl. }
  congruence.
Qed.

Lemma feature_alias_inj (full : bool) (fv : FeatureViewQueryContext)
  (f g : string) :
  feature_alias full fv f = feature_alias full fv g -> f = g.
Proof.
  unfold feature_alias. destruct full; [|auto].
  intro H. now apply append_inj_l, append_inj_l in H.
Qed.

Section Query.

Variable db : string -> list row.
Variable featureviews : list FeatureViewQueryContext.
Variable left_table_query_string : string.
Variable entity_df_event_timestamp_col : string.
Variable full_feature_names : bool.
Variable entity_df_columns : list string.

Local Abbreviation requests :=
  (entity_dataframe db featureviews left_table_query_string
     entity_df_event_timestamp_col).
Local Abbreviation requests_of :=
  (fv_entity_dataframe db featureviews left_table_query_string
     entity_df_event_timestamp_col).
Local Abbreviation select := (subquery_select full_feature_names).
Local Abbreviation pairs :=
  (base_pairs db featureviews left_table_query_string
     entity_df_event_timestamp_col full_feature_names).
Local Abbreviation base_of :=
  (base db featureviews left_table_query_string
     entity_df_event_timestamp_col full_feature_names).
Local Abbreviation cleaned_of :=
  (cleaned db featureviews left_table_query_string
     entity_df_event_timestamp_col full_feature_names).
Local Abbreviation view_rows :=
  (joined_select db featureviews left_table_query_string
     entity_df_event_timestamp_col full_feature_names).
Local Abbreviation partners_of :=
  (partners db featureviews left_table_query_string
     entity_df_event_timestamp_col full_feature_names).
Local Abbreviation rows_of :=
  (request_rows db featureviews left_table_query_string
     entity_df_event_timestamp_col full_feature_names).
Local Abbreviation view_columns := (feature_columns full_feature_names).
Local Abbreviation named :=
  (well_named db featureviews left_table_query_string full_feature_names
     entity_df_columns).
Local Abbreviation request_names :=
  (request_columns featureviews entity_df_columns).

(** *** Source rows and request rows that meet *)

(** The source row [r] of a view is in the window of the request row [e]
    and has its join keys. *)
Definition meets (fv : FeatureViewQueryContext) (r e : row) : Prop :=
  (forall k, In k (entities fv) ->
             col (select fv r) k = col e k /\ col e k <> VNull) /\
  exists t te,
    col r (event_timestamp_column fv) = VInt t /\
    col e "entity_timestamp" = VInt te /\
    t <= te /\ (ttl fv = 0 \/ te - interval_second (ttl fv) <= t).

(** The grouped request row of a request row. *)
Definition grouped (fv : FeatureViewQueryContext) (e : row) : row :=
  project (fv_entity_columns fv) e.

Lemma requests_of_In (fv : FeatureViewQueryContext) (g : row) :
  In g (requests_of fv) <-> exists e, In e requests /\ g = grouped fv e.
Proof.
  unfold fv_entity_dataframe. rewrite nodup_In, in_map_iff.
  split; intros (e & H1 & H2); exists e; auto.
Qed.

Lemma col_grouped (fv : FeatureViewQueryContext) (e : row) (c : string) :
  In c (entities fv) \/ c = "entity_timestamp" \/ c = unique_id_column fv ->
  col (grouped fv e) c = col e c.
Proof.
  intro H. apply col_project. unfold fv_entity_columns.
  apply in_or_app. destruct H as [H | [-> | ->]]; [now left|right..].
  - now left.
  - right. now left.
Qed.

Lemma meets_grouped (fv : FeatureViewQueryContext) (r e : row) :
  meets fv r (grouped fv e) <-> meets fv r e.
Proof.
  unfold meets. rewrite (col_grouped fv e "entity_timestamp") by auto.
  split; intros [Hk Ht]; (split; [|exact Ht]); intros k Hin;
    specialize (Hk k Hin).
  - now rewrite (col_grouped fv e k) in Hk by auto.
  - now rewrite (col_grouped fv e k) by auto.
Qed.

(** The joined rows of a view, by the source row and the request row they
    stem from. *)
Lemma base_In (fv : FeatureViewQueryContext) (b : row) :
  In b (base_of fv) <->
  exists r e,
    In r (db (table_subquery fv)) /\ In e requests /\ meets fv r e /\
    b = base_select fv (select fv r, grouped fv e).
Proof.
  unfold base. rewrite in_map_iff. split.
  - intros ([s g] & <- & Hp). unfold base_pairs in Hp.
    apply filter_In in Hp as [Hp Hon].
    apply in_prod_iff in Hp as [Hs Hg]. cbn [fst snd] in Hon.
    unfold subquery in Hs. apply in_map_iff in Hs as (r & <- & Hr).
    apply filter_In in Hr as [Hr _].
    apply requests_of_In in Hg as (e & He & ->).
    exists r, e. split; [assumption|]. split; [assumption|].
    split; [|reflexivity]. apply meets_grouped.
    apply base_on_spec in Hon as (Hk & Ht).
    split; [|exact Ht]. intros k' Hin. destruct (Hk k' Hin) as [E Hn].
    split; congruence.
  - intros (r & e & Hr & He & Hm & ->).
    exists (select fv r, grouped fv e). split; [reflexivity|].
    unfold base_pairs. apply filter_In. cbn [fst snd].
    assert (Hg : In (grouped fv e) (requests_of fv))
      by (apply requests_of_In; now exists e).
    apply meets_grouped in Hm.
    destruct Hm as (Hk & t & te & Ht & Hte & Hle & Hlo).
    split.
    + apply in_prod; [|assumption]. unfold subquery. apply in_map.
      apply filter_In. split; [assumption|].
      apply subquery_where_window. exists t. split; [assumption|].
      destruct (some_entity_timestamp db featureviews left_table_query_string
                  entity_df_event_timestamp_col fv _ Hg) as (e' & Hin & He').
      rewrite Hte in He'.
      assert (Hv : In (VInt te)
                     (map (fun e => col e "entity_timestamp") requests)).
      { rewrite <- He'.
        now apply (in_map (fun e => col e "entity_timestamp")). }
      split.
      * destruct (sql_max_bounds _ _ Hv) as (hi & Hhi & Hge).
        exists hi. split; [now apply max_entity_timestamp_spec | lia].
      * destruct Hlo as [Hz|Hlo]; [now left | right].
        destruct (sql_min_bounds _ _ Hv) as (lo & Hlo' & Hge).
        exists lo. split; [now apply min_entity_timestamp_spec | lia].
    + apply base_on_spec. split; [|now exists t, te].
      intros k' Hin. destruct (Hk k' Hin) as [E Hn]. split; congruence.
Qed.

(** *** Cells of the rows of a view *)

(** No feature and no join key of the view goes by a name the template
    uses for a column of its own. *)
Definition names_apart (fv : FeatureViewQueryContext) : Prop :=
  (forall f, In f (features fv) ->
     ~ In (feature_alias full_feature_names fv f)
         ("event_timestamp" :: "created_timestamp"
          :: map snd (entity_selections fv))) /\
  ~ In (unique_id_column fv)
      (map snd (entity_selections fv) ++ view_columns fv) /\
  row_number_free full_feature_names fv.

Lemma unique_id_not_selected (fv : FeatureViewQueryContext) :
  names_apart fv ->
  ~ In (unique_id_column fv) (subquery_columns full_feature_names fv).
Proof.
  intros (_ & Hu & _) Hin. unfold subquery_columns in Hin.
  destruct Hin as [E|Hin].
  - symmetry in E. now apply unique_id_column_fresh in E; [|simpl; lia].
  - apply in_app_or in Hin as [Hin|Hin]; [|contradiction].
    destruct (has_created fv); [|contradiction].
    destruct Hin as [E|[]]. symmetry in E.
    now apply unique_id_column_fresh in E; [|simpl; lia].
Qed.

Lemma col_select_feature (fv : FeatureViewQueryContext) (r : row)
  (f : string) :
  names_apart fv -> In f (features fv) ->
  col (select fv r) (feature_alias full_feature_names fv f) = col r f.
Proof.
  intros (Hf & _) Hin. specialize (Hf f Hin). unfold subquery_select.
  cbn [col].
  destruct (String.eqb_spec "event_timestamp"
              (feature_alias full_feature_names fv f)) as [E|_];
    [exfalso; apply Hf; now left|].
  rewrite col_app_notin.
  - rewrite col_app_notin.
    + apply (col_map_first (feature_alias full_feature_names fv)
               (fun feature => col r feature)); [|assumption].
      intros x _ E. now apply feature_alias_inj in E as ->.
    + unfold columns. rewrite map_map. cbn [fst].
      intro H. apply Hf. right. right. exact H.
  - destruct (has_created fv); [|auto].
    intros [E|[]]. apply Hf. right. now left.
Qed.

Lemma col_select_created (fv : FeatureViewQueryContext) (r : row) :
  has_created fv = true ->
  col (select fv r) "created_timestamp" = col r (created_column fv).
Proof. intro H. unfold subquery_select. now rewrite H. Qed.

Definition base_row (fv : FeatureViewQueryContext) (r e : row) : row :=
  base_select fv (select fv r, grouped fv e).

Lemma col_base_row_selected (fv : FeatureViewQueryContext) (r e : row)
  (c : string) :
  In c (subquery_columns full_feature_names fv) ->
  col (base_row fv r e) c = col (select fv r) c.
Proof.
  intro H. unfold base_row, base_select. cbn [fst snd].
  apply col_app_in. now rewrite columns_subquery_select.
Qed.

Lemma col_base_row_unique_id (fv : FeatureViewQueryContext) (r e : row) :
  names_apart fv ->
  col (base_row fv r e) (unique_id_column fv) = col e (unique_id_column fv).
Proof.
  intro Hn. unfold base_row, base_select. cbn [fst snd].
  rewrite col_app_notin
    by (rewrite columns_subquery_select; now apply unique_id_not_selected).
  cbn [col]. rewrite String.eqb_sym, eqb_unique_id_column by (simpl; lia).
  rewrite String.eqb_refl. apply col_grouped. auto.
Qed.

Lemma col_base_row_event (fv : FeatureViewQueryContext) (r e : row) :
  col (base_row fv r e) "event_timestamp" = col r (event_timestamp_column fv).
Proof. reflexivity. Qed.

Lemma col_base_row_created (fv : FeatureViewQueryContext) (r e : row) :
  has_created fv = true ->
  col (base_row fv r e) "created_timestamp" = col r (created_column fv).
Proof.
  intro H. rewrite col_base_row_selected.
  - now apply col_select_created.
  - unfold subquery_columns. rewrite H. right. now left.
Qed.

Lemma col_base_row_feature (fv : FeatureViewQueryContext) (r e : row)
  (f : string) :
  names_apart fv -> In f (features fv) ->
  col (base_row fv r e) (feature_alias full_feature_names fv f) = col r f.
Proof.
  intros Hn Hf. rewrite col_base_row_selected.
  - now apply col_select_feature.
  - unfold subquery_columns. right. apply in_or_app. right.
    apply in_or_app. right. now apply in_map.
Qed.

(** The row a joined row contributes to the final join. *)
Definition view_row (fv : FeatureViewQueryContext) (b : row) : row :=
  project (joined_columns full_feature_names fv) (cleaned_select fv b).

Lemma col_view_row_unique_id (fv : FeatureViewQueryContext) (b : row) :
  col (view_row fv b) (unique_id_column fv) = col b (unique_id_column fv).
Proof.
  unfold view_row. rewrite col_project by now left.
  unfold cleaned_select. rewrite col_app_notin.
  - cbn [col]. now rewrite String.eqb_refl.
  - apply not_in_columns_remove_cols. now left.
Qed.

Lemma col_view_row_feature (fv : FeatureViewQueryContext) (b : row)
  (f : string) :
  names_apart fv -> In b (base_of fv) -> In f (features fv) ->
  col (view_row fv b) (feature_alias full_feature_names fv f)
  = col b (feature_alias full_feature_names fv f).
Proof.
  intros Hn Hb Hf. unfold view_row.
  assert (Hin : In (feature_alias full_feature_names fv f)
                  (view_columns fv)) by now apply in_map.
  rewrite col_project by now right.
  assert (Hout : ~ In (feature_alias full_feature_names fv f)
                     (latest_keys fv)).
  { destruct Hn as (Hfeat & Hu & _). specialize (Hfeat f Hf).
    unfold latest_keys, timestamp_keys. intros [E|[E|Hc]].
    - apply Hu. apply in_or_app. right. now rewrite E.
    - apply Hfeat. now left.
    - destruct (has_created fv); [|contradiction].
      destruct Hc as [E|[]]. apply Hfeat. right. now left. }
  unfold cleaned_select. rewrite col_app_in.
  - now apply col_remove_cols.
  - apply in_columns_remove_cols; [|assumption].
    rewrite (base_row_columns _ _ _ _ _ fv b Hb).
    unfold base_columns, subquery_columns. apply in_or_app. left. right.
    apply in_or_app. right. apply in_or_app. now right.
Qed.

(** *** The rows a view contributes *)

(** What [<name>__cleaned] keeps of the joined rows. *)
Definition kept (fv : FeatureViewQueryContext) (b : row) : Prop :=
  if has_created fv
  then latest_by_event_then_created db featureviews left_table_query_string
         entity_df_event_timestamp_col full_feature_names fv b
  else latest_by_event db featureviews left_table_query_string
         entity_df_event_timestamp_col full_feature_names fv b.

Lemma cleaned_kept (fv : FeatureViewQueryContext) (c : row) :
  names_apart fv ->
  (In c (cleaned_of fv) <->
   exists b, In b (base_of fv) /\ kept fv b /\ c = cleaned_select fv b).
Proof.
  intros (_ & _ & Hfree). rewrite cleaned_In. unfold kept.
  split; intros (b & Hb & H).
  - destruct H as (-> & Hl). exists b. split; [assumption|].
    split; [|reflexivity]. apply (survives_first _ _ _ _ _ fv b Hfree) in Hl.
    destruct (has_created fv) eqn:Hc.
    + now apply (survives_with_created _ _ _ _ _ fv b Hc Hb).
    + now apply (survives_without_created _ _ _ _ _ fv b Hc Hb).
  - destruct H as (Hk & ->). exists b. split; [assumption|].
    split; [reflexivity|]. apply (survives_first _ _ _ _ _ fv b Hfree).
    destruct (has_created fv) eqn:Hc.
    + now apply (survives_with_created _ _ _ _ _ fv b Hc Hb).
    + now apply (survives_without_created _ _ _ _ _ fv b Hc Hb).
Qed.

Lemma view_rows_In (fv : FeatureViewQueryContext) (p : row) :
  names_apart fv ->
  (In p (view_rows fv) <->
   exists b, In b (base_of fv) /\ kept fv b /\ p = view_row fv b).
Proof.
  intro Hn. unfold joined_select. rewrite in_map_iff. split.
  - intros (c & <- & Hc).
    apply (cleaned_kept fv c Hn) in Hc as (b & Hb & Hk & ->).
    now exists b.
  - intros (b & Hb & Hk & ->). exists (cleaned_select fv b).
    split; [reflexivity|]. apply (cleaned_kept fv _ Hn). now exists b.
Qed.

Lemma partners_In (fv : FeatureViewQueryContext) (e p : row) :
  In p (partners_of fv e) <->
  In p (view_rows fv) /\
  col e (unique_id_column fv) = col p (unique_id_column fv) /\
  col e (unique_id_column fv) <> VNull.
Proof.
  unfold partners. rewrite filter_In, using_match_spec. split.
  - intros [Hp Hm]. split; [assumption|]. apply Hm. now left.
  - intros (Hp & E & Hn). split; [assumption|].
    intros c [<-|[]]. now split.
Qed.

(** *** The latest source row of a request *)

Local Abbreviation event_of := (fun fv r => col r (event_timestamp_column fv)).
Local Abbreviation created_of := (fun fv r => col r (created_column fv)).

(** The source row [r'] does not outdate the source row [r].  Without a
    created timestamp declared, its event timestamp is not later.  With
    one declared, [r] has a created timestamp, and [r'] is compared only
    when it has one too: its event timestamp is then earlier, or equal
    with a created timestamp that is not later. *)
Definition not_outdated_by (fv : FeatureViewQueryContext) (r r' : row)
  : Prop :=
  exists t t',
    event_of fv r = VInt t /\ event_of fv r' = VInt t' /\
    if has_created fv
    then exists c, created_of fv r = VInt c /\
                   forall c', created_of fv r' = VInt c' ->
                              t' < t \/ (t' = t /\ c' <= c)
    else t' <= t.

(** A source row can be chosen when the view declares no created
    timestamp or the row has one. *)
Definition eligible (fv : FeatureViewQueryContext) (r : row) : Prop :=
  has_created fv = true -> exists c, created_of fv r = VInt c.

(** [r] is eligible and no source row that meets a request row with the
    unique id of [e] outdates it. *)
Definition latest_for (fv : FeatureViewQueryContext) (r e : row) : Prop :=
  eligible fv r /\
  forall r' e',
    In r' (db (table_subquery fv)) -> In e' requests -> meets fv r' e' ->
    col e' (unique_id_column fv) = col e (unique_id_column fv) ->
    not_outdated_by fv r r'.

Lemma kept_base_row (fv : FeatureViewQueryContext) (r e : row) :
  names_apart fv ->
  In r (db (table_subquery fv)) -> In e requests -> meets fv r e ->
  (kept fv (base_row fv r e) <->
   col e (unique_id_column fv) <> VNull /\ latest_for fv r e).
Proof.
  intros Hn Hr He Hm. unfold kept, latest_for, eligible, not_outdated_by.
  pose proof Hm as (_ & t & te & Ht & _).
  destruct (has_created fv) eqn:Hc.
  - unfold latest_by_event_then_created.
    fold (base_row fv r e).
    rewrite (col_base_row_unique_id fv r e Hn), col_base_row_event,
      (col_base_row_created fv r e Hc).
    split.
    + intros (Hu & t0 & c & Ht0 & Hcr & Hmax).
      rewrite Ht in Ht0. injection Ht0 as <-.
      split; [assumption|]. split; [intros _; now exists c|].
      intros r' e' Hr' He' Hm' Hu'.
      pose proof Hm' as (_ & t' & te' & Ht' & _).
      exists t, t'. split; [assumption|]. split; [assumption|].
      exists c. split; [assumption|]. intros c' Hc'.
      apply (Hmax (base_row fv r' e') t' c').
      * apply base_In. now exists r', e'.
      * now rewrite (col_base_row_unique_id fv r' e' Hn).
      * now rewrite col_base_row_event.
      * now rewrite (col_base_row_created fv r' e' Hc).
    + intros (Hu & Hel & Hmax). destruct (Hel eq_refl) as (c & Hcr).
      split; [assumption|]. exists t, c.
      split; [assumption|]. split; [assumption|].
      intros b' t' c' Hb' Hu' Ht' Hc'.
      apply base_In in Hb' as (r' & e' & Hr' & He' & Hm' & ->).
      fold (base_row fv r' e') in Hu', Ht', Hc'.
      rewrite (col_base_row_unique_id fv r' e' Hn) in Hu'.
      rewrite col_base_row_event in Ht'.
      rewrite (col_base_row_created fv r' e' Hc) in Hc'.
      destruct (Hmax r' e' Hr' He' Hm' Hu')
        as (t1 & t1' & E1 & E1' & c1 & Ec1 & Hle).
      rewrite Ht in E1. injection E1 as <-.
      rewrite Ht' in E1'. injection E1' as <-.
      rewrite Hcr in Ec1. injection Ec1 as <-.
      now apply Hle.
  - unfold latest_by_event. fold (base_row fv r e).
    rewrite (col_base_row_unique_id fv r e Hn), col_base_row_event.
    split.
    + intros (Hu & t0 & Ht0 & Hmax).
      rewrite Ht in Ht0. injection Ht0 as <-.
      split; [assumption|]. split; [discriminate|].
      intros r' e' Hr' He' Hm' Hu'.
      pose proof Hm' as (_ & t' & te' & Ht' & _).
      exists t, t'. split; [assumption|]. split; [assumption|].
      apply (Hmax (base_row fv r' e') t').
      * apply base_In. now exists r', e'.
      * now rewrite (col_base_row_unique_id fv r' e' Hn).
      * now rewrite col_base_row_event.
    + intros (Hu & _ & Hmax). split; [assumption|]. exists t.
      split; [assumption|]. intros b' t' Hb' Hu' Ht'.
      apply base_In in Hb' as (r' & e' & Hr' & He' & Hm' & ->).
      fold (base_row fv r' e') in Hu', Ht'.
      rewrite (col_base_row_unique_id fv r' e' Hn) in Hu'.
      rewrite col_base_row_event in Ht'.
      destruct (Hmax r' e' Hr' He' Hm' Hu') as (t1 & t1' & E1 & E1' & Hle).
      rewrite Ht in E1. injection E1 as <-.
      rewrite Ht' in E1'. injection E1' as <-. exact Hle.
Qed.

(** A partner of a request row stems from the latest source row of a
    request row with the same unique id. *)
Lemma partner_source (fv : FeatureViewQueryContext) (e p : row) :
  names_apart fv -> In p (partners_of fv e) ->
  exists r e',
    In r (db (table_subquery fv)) /\ In e' requests /\ meets fv r e' /\
    col e' (unique_id_column fv) = col e (unique_id_column fv) /\
    latest_for fv r e' /\ p = view_row fv (base_row fv r e').
Proof.
  intros Hn Hp. apply partners_In in Hp as (Hp & Hu & Hnn).
  apply (view_rows_In fv p Hn) in Hp as (b & Hb & Hk & ->).
  apply base_In in Hb as (r & e' & Hr & He' & Hm & ->).
  fold (base_row fv r e') in Hk, Hu |- *.
  apply (kept_base_row fv r e' Hn Hr He' Hm) in Hk as [_ Hl].
  rewrite col_view_row_unique_id, (col_base_row_unique_id fv r e' Hn) in Hu.
  exists r, e'. repeat (split; [first [assumption | now symmetry]|]).
  reflexivity.
Qed.

(** A request row with a unique id has a partner as soon as an eligible
    source row meets it. *)
Lemma partner_exists (fv : FeatureViewQueryContext) (r e : row) :
  names_apart fv -> In r (db (table_subquery fv)) -> In e requests ->
  meets fv r e -> eligible fv r -> col e (unique_id_column fv) <> VNull ->
  partners_of fv e <> [].
Proof.
  intros Hn Hr He Hm Hel Hu.
  assert (Hb0 : In (base_row fv r e) (base_of fv))
    by (apply base_In; now exists r, e).
  assert (Hkept : exists b, In b (base_of fv) /\ kept fv b /\
                            col b (unique_id_column fv)
                            = col e (unique_id_column fv)).
  { unfold kept. destruct (has_created fv) eqn:Hc.
    - destruct (Hel Hc) as (c0 & Hc0).
      set (u := col e (unique_id_column fv)) in *.
      set (t := col r (event_timestamp_column fv)).
      assert (Hin : In (VInt c0)
                (map (fun b => col b "created_timestamp")
                   (filter (in_group (fun b => map (col b) (dedup_keys fv))
                              [u; t]) (base_of fv)))).
      { rewrite <- Hc0, <- (col_base_row_created fv r e Hc).
        apply (in_map (fun b => col b "created_timestamp")).
        apply filter_In. split; [assumption|]. apply in_group_true.
        unfold dedup_keys. cbn [map].
        now rewrite (col_base_row_unique_id fv r e Hn), col_base_row_event. }
      destruct (sql_max_bounds _ _ Hin) as (m & Hmax & _).
      fold (latest_created db featureviews left_table_query_string
              entity_df_event_timestamp_col full_feature_names fv u t)
        in Hmax.
      apply latest_created_spec in Hmax
        as ((b1 & Hb1 & Hu1 & Ht1 & Hc1) & Hle).
      assert (Hx : In (joined_row db featureviews left_table_query_string
                         entity_df_event_timestamp_col full_feature_names
                         fv b1)
                      (latest_source db featureviews left_table_query_string
                         entity_df_event_timestamp_col full_feature_names
                         fv)).
      { apply (source_with_created _ _ _ _ _ fv _ Hc). exists b1, m.
        split; [assumption|]. split; [reflexivity|].
        split; [now rewrite Hu1|]. split; [assumption|].
        intros b' c' Hb' Hu' Ht'. apply (Hle b' c' Hb'); congruence. }
      destruct (firsts_complete [unique_id_column fv] (timestamp_keys fv)
                  _ _ Hx) as (h & Hh & Huh).
      assert (Huh' : col h (unique_id_column fv)
                     = col (joined_row db featureviews
                              left_table_query_string
                              entity_df_event_timestamp_col
                              full_feature_names fv b1)
                         (unique_id_column fv))
        by (cbn [map] in Huh; congruence).
      clear Huh. rename Huh' into Huh.
      pose proof Hh as Hh'. apply firsts_sound in Hh' as [Hh' _].
      apply (source_with_created _ _ _ _ _ fv _ Hc) in Hh'
        as (b2 & m2 & Hb2 & -> & Hu2 & Hc2 & _).
      rewrite !col_joined_row in Huh by now left.
      exists b2. split; [assumption|]. split; [|congruence].
      apply (survives_with_created _ _ _ _ _ fv b2 Hc Hb2).
      eexists. split; [exact Hh|].
      unfold latest_keys, timestamp_keys. rewrite Hc.
      intros c Hin'. rewrite col_joined_row by exact Hin'.
      split; [reflexivity|].
      destruct Hin' as [<-|[<-|[<-|[]]]]; [assumption| |congruence].
      destruct (base_event_timestamp _ _ _ _ _ fv b2 Hb2) as (t2 & ->).
      discriminate.
    - assert (Hsrc : latest_source db featureviews left_table_query_string
                       entity_df_event_timestamp_col full_feature_names fv
                     = base_of fv)
        by (unfold latest_source; now rewrite Hc).
      destruct (firsts_complete [unique_id_column fv] (timestamp_keys fv)
                  _ _ Hb0) as (h & Hh & Huh).
      pose proof Hh as Hh'. apply firsts_sound in Hh' as [Hh' _].
      assert (Huh' : col h (unique_id_column fv)
                     = col (base_row fv r e) (unique_id_column fv))
        by (cbn [map] in Huh; congruence).
      clear Huh. rename Huh' into Huh.
      rewrite (col_base_row_unique_id fv r e Hn) in Huh.
      exists h. split; [assumption|]. split; [|assumption].
      apply (survives_without_created _ _ _ _ _ fv h Hc Hh').
      exists h. split; [now rewrite Hsrc|].
      unfold latest_keys, timestamp_keys. rewrite Hc.
      intros c Hin'. split; [reflexivity|].
      destruct Hin' as [<-|[<-|[]]]; [congruence|].
      destruct (base_event_timestamp _ _ _ _ _ fv h Hh') as (t2 & ->).
      discriminate. }
  destruct Hkept as (b & Hb & Hk & Hub).
  assert (Hp : In (view_row fv b) (partners_of fv e)).
  { apply partners_In. split.
    - apply (view_rows_In fv _ Hn). now exists b.
    - rewrite col_view_row_unique_id. split; [now symmetry | assumption]. }
  intro E. now rewrite E in Hp.
Qed.

(** *** The cells of a final row *)

Local Abbreviation padded_by :=
  (padded db featureviews left_table_query_string
     entity_df_event_timestamp_col full_feature_names entity_df_columns).

(** The feature cells of [x] under the views [done] are those of a
    partner of the request row [e], where it has one. *)
Definition fed (done : list FeatureViewQueryContext) (e x : row) : Prop :=
  forall fv, In fv done -> partners_of fv e <> [] ->
  exists p, In p (partners_of fv e) /\
            forall f, In f (view_columns fv) -> col x f = col p f.

Lemma fed_step (done : list FeatureViewQueryContext)
  (fv : FeatureViewQueryContext) (e x x' : row) :
  In (unique_id_column fv) request_names ->
  NoDup (request_names ++ flat_map view_columns (done ++ [fv])) ->
  padded_by done e x -> fed done e x ->
  In x' (left_join_row [unique_id_column fv]
           (joined_columns full_feature_names fv) (view_rows fv) x) ->
  fed (done ++ [fv]) e x'.
Proof.
  intros Huid Hnd (Hreq & Hsub & Hsup & _) Hfed Hx' fv' Hin Hsome.
  rewrite flat_map_app in Hnd. cbn [flat_map] in Hnd.
  rewrite app_nil_r in Hnd.
  assert (Hsame : partners_of fv x = partners_of fv e)
    by (apply partners_ext; now apply Hreq).
  assert (Hshape : exists s, x' = using_row [unique_id_column fv] x s /\
                             (partners_of fv e <> [] ->
                              In s (partners_of fv e))).
  { unfold left_join_row in Hx'. fold (partners_of fv x) in Hx'.
    rewrite Hsame in Hx'. destruct (partners_of fv e) as [|m ms].
    - destruct Hx' as [<-|[]]. eexists. split; [reflexivity|].
      now intros [].
    - apply in_map_iff in Hx' as (s & <- & Hs). now exists s. }
  destruct Hshape as (s & -> & Hs).
  apply in_app_or in Hin as [Hin|[<-|[]]].
  - destruct (Hfed fv' Hin Hsome) as (p & Hp & Hcells).
    exists p. split; [assumption|]. intros f Hf.
    rewrite col_using_row_left; [now apply Hcells|].
    apply Hsup. right. apply in_flat_map. now exists fv'.
  - exists s. split; [now apply Hs|]. intros f Hf.
    assert (Hreqf : ~ In f request_names).
    { intro Hc. apply (NoDup_app_disjoint _ _ f Hnd Hc).
      apply in_or_app. now right. }
    apply col_using_row_right.
    + intros [E|[]]. apply Hreqf. now rewrite <- E.
    + intro Hc. apply Hsub in Hc as [Hc|Hc]; [contradiction|].
      apply NoDup_app_remove_l in Hnd.
      exact (NoDup_app_disjoint _ _ f Hnd Hc Hf).
Qed.

Lemma fed_request_rows (done todo : list FeatureViewQueryContext)
  (e x x' : row) :
  (forall fv, In fv todo -> In (unique_id_column fv) request_names) ->
  NoDup (request_names ++ flat_map view_columns (done ++ todo)) ->
  padded_by done e x -> fed done e x -> In x' (rows_of todo x) ->
  fed (done ++ todo) e x'.
Proof.
  revert done x.
  induction todo as [|fv todo IH]; intros done x Huid Hnd Hp Hf Hx'.
  - destruct Hx' as [<-|[]]. now rewrite app_nil_r.
  - rewrite request_rows_cons in Hx'.
    apply in_flat_map in Hx' as (y & Hy & Hx').
    replace (done ++ fv :: todo) with ((done ++ [fv]) ++ todo) in *
      by (now rewrite <- app_assoc).
    assert (Hnd' : NoDup (request_names
                          ++ flat_map view_columns (done ++ [fv]))).
    { rewrite flat_map_app in Hnd. rewrite app_assoc in Hnd.
      now apply NoDup_app_remove_r in Hnd. }
    assert (Hu : In (unique_id_column fv) request_names)
      by (apply Huid; now left).
    apply (IH (done ++ [fv]) y); auto.
    + intros fv' Hin. apply Huid. now right.
    + now apply (padded_step _ _ _ _ _ _ done fv e x y).
    + now apply (fed_step done fv e x y).
Qed.

Lemma final_row_cells (e x : row) :
  named -> In e requests -> In x (rows_of featureviews e) ->
  padded_by featureviews e x /\ fed featureviews e x.
Proof.
  intros Hwf He Hx.
  assert (Huid : forall fv, In fv featureviews ->
                            In (unique_id_column fv) request_names).
  { intros fv Hin. unfold request_columns. apply in_or_app. right. right.
    now apply in_map. }
  assert (Hp : padded_by [] e e).
  { pose proof (columns_entity_dataframe _ _ _ _ _ _ e Hwf He) as Hcols.
    unfold padded. rewrite Hcols. cbn [flat_map].
    split; [reflexivity|]. split; [now left|].
    split; [now intros c [Hc|[]]|]. intros ? ? []. }
  split.
  - apply (padded_request_rows _ _ _ _ _ _ [] featureviews e e x);
      auto. apply Hwf.
  - apply (fed_request_rows [] featureviews e e x); auto.
    + apply Hwf.
    + intros fv [].
Qed.

(** *** The unique id of a request row *)

Lemma request_row_In (e : row) :
  In e requests <->
  exists q, In q (db left_table_query_string) /\
            e = entity_dataframe_row featureviews
                  entity_df_event_timestamp_col q.
Proof.
  unfold entity_dataframe. rewrite in_map_iff.
  split; intros (q & H1 & H2); exists q; auto.
Qed.

Lemma col_request_own (q : row) (c : string) :
  In c (columns q) ->
  col (entity_dataframe_row featureviews entity_df_event_timestamp_col q) c
  = col q c.
Proof. intro H. unfold entity_dataframe_row. now apply col_app_in. Qed.

Lemma col_request_entity_timestamp (q : row) :
  ~ In "entity_timestamp" (columns q) ->
  col (entity_dataframe_row featureviews entity_df_event_timestamp_col q)
    "entity_timestamp"
  = col q entity_df_event_timestamp_col.
Proof.
  intro H. unfold entity_dataframe_row. now rewrite col_app_notin.
Qed.

Lemma col_request_unique_id (fv : FeatureViewQueryContext) (q : row) :
  ~ In (unique_id_column fv) (columns q) ->
  NoDup (map unique_id_column featureviews) -> In fv featureviews ->
  col (entity_dataframe_row featureviews entity_df_event_timestamp_col q)
    (unique_id_column fv)
  = entity_row_unique_id entity_df_event_timestamp_col fv q.
Proof.
  intros Hq Hnd Hin. unfold entity_dataframe_row.
  rewrite col_app_notin by assumption. cbn [col].
  rewrite String.eqb_sym, eqb_unique_id_column by (simpl; lia).
  now apply (col_map_key unique_id_column
               (fun fv => entity_row_unique_id entity_df_event_timestamp_col
                            fv q)).
Qed.

Lemma named_columns :
  named ->
  NoDup entity_df_columns /\
  ~ In "entity_timestamp" entity_df_columns /\
  NoDup (map unique_id_column featureviews) /\
  forall fv, In fv featureviews ->
             ~ In (unique_id_column fv) entity_df_columns.
Proof.
  intros [_ Hnd]. apply NoDup_app_remove_r in Hnd.
  unfold request_columns in Hnd. split; [|split; [|split]].
  - now apply NoDup_app_remove_r in Hnd.
  - intro H. apply (NoDup_app_disjoint _ _ _ Hnd H). now left.
  - apply NoDup_app_remove_l in Hnd. now inversion Hnd.
  - intros fv Hin H. apply (NoDup_app_disjoint _ _ _ Hnd H). right.
    now apply in_map.
Qed.

(** The join keys of the view are columns of the entity table. *)
Definition keys_requested (fv : FeatureViewQueryContext) : Prop :=
  forall k, In k (entities fv) -> In k entity_df_columns.

(** A request row with every join key and a timestamp has a unique id. *)
Lemma unique_id_text (fv : FeatureViewQueryContext) (e : row) :
  named -> In fv featureviews -> keys_requested fv -> In e requests ->
  (forall k, In k (entities fv) -> col e k <> VNull) ->
  col e "entity_timestamp" <> VNull ->
  col e (unique_id_column fv) <> VNull.
Proof.
  intros Hwf Hfv Hkeys He Hk Ht.
  destruct (named_columns Hwf) as (_ & Hts & Hids & Hid).
  apply request_row_In in He as (q & Hq & ->).
  assert (Hcols : columns q = entity_df_columns) by now apply Hwf.
  rewrite col_request_entity_timestamp in Ht by now rewrite Hcols.
  rewrite col_request_unique_id; auto; [|rewrite Hcols; now apply Hid].
  assert (Hcat : exists s,
            sql_concat
              (map (fun entity => cast_varchar (col q entity)) (entities fv)
               ++ [cast_varchar (col q entity_df_event_timestamp_col)])
            = VStr s).
  { apply sql_concat_text.
    - intros v Hv. apply in_app_or in Hv as [Hv|[<-|[]]].
      + apply in_map_iff in Hv as (k & <- & Hin).
        rewrite cast_varchar_null. rewrite <- (col_request_own q k).
        * now apply Hk.
        * rewrite Hcols. now apply Hkeys.
      + now rewrite cast_varchar_null.
    - intros v Hv. apply in_app_or in Hv as [Hv|[<-|[]]].
      + apply in_map_iff in Hv as (k & <- & _). apply cast_varchar_idem.
      + apply cast_varchar_idem. }
  destruct Hcat as (s & Hs). unfold entity_row_unique_id.
  destruct (entities fv) as [|k ks] eqn:E.
  - cbn [map app sql_concat] in Hs. intro H. rewrite H in Hs.
    discriminate Hs.
  - rewrite Hs. discriminate.
Qed.

Lemma sql_concat_null (vs : list value) :
  In VNull vs -> sql_concat vs = VNull.
Proof.
  induction vs as [|v vs IH]; intro H; [contradiction|].
  destruct H as [->|H]; [reflexivity|].
  destruct v; cbn [sql_concat]; auto. now rewrite IH.
Qed.

(** A request row that lacks a join key of the view, or its timestamp,
    has no unique id for the view. *)
Lemma unique_id_null (fv : FeatureViewQueryContext) (e : row) :
  named -> In fv featureviews -> keys_requested fv -> In e requests ->
  (exists k, In k (entities fv) /\ col e k = VNull) \/
  col e "entity_timestamp" = VNull ->
  col e (unique_id_column fv) = VNull.
Proof.
  intros Hwf Hfv Hkeys He Hnull.
  destruct (named_columns Hwf) as (_ & Hts & Hids & Hid).
  apply request_row_In in He as (q & Hq & ->).
  assert (Hcols : columns q = entity_df_columns) by now apply Hwf.
  rewrite col_request_entity_timestamp in Hnull by now rewrite Hcols.
  rewrite col_request_unique_id; auto; [|rewrite Hcols; now apply Hid].
  unfold entity_row_unique_id.
  destruct Hnull as [(k & Hk & Hn)|Hn].
  - rewrite col_request_own in Hn by (rewrite Hcols; now apply Hkeys).
    destruct (entities fv) as [|k0 ks] eqn:E; [contradiction|].
    apply sql_concat_null. apply in_or_app. left.
    apply in_map_iff. exists k. now rewrite Hn.
  - rewrite Hn. destruct (entities fv); [reflexivity|].
    apply sql_concat_null. apply in_or_app. right. now left.
Qed.

(** Request rows with one unique id have the same join keys and the same
    timestamp: the concatenation does not confuse two requests. *)
Definition distinct_ids (fv : FeatureViewQueryContext) : Prop :=
  forall e e',
    In e requests -> In e' requests ->
    col e (unique_id_column fv) = col e' (unique_id_column fv) ->
    col e (unique_id_column fv) <> VNull ->
    (forall k, In k (entities fv) -> col e k = col e' k) /\
    col e "entity_timestamp" = col e' "entity_timestamp".

Lemma meets_same_id (fv : FeatureViewQueryContext) (r e e' : row) :
  distinct_ids fv -> In e requests -> In e' requests ->
  col e (unique_id_column fv) = col e' (unique_id_column fv) ->
  col e (unique_id_column fv) <> VNull ->
  meets fv r e -> meets fv r e'.
Proof.
  intros Hd He He' Hu Hn (Hk & Ht).
  destruct (Hd e e' He He' Hu Hn) as [Hkeys Hts].
  split.
  - intros k Hin. rewrite <- (Hkeys k Hin). now apply Hk.
  - now rewrite <- Hts.
Qed.

(** *** Point-in-time correctness *)

(** The feature cells of a final row under one view: either no eligible
    source row meets the request row and the cells are the padding, or
    they are the cells of an eligible source row that meets the request
    row and that no other source row meeting it outdates. *)
Definition point_in_time (fv : FeatureViewQueryContext) (e x : row) : Prop :=
  ((forall r, In r (db (table_subquery fv)) -> meets fv r e ->
              ~ eligible fv r) /\
   forall f, In f (features fv) ->
             col x (feature_alias full_feature_names fv f) = VNull)
  \/
  exists r,
    In r (db (table_subquery fv)) /\ meets fv r e /\ eligible fv r /\
    (forall r', In r' (db (table_subquery fv)) -> meets fv r' e ->
                not_outdated_by fv r r') /\
    forall f, In f (features fv) ->
              col x (feature_alias full_feature_names fv f) = col r f.

Lemma request_rows_point_in_time (fv : FeatureViewQueryContext) (e x : row) :
  named -> In fv featureviews -> names_apart fv -> keys_requested fv ->
  distinct_ids fv -> In e requests -> In x (rows_of featureviews e) ->
  point_in_time fv e x.
Proof.
  intros Hwf Hfv Hn Hkeys Hd He Hx.
  destruct (final_row_cells e x Hwf He Hx) as [(_ & _ & _ & Hnull) Hfed].
  destruct (partners_of fv e) as [|p0 ps] eqn:Ep.
  - left. split.
    + intros r Hr Hm Hel.
      apply (partner_exists fv r e Hn Hr He Hm Hel); [|exact Ep].
      destruct Hm as (Hk & t & te & _ & Hte & _).
      apply (unique_id_text fv e Hwf Hfv Hkeys He).
      * intros k Hin. now apply Hk.
      * rewrite Hte. discriminate.
    + intros f Hf. apply (Hnull fv _ Hfv Ep). now apply in_map.
  - right. destruct (Hfed fv Hfv) as (p & Hp & Hcells);
      [rewrite Ep; discriminate|].
    pose proof Hp as Hp'. apply partners_In in Hp' as (_ & _ & Hun).
    apply (partner_source fv e p Hn) in Hp
      as (r & e' & Hr & He' & Hm & Hu & [Hel Hlast] & ->).
    assert (Hm' : meets fv r e).
    { apply (meets_same_id fv r e' e Hd He' He Hu); [|assumption].
      now rewrite Hu. }
    exists r. repeat (split; [assumption|]). split.
    + intros r' Hr' Hmr'. apply (Hlast r' e Hr' He Hmr'). now symmetry.
    + intros f Hf. rewrite Hcells by now apply in_map.
      rewrite col_view_row_feature; auto.
      * now apply col_base_row_feature.
      * apply base_In. now exists r, e'.
Qed.

(** X1. Every row of the result of the point-in-time join carries the cells
    of one row of the entity table and, for every feature view, feature
    cells that are point-in-time correct for that row: the cells of one
    source row with the request's join keys whose event timestamp is at
    most the request's timestamp and within the time-to-live, and which
    no other such row outdates; or NULL when no such row can be chosen.
    When the view declares a created timestamp, the rows without one are
    left out of both. *)
Theorem point_in_time_join_correct
  (final_output_feature_names : list string) (y : row) :
  named ->
  (forall fv, In fv featureviews ->
     names_apart fv /\ keys_requested fv /\ distinct_ids fv) ->
  In y (MULTIPLE_FEATURE_VIEW_POINT_IN_TIME_JOIN db featureviews
          left_table_query_string entity_df_event_timestamp_col
          full_feature_names final_output_feature_names) ->
  exists q x,
    let e :=
      entity_dataframe_row featureviews entity_df_event_timestamp_col q in
    In q (db left_table_query_string) /\
    y = project final_output_feature_names x /\
    (forall c, In c entity_df_columns ->
               col x c = col q c /\ col e c = col q c) /\
    col e "entity_timestamp" = col q entity_df_event_timestamp_col /\
    forall fv, In fv featureviews -> point_in_time fv e x.
Proof.
  intros Hwf Hviews Hy. rewrite final_rows in Hy.
  apply in_flat_map in Hy as (e & He & Hy).
  apply in_map_iff in Hy as (x & <- & Hx).
  pose proof He as Hq. apply request_row_In in Hq as (q & Hq & Ee).
  exists q, x. cbv zeta. rewrite <- Ee.
  destruct (named_columns Hwf) as (_ & Hts & _).
  assert (Hcols : columns q = entity_df_columns) by now apply Hwf.
  split; [assumption|]. split; [reflexivity|]. split; [|split].
  - intros c Hc.
    destruct (final_row_cells e x Hwf He Hx) as [(Hreq & _) _].
    rewrite Hreq by (unfold request_columns; apply in_or_app; now left).
    rewrite Ee. split; apply col_request_own; now rewrite Hcols.
  - rewrite Ee. apply col_request_entity_timestamp. now rewrite Hcols.
  - intros fv Hfv. destruct (Hviews fv Hfv) as (Hn & Hk & Hd).
    now apply request_rows_point_in_time.
Qed.


End Query.
End LineageFacts.

(* ================================================================== *)
(** ** One view among others, and its time-to-live *)
(* ================================================================== *)

Module ViewFacts.
Import Sql ListFacts SqlFacts WindowFacts Template.
Import JoinFacts LatestFacts AssemblyFacts LineageFacts.

Section Alone.

Variable db : string -> list row.
Variable featureviews : list FeatureViewQueryContext.
Variable left_table_query_string : string.
Variable entity_df_event_timestamp_col : string.
Variable full_feature_names : bool.
Variable entity_df_columns : list string.

Local Abbreviation named :=
  (well_named db featureviews left_table_query_string full_feature_names
     entity_df_columns).

(** The entity timestamp of a request row does not depend on the views
    requested. *)
Lemma col_entity_timestamp_views (views views' : list FeatureViewQueryContext)
  (q : row) :
  col (entity_dataframe_row views entity_df_event_timestamp_col q)
    "entity_timestamp"
  = col (entity_dataframe_row views' entity_df_event_timestamp_col q)
      "entity_timestamp".
Proof.
  unfold entity_dataframe_row.
  destruct (in_dec string_dec "entity_timestamp" (columns q)) as [H|H].
  - now rewrite !col_app_in.
  - now rewrite !col_app_notin.
Qed.

Lemma entity_timestamps_views (views views' : list FeatureViewQueryContext) :
  map (fun e => col e "entity_timestamp")
    (entity_dataframe db views left_table_query_string
       entity_df_event_timestamp_col)
  = map (fun e => col e "entity_timestamp")
      (entity_dataframe db views' left_table_query_string
         entity_df_event_timestamp_col).
Proof.
  unfold entity_dataframe. rewrite !map_map. apply map_ext. intro q.
  apply col_entity_timestamp_views.
Qed.

Lemma subquery_views (views views' : list FeatureViewQueryContext)
  (fv : FeatureViewQueryContext) :
  subquery db views left_table_query_string entity_df_event_timestamp_col
    full_feature_names fv
  = subquery db views' left_table_query_string entity_df_event_timestamp_col
      full_feature_names fv.
Proof.
  unfold subquery. f_equal. apply filter_ext. intro r.
  unfold subquery_where, max_entity_timestamp, min_entity_timestamp.
  now rewrite (entity_timestamps_views views views').
Qed.

Lemma grouped_alone (fv : FeatureViewQueryContext) :
  named -> In fv featureviews -> keys_requested entity_df_columns fv ->
  fv_entity_dataframe db featureviews left_table_query_string
    entity_df_event_timestamp_col fv
  = fv_entity_dataframe db [fv] left_table_query_string
      entity_df_event_timestamp_col fv.
Proof.
  intros Hwf Hfv Hkeys. unfold fv_entity_dataframe, entity_dataframe.
  f_equal. rewrite !map_map. apply map_ext_in. intros q Hq.
  destruct (named_columns _ _ _ _ _ Hwf) as (_ & Hts & Hids & Hid).
  assert (Hcols : columns q = entity_df_columns) by now apply Hwf.
  unfold project. apply map_ext_in. intros c Hc. f_equal.
  unfold fv_entity_columns in Hc.
  apply in_app_or in Hc as [Hc|[<-|[<-|[]]]].
  - rewrite !col_request_own; auto; rewrite Hcols; now apply Hkeys.
  - apply col_entity_timestamp_views.
  - assert (Hq' : ~ In (unique_id_column fv) (columns q))
      by (rewrite Hcols; now apply Hid).
    rewrite (col_request_unique_id featureviews _ fv q Hq' Hids Hfv).
    rewrite (col_request_unique_id [fv] _ fv q Hq'); [reflexivity| |now left].
    repeat constructor. intros [].
Qed.

(** X3. What a feature view contributes to the final join does not depend on
    the other feature views requested with it. *)
Theorem view_rows_alone (fv : FeatureViewQueryContext) :
  named -> In fv featureviews -> keys_requested entity_df_columns fv ->
  cleaned db featureviews left_table_query_string
    entity_df_event_timestamp_col full_feature_names fv
  = cleaned db [fv] left_table_query_string entity_df_event_timestamp_col
      full_feature_names fv /\
  joined_select db featureviews left_table_query_string
    entity_df_event_timestamp_col full_feature_names fv
  = joined_select db [fv] left_table_query_string
      entity_df_event_timestamp_col full_feature_names fv.
Proof.
  intros Hwf Hfv Hkeys.
  assert (Hbase : base db featureviews left_table_query_string
                    entity_df_event_timestamp_col full_feature_names fv
                  = base db [fv] left_table_query_string
                      entity_df_event_timestamp_col full_feature_names fv).
  { unfold base, base_pairs.
    now rewrite (subquery_views featureviews [fv]), grouped_alone. }
  assert (Hclean : cleaned db featureviews left_table_query_string
                     entity_df_event_timestamp_col full_feature_names fv
                   = cleaned db [fv] left_table_query_string
                       entity_df_event_timestamp_col full_feature_names fv).
  { unfold cleaned, latest, latest_source, dedup. now rewrite Hbase. }
  split; [exact Hclean|]. unfold joined_select. now rewrite Hclean.
Qed.

End Alone.

(** *** The time-to-live *)

(** The view with another time-to-live. *)
Definition with_ttl (fv : FeatureViewQueryContext) (n : Z)
  : FeatureViewQueryContext :=
  {| name := name fv;
     ttl := n;
     entities := entities fv;
     features := features fv;
     event_timestamp_column := event_timestamp_column fv;
     created_timestamp_column := created_timestamp_column fv;
     table_subquery := table_subquery fv;
     entity_selections := entity_selections fv |}.

(** [n] is a time-to-live at least as long as that of the view; 0 is the
    longest. *)
Definition at_least_as_long (fv : FeatureViewQueryContext) (n : Z) : Prop :=
  n = 0 \/ (ttl fv <> 0 /\ ttl fv <= n).

Section Ttl.

Variable db : string -> list row.
Variable left_table_query_string : string.
Variable entity_df_event_timestamp_col : string.
Variable full_feature_names : bool.

Lemma meets_longer (fv : FeatureViewQueryContext) (n : Z) (r e : row) :
  at_least_as_long fv n ->
  meets full_feature_names fv r e ->
  meets full_feature_names (with_ttl fv n) r e.
Proof.
  intros Hn (Hk & t & te & Ht & Hte & Hle & Hlo).
  split; [exact Hk|]. exists t, te. cbn [ttl with_ttl].
  repeat (split; [assumption|]).
  unfold interval_second in *. destruct Hn as [->|[Hz Hle']].
  - now left.
  - destruct Hlo as [Hlo|Hlo]; [contradiction|]. right. lia.
Qed.

(** A source row that meets a request only under the longer
    time-to-live is older than every row that meets it under the
    shorter one. *)
Lemma meets_only_longer (fv : FeatureViewQueryContext) (n : Z)
  (r e : row) :
  meets full_feature_names (with_ttl fv n) r e ->
  meets full_feature_names fv r e \/
  exists t te,
    col r (event_timestamp_column fv) = VInt t /\
    col e "entity_timestamp" = VInt te /\
    ttl fv <> 0 /\ t < te - interval_second (ttl fv).
Proof.
  intros (Hk & t & te & Ht & Hte & Hle & _).
  destruct (Z.eq_dec (ttl fv) 0) as [Hz|Hz].
  - left. split; [exact Hk|]. exists t, te. auto.
  - destruct (Z_le_gt_dec (te - interval_second (ttl fv)) t) as [H|H].
    + left. split; [exact Hk|]. exists t, te. auto.
    + right. exists t, te. repeat (split; [assumption|]). lia.
Qed.


(** X5. A negative time-to-live is not refused: it leaves the view without
    any joined row, so that every request gets the padding. *)
Theorem negative_ttl_joins_nothing
  (featureviews : list FeatureViewQueryContext)
  (fv : FeatureViewQueryContext) :
  ttl fv < 0 ->
  base db featureviews left_table_query_string entity_df_event_timestamp_col
    full_feature_names fv = [] /\
  forall l,
    partners db featureviews left_table_query_string
      entity_df_event_timestamp_col full_feature_names fv l = [].
Proof.
  intro Hneg.
  assert (Hbase : base db featureviews left_table_query_string
                    entity_df_event_timestamp_col full_feature_names fv
                  = []).
  { destruct (base db featureviews left_table_query_string
                entity_df_event_timestamp_col full_feature_names fv)
      as [|b bs] eqn:E; [reflexivity|].
    assert (Hb : In b (base db featureviews left_table_query_string
                         entity_df_event_timestamp_col full_feature_names
                         fv)) by (rewrite E; now left).
    apply base_In in Hb
      as (r & e & _ & _ & (_ & t & te & _ & _ & Hle & Hlo) & _).
    unfold interval_second in Hlo. lia. }
  split; [exact Hbase|]. intro l.
  unfold partners, joined_select, cleaned. now rewrite Hbase.
Qed.

End Ttl.
End ViewFacts.

(* ================================================================== *)
(** ** One row for every request *)
(* ================================================================== *)

Module CountFacts.
Import Sql ListFacts SqlFacts WindowFacts Template.
Import JoinFacts LatestFacts AssemblyFacts LineageFacts.

(** *** Counting the rows a filter keeps *)

Lemma filter_map_swap {A B : Type} (f : A -> B) (P : B -> bool)
  (l : list A) :
  filter P (map f l) = map f (filter (fun x => P (f x)) l).
Proof.
  induction l as [|x l IH]; [reflexivity|]. cbn [map filter].
  destruct (P (f x)); cbn [map]; now rewrite IH.
Qed.

Lemma NoDup_map_filter {A K : Type} (key : A -> K) (P : A -> bool)
  (l : list A) :
  NoDup (map key l) -> NoDup (map key (filter P l)).
Proof.
  induction l as [|x l IH]; intro H; [constructor|].
  cbn [map filter] in *. inversion H as [|? ? Hx Hl]; subst.
  destruct (P x); [|now apply IH]. cbn [map]. constructor; [|now apply IH].
  intro Hin. apply Hx. apply in_map_iff in Hin as (y & E & Hy).
  apply filter_In in Hy as [Hy _]. apply in_map_iff. now exists y.
Qed.

(** A filter keeps at most one element when no two elements it keeps
    differ in a key that is a key of the list. *)
Lemma filter_one {A K : Type} (key : A -> K) (P : A -> bool) (l : list A) :
  NoDup (map key l) ->
  (forall x y, In x l -> In y l -> P x = true -> P y = true ->
               key x = key y) ->
  (List.length (filter P l) <= 1)%nat.
Proof.
  induction l as [|x l IH]; intros Hnd Hkey; [cbn; lia|].
  cbn [map] in Hnd. inversion Hnd as [|? ? Hx Hl]; subst.
  cbn [filter]. destruct (P x) eqn:Px.
  - assert (E : filter P l = []).
    { destruct (filter P l) as [|y t] eqn:F; [reflexivity|].
      assert (Hy : In y (filter P l)) by (rewrite F; now left).
      apply filter_In in Hy as [Hy Py]. exfalso. apply Hx.
      rewrite (Hkey x y); auto; [now apply in_map | now left | now right]. }
    rewrite E. cbn. lia.
  - apply IH; [assumption|]. intros a b Ha Hb. apply Hkey; now right.
Qed.

Lemma flat_map_length_le {A B : Type} (f : A -> list B) (g : A -> bool)
  (l : list A) :
  (forall x, In x l ->
     (List.length (f x) <= (if g x then 1 else 0))%nat) ->
  (List.length (flat_map f l) <= List.length (filter g l))%nat.
Proof.
  induction l as [|x l IH]; intro H; [cbn; lia|].
  cbn [flat_map filter]. rewrite length_app.
  specialize (H x (or_introl eq_refl)) as Hx.
  assert (IH' := IH (fun y Hy => H y (or_intror Hy))).
  destruct (g x); cbn [List.length]; lia.
Qed.

Lemma NoDup_list_prod {A B K : Type} (key : A -> K) (L : list A)
  (R : list B) :
  NoDup (map key L) -> NoDup R ->
  NoDup (map (fun p => (key (fst p), snd p)) (list_prod L R)).
Proof.
  intros HL HR. induction L as [|a L IH]; [constructor|].
  cbn [map] in HL. inversion HL as [|? ? Ha HL']; subst.
  cbn [list_prod]. rewrite map_app, map_map. cbn [fst snd].
  apply NoDup_app.
  - clear -HR. induction R as [|b R IH]; [constructor|].
    inversion HR as [|? ? Hb HR']; subst. cbn [map].
    constructor; [|now apply IH].
    intro Hin. apply in_map_iff in Hin as (b' & E & Hb').
    injection E as <-. contradiction.
  - now apply IH.
  - intros [k b] Hin Hin'. apply in_map_iff in Hin as (b' & E & _).
    injection E as <- <-.
    apply in_map_iff in Hin' as ([a' b''] & E & Hp). cbn [fst snd] in E.
    injection E as E _. apply in_prod_iff in Hp as [Ha' _].
    apply Ha. rewrite <- E. now apply in_map.
Qed.

Lemma project_self (r : row) :
  NoDup (columns r) -> project (columns r) r = r.
Proof.
  induction r as [|[c v] r IH]; intro H; [reflexivity|].
  cbn [columns map fst] in H. inversion H as [|? ? Hc Hr]; subst.
  unfold project. cbn [columns map fst col]. rewrite String.eqb_refl.
  f_equal. rewrite <- (IH Hr) at 2. unfold project. apply map_ext_in.
  intros c' Hc'. f_equal.
  destruct (String.eqb_spec c c') as [->|_]; [contradiction|reflexivity].
Qed.

Lemma project_within (cs out : list string) (r : row) :
  (forall c, In c cs -> In c out) ->
  project cs (project out r) = project cs r.
Proof.
  intro H. unfold project at 1 3. apply map_ext_in. intros c Hc.
  f_equal. apply col_project. now apply H.
Qed.

Section Query.

Variable db : string -> list row.
Variable featureviews : list FeatureViewQueryContext.
Variable left_table_query_string : string.
Variable entity_df_event_timestamp_col : string.
Variable full_feature_names : bool.
Variable entity_df_columns : list string.

Local Abbreviation requests :=
  (entity_dataframe db featureviews left_table_query_string
     entity_df_event_timestamp_col).
Local Abbreviation requests_of :=
  (fv_entity_dataframe db featureviews left_table_query_string
     entity_df_event_timestamp_col).
Local Abbreviation select := (subquery_select full_feature_names).
Local Abbreviation pairs :=
  (base_pairs db featureviews left_table_query_string
     entity_df_event_timestamp_col full_feature_names).
Local Abbreviation base_of :=
  (base db featureviews left_table_query_string
     entity_df_event_timestamp_col full_feature_names).
Local Abbreviation latest_of :=
  (latest db featureviews left_table_query_string
     entity_df_event_timestamp_col full_feature_names).
Local Abbreviation partners_of :=
  (partners db featureviews left_table_query_string
     entity_df_event_timestamp_col full_feature_names).
Local Abbreviation apart := (names_apart full_feature_names).
Local Abbreviation distinct :=
  (distinct_ids db featureviews left_table_query_string
     entity_df_event_timestamp_col).
Local Abbreviation row_of := (base_row full_feature_names).

(** *** Source tables with a key *)

(** The join keys and the timestamps of a source row, as the view selects
    them. *)
Definition source_key (fv : FeatureViewQueryContext) (r : row)
  : list value :=
  map (col (select fv r)) (entities fv ++ timestamp_keys fv).

(** No two rows of the source table of the view have the same join keys,
    event timestamp and, when declared, created timestamp. *)
Definition source_keyed (fv : FeatureViewQueryContext) : Prop :=
  NoDup (map (source_key fv) (db (table_subquery fv))).

Definition pair_key (fv : FeatureViewQueryContext) (p : row * row)
  : list value * row :=
  (map (col (fst p)) (entities fv ++ timestamp_keys fv), snd p).

Lemma pairs_keyed (fv : FeatureViewQueryContext) :
  source_keyed fv -> NoDup (map (pair_key fv) (pairs fv)).
Proof.
  intro Hk. unfold base_pairs. apply NoDup_map_filter.
  apply (NoDup_list_prod
           (fun s => map (col s) (entities fv ++ timestamp_keys fv))).
  - unfold subquery. rewrite map_map. now apply NoDup_map_filter.
  - apply NoDup_nodup.
Qed.

Lemma pairs_In (fv : FeatureViewQueryContext) (p : row * row) :
  In p (pairs fv) ->
  exists r e,
    In r (db (table_subquery fv)) /\ In e requests /\
    p = (select fv r, grouped fv e) /\
    forall k, In k (entities fv) ->
              col (select fv r) k = col (grouped fv e) k.
Proof.
  destruct p as [s g]. unfold base_pairs. intro Hp.
  apply filter_In in Hp as [Hp Hon]. cbn [fst snd] in Hon.
  apply in_prod_iff in Hp as [Hs Hg].
  unfold subquery in Hs. apply in_map_iff in Hs as (r & <- & Hr).
  apply filter_In in Hr as [Hr _].
  apply requests_of_In in Hg as (e & He & ->).
  exists r, e. repeat (split; [first [assumption | reflexivity]|]).
  apply base_on_spec in Hon as [Hk _]. intros k Hin. now apply Hk.
Qed.

Lemma grouped_same_id (fv : FeatureViewQueryContext) (e e' : row) :
  distinct fv -> In e requests -> In e' requests ->
  col e (unique_id_column fv) = col e' (unique_id_column fv) ->
  col e (unique_id_column fv) <> VNull ->
  grouped fv e = grouped fv e'.
Proof.
  intros Hd He He' Hu Hn. destruct (Hd e e' He He' Hu Hn) as [Hk Ht].
  unfold grouped, project. apply map_ext_in. intros c Hc. f_equal.
  unfold fv_entity_columns in Hc.
  apply in_app_or in Hc as [Hc|[<-|[<-|[]]]]; auto.
Qed.

(** The joined rows that reach a partner of the row [l]. *)
Definition reaches (fv : FeatureViewQueryContext) (l b : row) : bool :=
  using_match [unique_id_column fv] l
    (project (joined_columns full_feature_names fv) (cleaned_select fv b))
  && existsb (using_match (latest_keys fv) b) (latest_of fv).

Lemma reaches_spec (fv : FeatureViewQueryContext) (l b : row) :
  reaches fv l b = true ->
  col l (unique_id_column fv) = col b (unique_id_column fv) /\
  col l (unique_id_column fv) <> VNull /\
  exists la, In la (latest_of fv) /\
             forall c, In c (latest_keys fv) -> col b c = col la c.
Proof.
  unfold reaches. rewrite andb_true_iff, using_match_spec, existsb_exists.
  intros [Hm (la & Hla & Hk)].
  destruct (Hm (unique_id_column fv) (or_introl eq_refl)) as [E Hn].
  fold (view_row full_feature_names fv b) in E.
  rewrite col_view_row_unique_id in E.
  split; [assumption|]. split; [assumption|].
  exists la. split; [assumption|]. intros c Hc.
  rewrite using_match_spec in Hk. now apply Hk.
Qed.

Lemma reaching_pairs_agree (fv : FeatureViewQueryContext) (l : row)
  (p p' : row * row) :
  apart fv -> distinct fv ->
  In p (pairs fv) -> In p' (pairs fv) ->
  reaches fv l (base_select fv p) = true ->
  reaches fv l (base_select fv p') = true ->
  pair_key fv p = pair_key fv p'.
Proof.
  intros Hn Hd Hp Hp' Hr Hr'.
  apply pairs_In in Hp as (r & e & Hin & He & -> & Hk).
  apply pairs_In in Hp' as (r' & e' & Hin' & He' & -> & Hk').
  fold (row_of fv r e) in Hr. fold (row_of fv r' e') in Hr'.
  apply reaches_spec in Hr as (Hu & Hnn & la & Hla & Hc).
  apply reaches_spec in Hr' as (Hu' & _ & la' & Hla' & Hc').
  rewrite (col_base_row_unique_id _ fv r e Hn) in Hu.
  rewrite (col_base_row_unique_id _ fv r' e' Hn) in Hu'.
  assert (Ee : col e (unique_id_column fv) = col e' (unique_id_column fv))
    by congruence.
  assert (Eg : grouped fv e = grouped fv e').
  { apply grouped_same_id; auto. now rewrite <- Hu. }
  assert (Ela : la = la').
  { pose proof Hn as (_ & _ & Hfree).
    apply (NoDup_map_eq (fun x => col x (unique_id_column fv)) (latest_of fv));
      [now apply latest_unique_ids | assumption..|].
    rewrite <- (Hc (unique_id_column fv)) by now left.
    rewrite <- (Hc' (unique_id_column fv)) by now left.
    rewrite (col_base_row_unique_id _ fv r e Hn).
    now rewrite (col_base_row_unique_id _ fv r' e' Hn). }
  subst la'. unfold pair_key. cbn [fst snd]. rewrite Eg. f_equal.
  apply map_ext_in. intros c Hin0. apply in_app_or in Hin0 as [Hin0|Hin0].
  - rewrite (Hk c Hin0), (Hk' c Hin0). now rewrite Eg.
  - assert (Hsel : In c (subquery_columns full_feature_names fv)).
    { unfold subquery_columns, timestamp_keys in *.
      destruct Hin0 as [<-|Hin0]; [now left|]. right.
      apply in_or_app. now left. }
    rewrite <- (col_base_row_selected _ fv r e c Hsel).
    rewrite <- (col_base_row_selected _ fv r' e' c Hsel).
    rewrite Hc, Hc'; [reflexivity|right; assumption..].
Qed.

(** With a key on the source table and unique ids that tell the requests
    apart, a view has at most one row for a request row. *)
Lemma partners_at_most_one (fv : FeatureViewQueryContext) (l : row) :
  apart fv -> distinct fv -> source_keyed fv ->
  (List.length (partners_of fv l) <= 1)%nat.
Proof.
  intros Hn Hd Hk. unfold partners, joined_select.
  rewrite filter_map_swap, length_map. unfold cleaned.
  rewrite filter_flat_map.
  apply Nat.le_trans with (List.length (filter (reaches fv l) (base_of fv))).
  - apply flat_map_length_le. intros b Hb.
    rewrite filter_map_swap, length_map. cbv beta. unfold reaches.
    destruct (using_match [unique_id_column fv] l _) eqn:Em.
    + rewrite andb_true_l, filter_true.
      destruct (existsb _ (latest_of fv)) eqn:Ex.
      * apply (filter_one (fun x => col x (unique_id_column fv))).
        -- pose proof Hn as (_ & _ & Hfree). now apply latest_unique_ids.
        -- intros x y _ _ Hx Hy. rewrite using_match_spec in Hx, Hy.
           destruct (Hx (unique_id_column fv)) as [<- _]; [now left|].
           destruct (Hy (unique_id_column fv)) as [<- _]; [now left|].
           reflexivity.
      * destruct (filter _ (latest_of fv)) as [|x t] eqn:F; [cbn; lia|].
        assert (Hx : In x (filter (using_match (latest_keys fv) b)
                            (latest_of fv))) by (rewrite F; now left).
        apply filter_In in Hx as [Hx Hm].
        assert (Ht : existsb (using_match (latest_keys fv) b) (latest_of fv)
                     = true)
          by (apply existsb_exists; now exists x).
        congruence.
    + rewrite filter_false. cbn. lia.
  - unfold base. rewrite filter_map_swap, length_map.
    apply (filter_one (pair_key fv)); [now apply pairs_keyed|].
    intros p p' Hp Hp' Hr Hr'. now apply (reaching_pairs_agree fv l).
Qed.

Local Abbreviation named :=
  (well_named db featureviews left_table_query_string full_feature_names
     entity_df_columns).
Local Abbreviation rows_of :=
  (request_rows db featureviews left_table_query_string
     entity_df_event_timestamp_col full_feature_names).


End Query.
End CountFacts.

(* ================================================================== *)
(** ** Requests in one entity table *)
(* ================================================================== *)

Module BatchFacts.
Import Sql ListFacts SqlFacts WindowFacts Template.
Import JoinFacts LatestFacts AssemblyFacts LineageFacts CountFacts.

Lemma at_most_one_same {A : Type} (l l' : list A) :
  (List.length l <= 1)%nat -> (List.length l' <= 1)%nat ->
  (forall x, In x l <-> In x l') -> l = l'.
Proof.
  intros Hl Hl' H.
  destruct l as [|x [|y t]], l' as [|x' [|y' t']];
    cbn [List.length] in Hl, Hl'; try lia.
  - reflexivity.
  - exfalso. apply (proj2 (H x')). now left.
  - exfalso. apply (proj1 (H x)). now left.
  - destruct (proj1 (H x)) as [->|[]]; [now left | reflexivity].
Qed.

Lemma flat_map_ext_in {A B : Type} (f g : A -> list B) (l : list A) :
  (forall x, In x l -> f x = g x) -> flat_map f l = flat_map g l.
Proof.
  induction l as [|x l IH]; intro H; [reflexivity|].
  cbn [flat_map]. rewrite (H x) by now left.
  rewrite IH; [reflexivity|]. intros y Hy. apply H. now right.
Qed.

Section Query.

Variable db : string -> list row.
Variable featureviews : list FeatureViewQueryContext.
Variable left_table_query_string : string.
Variable entity_df_event_timestamp_col : string.
Variable full_feature_names : bool.

Local Abbreviation requests :=
  (entity_dataframe db featureviews left_table_query_string
     entity_df_event_timestamp_col).
Local Abbreviation partners_of :=
  (partners db featureviews left_table_query_string
     entity_df_event_timestamp_col full_feature_names).
Local Abbreviation apart := (names_apart full_feature_names).
Local Abbreviation distinct :=
  (distinct_ids db featureviews left_table_query_string
     entity_df_event_timestamp_col).
Local Abbreviation meet := (meets full_feature_names).
Local Abbreviation row_of := (base_row full_feature_names).
Local Abbreviation shown := (view_row full_feature_names).

(** The partners of a request row, by the source rows alone: nothing of
    the other request rows is left in it. *)
Lemma partners_spec (fv : FeatureViewQueryContext) (e p : row) :
  apart fv -> distinct fv -> In e requests ->
  (In p (partners_of fv e) <->
   col e (unique_id_column fv) <> VNull /\
   exists r,
     In r (db (table_subquery fv)) /\ meet fv r e /\ eligible fv r /\
     (forall r', In r' (db (table_subquery fv)) -> meet fv r' e ->
                 not_outdated_by fv r r') /\
     p = shown fv (row_of fv r e)).
Proof.
  intros Hn Hd He. split.
  - intro Hp. pose proof Hp as Hp'.
    apply partners_In in Hp' as (_ & _ & Hun). split; [assumption|].
    apply (partner_source _ _ _ _ _ fv e p Hn) in Hp
      as (r & e' & Hr & He' & Hm & Hu & [Hel Hlast] & ->).
    assert (Hun' : col e' (unique_id_column fv) <> VNull)
      by now rewrite Hu.
    exists r. split; [assumption|]. split; [|split; [assumption|split]].
    + now apply (meets_same_id _ _ _ _ _ fv r e' e Hd He' He Hu).
    + intros r' Hr' Hm'. apply (Hlast r' e Hr' He Hm'). now symmetry.
    + unfold base_row.
      now rewrite (grouped_same_id _ _ _ _ fv e' e Hd He' He Hu Hun').
  - intros (Hun & r & Hr & Hm & Hel & Hlast & ->).
    apply partners_In. split; [|split; [|assumption]].
    + apply (view_rows_In _ _ _ _ _ fv _ Hn). exists (row_of fv r e).
      split; [apply base_In; now exists r, e|]. split; [|reflexivity].
      apply (kept_base_row _ _ _ _ _ fv r e Hn Hr He Hm).
      split; [assumption|]. split; [assumption|].
      intros r' e' Hr' He' Hm' Hu. apply Hlast; [assumption|].
      apply (meets_same_id _ _ _ _ _ fv r' e' e Hd He' He Hu);
        [now rewrite Hu | assumption].
    + rewrite col_view_row_unique_id.
      now rewrite (col_base_row_unique_id _ fv r e Hn).
Qed.

End Query.

Section Two.

Variable db db' : string -> list row.
Variable featureviews : list FeatureViewQueryContext.
Variable left_table_query_string : string.
Variable entity_df_event_timestamp_col : string.
Variable full_feature_names : bool.
Variable entity_df_columns : list string.

Local Abbreviation edr :=
  (entity_dataframe_row featureviews entity_df_event_timestamp_col).
Local Abbreviation view_columns := (feature_columns full_feature_names).

(** What the two databases are asked to have in common: the source table
    of every view, and the conditions under which a view has one row for
    a request in each of them. *)
Definition alike : Prop :=
  forall fv, In fv featureviews ->
    db (table_subquery fv) = db' (table_subquery fv) /\
    names_apart full_feature_names fv /\
    source_keyed db full_feature_names fv /\
    distinct_ids db featureviews left_table_query_string
      entity_df_event_timestamp_col fv /\
    distinct_ids db' featureviews left_table_query_string
      entity_df_event_timestamp_col fv.

Lemma partners_alike (fv : FeatureViewQueryContext) (q : row) :
  alike -> In fv featureviews ->
  In q (db left_table_query_string) -> In q (db' left_table_query_string) ->
  partners db featureviews left_table_query_string
    entity_df_event_timestamp_col full_feature_names fv (edr q)
  = partners db' featureviews left_table_query_string
      entity_df_event_timestamp_col full_feature_names fv (edr q).
Proof.
  intros Hal Hfv Hq Hq'. destruct (Hal fv Hfv) as (Hsrc & Hn & Hk & Hd & Hd').
  assert (Hk' : source_keyed db' full_feature_names fv)
    by (unfold source_keyed in *; now rewrite <- Hsrc).
  assert (He : In (edr q)
                 (entity_dataframe db featureviews left_table_query_string
                    entity_df_event_timestamp_col))
    by (apply request_row_In; now exists q).
  assert (He' : In (edr q)
                  (entity_dataframe db' featureviews left_table_query_string
                     entity_df_event_timestamp_col))
    by (apply request_row_In; now exists q).
  apply at_most_one_same.
  - now apply partners_at_most_one.
  - now apply partners_at_most_one.
  - intro p.
    rewrite (partners_spec db _ _ _ _ fv (edr q) p Hn Hd He).
    rewrite (partners_spec db' _ _ _ _ fv (edr q) p Hn Hd' He').
    now rewrite Hsrc.
Qed.

Local Abbreviation padded_in :=
  (fun d => padded d featureviews left_table_query_string
              entity_df_event_timestamp_col full_feature_names
              entity_df_columns).
Local Abbreviation rows_in :=
  (fun d => request_rows d featureviews left_table_query_string
              entity_df_event_timestamp_col full_feature_names).
Local Abbreviation request_names :=
  (request_columns featureviews entity_df_columns).

Lemma request_rows_alike (done todo : list FeatureViewQueryContext)
  (q x : row) :
  alike -> (forall fv, In fv todo -> In fv featureviews) ->
  In q (db left_table_query_string) -> In q (db' left_table_query_string) ->
  NoDup (request_names ++ flat_map view_columns (done ++ todo)) ->
  padded_in db done (edr q) x -> padded_in db' done (edr q) x ->
  rows_in db todo x = rows_in db' todo x.
Proof.
  intros Hal Hsub Hq Hq'. revert done x.
  induction todo as [|fv todo IH]; intros done x Hnd Hp Hp'; [reflexivity|].
  rewrite !request_rows_cons.
  assert (Hfv : In fv featureviews) by (apply Hsub; now left).
  assert (Huid : In (unique_id_column fv) request_names).
  { unfold request_columns. apply in_or_app. right. right.
    now apply in_map. }
  assert (Hsame : forall d,
            padded_in d done (edr q) x ->
            partners d featureviews left_table_query_string
              entity_df_event_timestamp_col full_feature_names fv x
            = partners d featureviews left_table_query_string
                entity_df_event_timestamp_col full_feature_names fv (edr q)).
  { intros d (Hreq & _). apply partners_ext. now apply Hreq. }
  assert (Hjoin :
    left_join_row [unique_id_column fv]
      (joined_columns full_feature_names fv)
      (joined_select db featureviews left_table_query_string
         entity_df_event_timestamp_col full_feature_names fv) x
    = left_join_row [unique_id_column fv]
        (joined_columns full_feature_names fv)
        (joined_select db' featureviews left_table_query_string
           entity_df_event_timestamp_col full_feature_names fv) x).
  { unfold left_join_row.
    fold (partners db featureviews left_table_query_string
            entity_df_event_timestamp_col full_feature_names fv x).
    fold (partners db' featureviews left_table_query_string
            entity_df_event_timestamp_col full_feature_names fv x).
    rewrite (Hsame db Hp), (Hsame db' Hp').
    now rewrite (partners_alike fv q Hal Hfv Hq Hq'). }
  rewrite <- Hjoin. apply flat_map_ext_in. intros y Hy.
  assert (Hnd1 : NoDup (request_names
                        ++ flat_map view_columns (done ++ [fv]))).
  { replace (done ++ fv :: todo) with ((done ++ [fv]) ++ todo) in Hnd
      by (now rewrite <- app_assoc).
    rewrite flat_map_app in Hnd. rewrite app_assoc in Hnd.
    now apply NoDup_app_remove_r in Hnd. }
  apply (IH (fun fv' H => Hsub fv' (or_intror H)) (done ++ [fv]) y).
  - now rewrite <- app_assoc.
  - now apply (padded_step _ _ _ _ _ _ done fv (edr q) x y).
  - rewrite Hjoin in Hy.
    now apply (padded_step _ _ _ _ _ _ done fv (edr q) x y).
Qed.

(** X7. The rows of the result that a request row gets do not depend on the
    other rows of the entity table: in two entity tables that both hold
    the request row, over the same source tables, they are the same. *)
Theorem requests_do_not_interfere (q : row) :
  well_named db featureviews left_table_query_string full_feature_names
    entity_df_columns ->
  well_named db' featureviews left_table_query_string full_feature_names
    entity_df_columns ->
  alike ->
  In q (db left_table_query_string) -> In q (db' left_table_query_string) ->
  rows_in db featureviews (edr q) = rows_in db' featureviews (edr q).
Proof.
  intros Hwf Hwf' Hal Hq Hq'.
  assert (Hstart : forall d,
            well_named d featureviews left_table_query_string
              full_feature_names entity_df_columns ->
            In q (d left_table_query_string) ->
            padded_in d [] (edr q) (edr q)).
  { intros d Hd Hin.
    assert (He : In (edr q)
                   (entity_dataframe d featureviews left_table_query_string
                      entity_df_event_timestamp_col))
      by (apply request_row_In; now exists q).
    pose proof (columns_entity_dataframe _ _ _ _ _ _ _ Hd He) as Hcols.
    unfold padded. rewrite Hcols. cbn [flat_map].
    split; [reflexivity|]. split; [now left|].
    split; [now intros c [Hc|[]]|]. intros ? ? []. }
  apply (request_rows_alike [] featureviews q (edr q)); auto.
  apply Hwf.
Qed.

End Two.
End BatchFacts.

(* ================================================================== *)
(** ** Snapshots of nested and adjacent intervals *)
(* ================================================================== *)

Module IntervalFacts.
Import Sql Py ListFacts SqlFacts WindowFacts Store SnapshotFacts.

Section Snapshot.

Variable DUMMY_ENTITY_ID : string.
Variable DUMMY_ENTITY_VAL : string.
Variable db : string -> list row.
Variable from_expression : string.
Variable join_key_columns : list string.
Variable feature_name_columns : list string.
Variable event_timestamp_column : string.
Variable created_timestamp_column : option string.

Local Abbreviation fields :=
  (field_columns join_key_columns feature_name_columns
     event_timestamp_column created_timestamp_column).
Local Abbreviation order_columns :=
  (timestamp_columns event_timestamp_column created_timestamp_column).
Local Abbreviation select :=
  (snapshot_select DUMMY_ENTITY_ID DUMMY_ENTITY_VAL join_key_columns
     feature_name_columns event_timestamp_column created_timestamp_column).
Local Abbreviation rows :=
  (snapshot_rows DUMMY_ENTITY_ID DUMMY_ENTITY_VAL db from_expression
     join_key_columns feature_name_columns event_timestamp_column
     created_timestamp_column).
Local Abbreviation inside :=
  (in_interval db from_expression event_timestamp_column).
Local Abbreviation within :=
  (windowed db from_expression event_timestamp_column).

Lemma col_select_event (r : row) :
  col (select r) event_timestamp_column = col r event_timestamp_column.
Proof.
  unfold snapshot_select.
  assert (Hin : In event_timestamp_column fields).
  { unfold field_columns, timestamp_columns.
    apply in_or_app. right. apply in_or_app. right. now left. }
  rewrite col_app_in by (now rewrite columns_project).
  now apply col_project.
Qed.

(** The snapshot row of a join-key group, by the source row it shows. *)
Lemma snapshot_row_In (start_date end_date : Z) (out : row) :
  ~ In "_feast_row" fields -> ~ In "" join_key_columns ->
  (In out (rows start_date end_date) <->
   exists h,
     In h (firsts join_key_columns order_columns (within start_date end_date))
     /\ out = select h).
Proof.
  intros Hfree Hkeys.
  rewrite (snapshot_rows_firsts DUMMY_ENTITY_ID DUMMY_ENTITY_VAL db
             from_expression join_key_columns feature_name_columns
             event_timestamp_column created_timestamp_column start_date
             end_date Hfree).
  rewrite (partition_columns_keys _ Hkeys), in_map_iff.
  split; intros (h & H1 & H2); exists h; auto.
Qed.

(** X8. A snapshot over a wider interval has a row for every join-key group
    the narrower one has, and its event timestamp is not earlier. *)
Theorem wider_interval_not_older (start_date end_date start_date' end_date' : Z)
  (out : row) :
  ~ In "_feast_row" fields -> ~ In "" join_key_columns ->
  start_date' <= start_date -> end_date <= end_date' ->
  In out (rows start_date end_date) ->
  exists out' t t',
    In out' (rows start_date' end_date') /\
    map (col out') join_key_columns = map (col out) join_key_columns /\
    col out event_timestamp_column = VInt t /\
    col out' event_timestamp_column = VInt t' /\
    t <= t'.
Proof.
  intros Hfree Hkeys Hs He Hout.
  apply (snapshot_row_In _ _ _ Hfree Hkeys) in Hout as (h & Hh & ->).
  apply firsts_sound in Hh as [Hh _].
  apply windowed_In in Hh as [Hin (t & Ht & Hlo & Hhi)].
  assert (Hh' : In h (within start_date' end_date')).
  { apply windowed_In. split; [assumption|]. exists t. split; [assumption|].
    lia. }
  destruct (firsts_complete join_key_columns order_columns _ _ Hh')
    as (h' & Hfirst & Hsame).
  pose proof Hfirst as Hlead. apply firsts_sound in Hlead as [Hin' Hlead].
  apply windowed_In in Hin' as [_ (t' & Ht' & _)].
  exists (select h'), t, t'. split; [|split; [|split; [|split]]].
  - apply (snapshot_row_In _ _ _ Hfree Hkeys). now exists h'.
  - now rewrite !select_keys.
  - now rewrite col_select_event.
  - now rewrite col_select_event.
  - apply (order_desc_head event_timestamp_column
             match created_timestamp_column with
             | Some c => if (c =? "")%string then [] else [c]
             | None => []
             end h' h t' t Ht' Ht).
    apply Hlead; [assumption | now symmetry].
Qed.

Lemma part_as_recent (start_date end_date lo hi : Z) (h : row) (t : Z) :
  start_date <= lo -> hi <= end_date ->
  In h (firsts join_key_columns order_columns (within start_date end_date)) ->
  col h event_timestamp_column = VInt t -> lo <= t <= hi ->
  exists h',
    In h' (firsts join_key_columns order_columns (within lo hi)) /\
    map (col h') join_key_columns = map (col h) join_key_columns /\
    col h' event_timestamp_column = VInt t.
Proof.
  intros Hlo Hhi Hh Ht Hin.
  apply firsts_sound in Hh as [Hh Hlead].
  assert (Hpart : In h (within lo hi)).
  { apply windowed_In. apply windowed_In in Hh as [Hdb _].
    split; [assumption|]. now exists t. }
  destruct (firsts_complete join_key_columns order_columns _ _ Hpart)
    as (h' & Hfirst & Hsame).
  exists h'. split; [assumption|]. split; [assumption|].
  apply firsts_sound in Hfirst as [Hin' Hlead'].
  apply windowed_In in Hin' as [Hdb' (t' & Ht' & Hlo' & Hhi')].
  assert (Hwhole : In h' (within start_date end_date)).
  { apply windowed_In. split; [assumption|]. exists t'.
    split; [assumption|]. lia. }
  assert (H1 : t <= t').
  { apply (order_desc_head event_timestamp_column
             match created_timestamp_column with
             | Some c => if (c =? "")%string then [] else [c]
             | None => []
             end h' h t' t Ht' Ht).
    apply Hlead'; [assumption | now symmetry]. }
  assert (H2 : t' <= t).
  { apply (order_desc_head event_timestamp_column
             match created_timestamp_column with
             | Some c => if (c =? "")%string then [] else [c]
             | None => []
             end h h' t t' Ht Ht').
    now apply Hlead. }
  rewrite Ht'. f_equal. lia.
Qed.

(** X9. The snapshot of an interval is, for every join-key group, as recent
    as the more recent of the snapshots of two parts that cover it. *)
Theorem snapshot_of_two_parts (start_date mid end_date : Z) (out : row) :
  ~ In "_feast_row" fields -> ~ In "" join_key_columns ->
  start_date <= mid <= end_date ->
  In out (rows start_date end_date) ->
  exists out' t,
    (In out' (rows start_date mid) \/ In out' (rows mid end_date)) /\
    map (col out') join_key_columns = map (col out) join_key_columns /\
    col out event_timestamp_column = VInt t /\
    col out' event_timestamp_column = VInt t.
Proof.
  intros Hfree Hkeys Hmid Hout.
  apply (snapshot_row_In _ _ _ Hfree Hkeys) in Hout as (h & Hh & ->).
  pose proof Hh as Hin. apply firsts_sound in Hin as [Hin _].
  apply windowed_In in Hin as [_ (t & Ht & Hlo & Hhi)].
  destruct (Z_le_gt_dec t mid) as [Hle|Hgt].
  - destruct (part_as_recent start_date end_date start_date mid h t)
      as (h' & Hfirst & Hsame & Ht'); try lia; auto.
    exists (select h'), t. split; [|split; [|split]].
    + left. apply (snapshot_row_In _ _ _ Hfree Hkeys). now exists h'.
    + now rewrite !select_keys.
    + now rewrite col_select_event.
    + now rewrite col_select_event.
  - destruct (part_as_recent start_date end_date mid end_date h t)
      as (h' & Hfirst & Hsame & Ht'); try lia; auto.
    exists (select h'), t. split; [|split; [|split]].
    + right. apply (snapshot_row_In _ _ _ Hfree Hkeys). now exists h'.
    + now rewrite !select_keys.
    + now rewrite col_select_event.
    + now rewrite col_select_event.
Qed.

End Snapshot.
End IntervalFacts.

(* ================================================================== *)
(** ** The names of exported tables *)
(* ================================================================== *)

Module ExportFacts.
Import Sql Py Store ListFacts JobFacts.

(** *** Digits determine the number *)

Lemma digit_char_inj (base base' d d' : N) :
  (d < 16)%N -> (d' < 16)%N ->
  digit_char base d = digit_char base' d' -> d = d'.
Proof.
  intros Hd Hd' H. apply (f_equal N_of_ascii) in H. unfold digit_char in H.
  destruct (N.ltb_spec d 10), (N.ltb_spec d' 10);
    rewrite !N_ascii_embedding in H by lia; lia.
Qed.

Lemma digits_inj (base : N) (width : nat) (n m : N) :
  (1 < base <= 16)%N ->
  digits base width n = digits base width m ->
  (n mod base ^ N.of_nat width = m mod base ^ N.of_nat width)%N.
Proof.
  intro Hb. revert n m. induction width as [|w IH]; intros n m H.
  - now rewrite !N.mod_1_r.
  - cbn [digits] in H. apply app_inj_tail in H as [Hhi Hlo].
    apply IH in Hhi.
    apply digit_char_inj in Hlo;
      [| apply N.lt_le_trans with base; [apply N.mod_lt|]; lia
       | apply N.lt_le_trans with base; [apply N.mod_lt|]; lia].
    rewrite Nat2N.inj_succ, N.pow_succ_r'.
    rewrite !N.Div0.mod_mul_r. now rewrite Hhi, Hlo.
Qed.

(** The leading digits are the digits of the quotient. *)
Lemma firstn_digits (base : N) (k m : nat) (n : N) :
  (0 < base)%N ->
  firstn k (digits base (k + m) n) = digits base k (n / base ^ N.of_nat m).
Proof.
  intro Hb. revert n. induction m as [|m IH]; intro n.
  - rewrite Nat.add_0_r, N.div_1_r.
    rewrite <- (digits_length base k n) at 1. apply firstn_all.
  - rewrite Nat.add_succ_r. cbn [digits].
    rewrite firstn_app, digits_length.
    replace (k - (k + m))%nat with 0%nat by lia.
    cbn [firstn]. rewrite app_nil_r, IH.
    rewrite Nat2N.inj_succ, N.pow_succ_r', N.Div0.div_div. reflexivity.
Qed.

Lemma string_of_list_ascii_inj (l l' : list ascii) :
  string_of_list_ascii l = string_of_list_ascii l' -> l = l'.
Proof.
  intro H. apply (f_equal list_ascii_of_string) in H.
  now rewrite !list_ascii_of_string_of_list_ascii in H.
Qed.

Lemma app_inj_length {A : Type} (a b x y : list A) :
  List.length a = List.length b -> a ++ x = b ++ y -> a = b /\ x = y.
Proof.
  revert b. induction a as [|c a IH]; intros [|d b] Hlen H;
    try discriminate Hlen.
  - now split.
  - cbn in H. injection H as -> H. injection Hlen as Hlen.
    destruct (IH b Hlen H) as [-> ->]. now split.
Qed.

Lemma append_inj_length (a b x y : string) :
  String.length a = String.length b -> a +++ x = b +++ y -> a = b /\ x = y.
Proof.
  revert b. induction a as [|c a IH]; intros [|d b] Hlen H;
    try discriminate Hlen.
  - now split.
  - cbn in H. injection H as -> H. injection Hlen as Hlen.
    destruct (IH b Hlen H) as [-> ->]. now split.
Qed.

(** *** The day and the random suffix *)

(** What [datetime.date] allows. *)
Definition is_date (d : date) : Prop :=
  (1 <= year d <= 9999)%N /\ (1 <= month d <= 12)%N /\ (1 <= day d <= 31)%N.

Lemma strftime_Ymd_inj (d d' : date) :
  is_date d -> is_date d' -> strftime_Ymd d = strftime_Ymd d' -> d = d'.
Proof.
  intros (Hy & Hm & Hd) (Hy' & Hm' & Hd') H. unfold strftime_Ymd in H.
  apply string_of_list_ascii_inj in H.
  apply app_inj_length in H as [Hyear H]; [|now rewrite !digits_length].
  apply app_inj_length in H as [Hmonth Hday]; [|now rewrite !digits_length].
  apply digits_inj in Hyear, Hmonth, Hday; try lia.
  cbn in Hyear, Hmonth, Hday.
  rewrite !N.mod_small in Hyear, Hmonth, Hday by lia.
  destruct d, d'. cbn in *. congruence.
Qed.

(** The suffix is the seven leading hexadecimal digits of the uuid, that
    is its 28 leading bits. *)
Definition leading_bits (u : uuid) : N := ((u mod 2 ^ 128) / 2 ^ 100)%N.

Lemma rand_id_leading_bits (u : uuid) :
  slice_to 7 (str_uuid u)
  = string_of_list_ascii (digits 16 7 (leading_bits u)).
Proof.
  rewrite rand_id_digits. f_equal.
  now rewrite (firstn_digits 16 7 25).
Qed.

Lemma rand_id_inj (u u' : uuid) :
  slice_to 7 (str_uuid u) = slice_to 7 (str_uuid u') <->
  leading_bits u = leading_bits u'.
Proof.
  rewrite !rand_id_leading_bits. split; [|now intros ->].
  intro H. apply string_of_list_ascii_inj, digits_inj in H; [|lia].
  assert (Hlt : forall v, (leading_bits v < 16 ^ N.of_nat 7)%N).
  { intro v. unfold leading_bits. apply N.Div0.div_lt_upper_bound.
    change (2 ^ 100 * 16 ^ N.of_nat 7)%N with (2 ^ 128)%N.
    apply N.mod_lt. discriminate. }
  now rewrite !N.mod_small in H by apply Hlt.
Qed.

Section Jobs.

Variable OnDemandFeatureView : Type.
Variable project_of : Trino -> string.
Variable execute_query : list string -> string -> result QueryResult.

Local Abbreviation job_type := (TrinoRetrievalJob OnDemandFeatureView).
Local Abbreviation export := (to_trino project_of execute_query).

Lemma export_table (job : job_type) (timeout retry_cadence : Z)
  (today : date) (fresh : uuid) (executed : list string) (table : string) :
  fst (export job timeout retry_cadence today fresh executed) = Ok table ->
  exists c,
    offline_store (_config job) = TrinoStore c /\
    table = project_of (_client job) +++ "." +++ dataset c
            +++ ".historical_" +++ strftime_Ymd today +++ "_"
            +++ slice_to 7 (str_uuid fresh).
Proof.
  unfold to_trino. destruct (offline_store (_config job)) as [c|t];
    [|discriminate]. cbv zeta. cbn [fst].
  destruct (execute_query executed _); [|discriminate].
  cbn [bind]. intro H. exists c. split; [reflexivity|]. congruence.
Qed.


End Jobs.

End ExportFacts.

(* ================================================================== *)
(** ** The upload of the entity table *)
(* ================================================================== *)

Module UploadFacts.
Import Sql Py Store ListFacts JobFacts.

Section Entry.

Variable OnDemandFeatureView : Type.
Variable FeatureView : Type.
Variable Registry : Type.
Variable dtype : Type.
Variable execute_query : list string -> string -> result QueryResult.
Variable get_temp_entity_table_name : string.
Variable entity_schema_of : QueryResult -> list (string * dtype).
Variable infer_event_timestamp_from_entity_df :
  list (string * dtype) -> result string.
Variable get_expected_join_keys :
  string -> list FeatureView -> Registry -> list string.
Variable assert_expected_columns_in_entity_df :
  list (string * dtype) -> list string -> string -> result unit.
Variable get_feature_view_query_context :
  list string -> list FeatureView -> Registry -> string ->
  result (list Template.FeatureViewQueryContext).
Variable build_point_in_time_query :
  list Template.FeatureViewQueryContext -> string -> string ->
  list string -> bool -> string.
Variable get_requested_odfvs :
  list string -> string -> Registry -> list OnDemandFeatureView.

Local Abbreviation upload :=
  (_upload_entity_df_and_get_entity_schema dtype execute_query
     entity_schema_of).
Local Abbreviation historical :=
  (get_historical_features OnDemandFeatureView FeatureView Registry dtype
     execute_query get_temp_entity_table_name entity_schema_of
     infer_event_timestamp_from_entity_df get_expected_join_keys
     assert_expected_columns_in_entity_df get_feature_view_query_context
     build_point_in_time_query get_requested_odfvs).

(** The two statements of an upload. *)
Definition create_statement (table_name sql : string) : string :=
  "CREATE TABLE " +++ table_name +++ " AS (" +++ sql +++ ")".

Definition read_statement (table_name : string) : string :=
  "SELECT * FROM " +++ table_name +++ " LIMIT 1".

(** What an upload leaves in the statements executed. *)
Lemma upload_log (client : Trino) (table_name : string) (entity_df : EntityDf)
  (executed : list string) :
  snd (upload client table_name entity_df executed)
  = executed
    ++ match entity_df with
       | EntityQuery sql =>
           create_statement table_name sql
           :: match execute_query executed
                      (create_statement table_name sql) with
              | Ok _ => [read_statement table_name]
              | Raise _ => []
              end
       | _ => []
       end.
Proof.
  unfold _upload_entity_df_and_get_entity_schema, create_statement,
    read_statement.
  destruct entity_df as [sql| |q]; cbn [snd]; [|now rewrite app_nil_r..].
  destruct (execute_query executed _); reflexivity.
Qed.

Lemma upload_schema (client : Trino) (table_name : string)
  (entity_df : EntityDf) (executed : list string)
  (entity_schema : list (string * dtype)) :
  fst (upload client table_name entity_df executed) = Ok entity_schema <->
  exists sql created results,
    entity_df = EntityQuery sql /\
    execute_query executed (create_statement table_name sql) = Ok created /\
    execute_query (executed ++ [create_statement table_name sql])
      (read_statement table_name) = Ok results /\
    entity_schema = entity_schema_of results.
Proof.
  unfold _upload_entity_df_and_get_entity_schema, create_statement,
    read_statement.
  split.
  - destruct entity_df as [sql| |q]; cbn [fst]; try discriminate.
    destruct (execute_query executed _) as [created|e] eqn:Ec;
      cbn [fst]; [|discriminate].
    destruct (execute_query (executed ++ _) _) as [results|e] eqn:Er;
      cbn [bind]; [|discriminate].
    intro H. injection H as <-. now exists sql, created, results.
  - intros (sql & created & results & -> & Hc & Hr & ->).
    rewrite Hc. cbn [fst]. now rewrite Hr.
Qed.


(** What a successful call of [get_historical_features] went through. *)
Definition succeeded (config : RepoConfig) (feature_views : list FeatureView)
  (feature_refs : list string) (entity_df : EntityDf) (registry : Registry)
  (project : string) (full_feature_names : bool) (executed : list string)
  (job : TrinoRetrievalJob OnDemandFeatureView) : Prop :=
  exists c sql created results ts query_context,
    let table :=
      catalog c +++ "." +++ dataset c +++ "." +++ get_temp_entity_table_name in
    let entity_schema := entity_schema_of results in
    offline_store config = TrinoStore c /\
    entity_df = EntityQuery sql /\
    execute_query executed (create_statement table sql) = Ok created /\
    execute_query (executed ++ [create_statement table sql])
      (read_statement table) = Ok results /\
    infer_event_timestamp_from_entity_df entity_schema = Ok ts /\
    assert_expected_columns_in_entity_df entity_schema
      (get_expected_join_keys project feature_views registry) ts = Ok tt /\
    get_feature_view_query_context feature_refs feature_views registry
      project = Ok query_context /\
    job = {| _query :=
               build_point_in_time_query query_context table ts
                 (map fst entity_schema) full_feature_names;
             _client := _get_trino_client c;
             _config := config;
             _full_feature_names := full_feature_names;
             _on_demand_feature_views :=
               Some (get_requested_odfvs feature_refs project registry) |} /\
    snd (historical config feature_views feature_refs entity_df registry
           project full_feature_names executed)
    = executed ++ [create_statement table sql; read_statement table].

Lemma historical_ok (config : RepoConfig) (feature_views : list FeatureView)
  (feature_refs : list string) (entity_df : EntityDf) (registry : Registry)
  (project : string) (full_feature_names : bool) (executed : list string)
  (job : TrinoRetrievalJob OnDemandFeatureView) :
  fst (historical config feature_views feature_refs entity_df registry
         project full_feature_names executed) = Ok job ->
  succeeded config feature_views feature_refs entity_df registry project
    full_feature_names executed job.
Proof.
  unfold succeeded, get_historical_features,
    _get_table_reference_for_new_entity.
  cbv zeta.
  destruct (offline_store config) as [c|t]; cbn [fst]; [|discriminate].
  destruct (fst (upload _ _ _ _)) as [schema|e] eqn:Eu;
    cbn [bind]; [|discriminate].
  apply upload_schema in Eu as (sql & created & results & -> & Hc & Hr & ->).
  destruct (infer_event_timestamp_from_entity_df _) as [ts|e] eqn:Ei;
    cbn [bind]; [|discriminate].
  destruct (assert_expected_columns_in_entity_df _ _ _) as [[]|e] eqn:Ea;
    cbn [bind]; [|discriminate].
  destruct (get_feature_view_query_context _ _ _ _) as [ctx|e] eqn:Eq;
    cbn [bind]; [|discriminate].
  intro H. injection H as <-.
  exists c, sql, created, results, ts, ctx.
  repeat (split; [first [reflexivity | assumption]|]).
  cbn [snd]. rewrite upload_log, Hc. reflexivity.
Qed.


(** X13. Whatever it is given and however it ends, [get_historical_features]
    executes nothing but the statements of the upload, in their order: it
    never runs the text it compiles, and it never drops the table it
    uploaded, also when a later step raises. *)
Theorem historical_runs_only_the_upload (config : RepoConfig)
  (feature_views : list FeatureView) (feature_refs : list string)
  (entity_df : EntityDf) (registry : Registry) (project : string)
  (full_feature_names : bool) (executed : list string) :
  let log :=
    snd (historical config feature_views feature_refs entity_df registry
           project full_feature_names executed) in
  log = executed \/
  exists c sql,
    let table :=
      catalog c +++ "." +++ dataset c +++ "." +++ get_temp_entity_table_name in
    offline_store config = TrinoStore c /\ entity_df = EntityQuery sql /\
    match execute_query executed (create_statement table sql) with
    | Ok _ => log = executed ++ [create_statement table sql;
                                 read_statement table]
    | Raise _ => log = executed ++ [create_statement table sql]
    end.
Proof.
  cbv zeta. unfold get_historical_features,
    _get_table_reference_for_new_entity.
  destruct (offline_store config) as [c|t]; cbn [snd]; [|now left].
  rewrite upload_log.
  destruct entity_df as [sql| |q]; [|left; now rewrite app_nil_r..].
  right. exists c, sql. cbv zeta. split; [reflexivity|].
  split; [reflexivity|].
  destruct (execute_query executed _); reflexivity.
Qed.

End Entry.
End UploadFacts.

(* ================================================================== *)
(** ** Reading the result of a job *)
(* ================================================================== *)

Module RunFacts.
Import Sql Py Store ListFacts JobFacts UploadFacts.

Section Entry.

Variable OnDemandFeatureView : Type.
Variable FeatureView : Type.
Variable Registry : Type.
Variable dtype : Type.
Variable execute_query : list string -> string -> result QueryResult.
Variable DataFrame : Type.
Variable pd_DataFrame : list (list value) -> list string -> result DataFrame.
Variable Table : Type.
Variable pyarrow_table : list (list value) -> list string -> result Table.
Variable get_temp_entity_table_name : string.
Variable entity_schema_of : QueryResult -> list (string * dtype).
Variable infer_event_timestamp_from_entity_df :
  list (string * dtype) -> result string.
Variable get_expected_join_keys :
  string -> list FeatureView -> Registry -> list string.
Variable assert_expected_columns_in_entity_df :
  list (string * dtype) -> list string -> string -> result unit.
Variable get_feature_view_query_context :
  list string -> list FeatureView -> Registry -> string ->
  result (list Template.FeatureViewQueryContext).
Variable build_point_in_time_query :
  list Template.FeatureViewQueryContext -> string -> string ->
  list string -> bool -> string.
Variable get_requested_odfvs :
  list string -> string -> Registry -> list OnDemandFeatureView.

Local Abbreviation historical :=
  (get_historical_features OnDemandFeatureView FeatureView Registry dtype
     execute_query get_temp_entity_table_name entity_schema_of
     infer_event_timestamp_from_entity_df get_expected_join_keys
     assert_expected_columns_in_entity_df get_feature_view_query_context
     build_point_in_time_query get_requested_odfvs).
Local Abbreviation to_df :=
  (_to_df_internal OnDemandFeatureView execute_query DataFrame pd_DataFrame).
Local Abbreviation to_arrow :=
  (_to_arrow_internal OnDemandFeatureView execute_query Table pyarrow_table).


End Entry.
End RunFacts.

(* ================================================================== *)
(** ** Worked inputs *)
(* ================================================================== *)

Module Scenario.
Import Sql Py Template Store.

(** A time of day, in milliseconds. *)
Definition clock (h m : Z) : Z := (h * 60 + m) * 60000.

(** One view keyed by [id], valid for an hour, without created
    timestamp. *)
Definition F : FeatureViewQueryContext :=
  {| name := "F";
     ttl := 3600;
     entities := ["id"];
     features := ["v"];
     event_timestamp_column := "ts";
     created_timestamp_column := None;
     table_subquery := "feature_table";
     entity_selections := [("id", "id")] |}.

Definition feature_row (id t v : Z) : row :=
  [("id", VInt id); ("ts", VInt t); ("v", VInt v)].

Definition request_row (id t : Z) : row :=
  [("id", VInt id); ("event_timestamp", VInt t)].

(** Values 5 at 10:00 and 7 at 10:30; requests at 10:45, 09:00, 10:15. *)
Definition db (table : string) : list row :=
  if (table =? "feature_table")%string
  then [feature_row 1 (clock 10 0) 5; feature_row 1 (clock 10 30) 7]
  else if (table =? "entity_table")%string
  then [request_row 1 (clock 10 45); request_row 1 (clock 9 0);
        request_row 1 (clock 10 15)]
  else [].

Definition entity_df_columns : list string := ["id"; "event_timestamp"].

Definition result (full_feature_names : bool) : list row :=
  MULTIPLE_FEATURE_VIEW_POINT_IN_TIME_JOIN db [F] "entity_table"
    "event_timestamp" full_feature_names
    (output_feature_names entity_df_columns [F] full_feature_names).

(** Two writes of one event time, and one request. *)
Definition db_tie (table : string) : list row :=
  if (table =? "feature_table")%string
  then [feature_row 1 (clock 10 0) 5; feature_row 1 (clock 10 0) 6]
  else if (table =? "entity_table")%string
  then [request_row 1 (clock 10 45)]
  else [].

(** A view with a created timestamp, without time-to-live. *)
Definition H : FeatureViewQueryContext :=
  {| name := "H";
     ttl := 0;
     entities := ["id"];
     features := ["v"];
     event_timestamp_column := "ts";
     created_timestamp_column := Some "created";
     table_subquery := "feature_table";
     entity_selections := [("id", "id")] |}.

Definition written_row (id t : Z) (created : value) (v : Z) : row :=
  [("id", VInt id); ("ts", VInt t); ("created", created); ("v", VInt v)].

(** Two writes for 10:00, an older row written last, and a row for 10:30
    without created timestamp; one request at 10:45. *)
Definition db_created (table : string) : list row :=
  if (table =? "feature_table")%string
  then [written_row 1 (clock 10 0) (VInt 1) 5;
        written_row 1 (clock 10 0) (VInt 2) 6;
        written_row 1 (clock 8 0) (VInt 9) 4;
        written_row 1 (clock 10 30) VNull 8]
  else if (table =? "entity_table")%string
  then [request_row 1 (clock 10 45)]
  else [].

(** A view without entities, over rows that carry a sentinel column. *)
Definition G : FeatureViewQueryContext :=
  {| name := "G";
     ttl := 0;
     entities := [];
     features := ["v"];
     event_timestamp_column := "ts";
     created_timestamp_column := None;
     table_subquery := "global_table";
     entity_selections := [] |}.

Definition db_global (table : string) : list row :=
  if (table =? "global_table")%string
  then [[("__dummy_id", VStr "a"); ("ts", VInt 10); ("v", VInt 5)]]
  else if (table =? "entity_table")%string
  then [[("__dummy_id", VStr "b"); ("event_timestamp", VInt 20)]]
  else [].

(** A store, a job and an engine that answers with no rows. *)
Definition store : TrinoOfflineStoreConfig :=
  {| host := "localhost"; port := 8080; catalog := "c"; dataset := "d" |}.

Definition config : RepoConfig := {| offline_store := TrinoStore store |}.

Definition other_config : RepoConfig :=
  {| offline_store := OtherStore (TOther "FileOfflineStoreConfig") |}.

Definition engine (executed : list string) (statement : string)
  : Py.result QueryResult :=
  Ok {| data := []; columns_names := []; schema := [] |}.

Definition job : TrinoRetrievalJob unit :=
  {| _query := "SELECT 1";
     _client := _get_trino_client store;
     _config := config;
     _full_feature_names := false;
     _on_demand_feature_views := None |}.

Definition second_of_january : date :=
  {| year := 2024; month := 1; day := 2 |}.

Definition historical (config : RepoConfig) (entity_df : EntityDf)
  : Py.result (TrinoRetrievalJob unit) * list string :=
  get_historical_features unit unit unit unit engine "entity_table"
    (fun _ => []) (fun _ => Ok "event_timestamp") (fun _ _ _ => [])
    (fun _ _ _ => Ok tt) (fun _ _ _ _ => Ok [F]) (fun _ _ _ _ _ => "")
    (fun _ _ _ => []) config [] [] entity_df tt "project" false [].

(** A request without its join key. *)
Definition db_null (table : string) : list row :=
  if (table =? "feature_table")%string
  then [feature_row 1 (clock 10 0) 5]
  else if (table =? "entity_table")%string
  then [[("id", VNull); ("event_timestamp", VInt (clock 10 45))]]
  else [].

(** A uuid with the 28 leading bits of the one of the export scenario. *)
Definition fresh : uuid := 0x3f2a9c41d0b74e2a8c5512ab34cd56ef%N.
Definition fresh' : uuid := 0x3f2a9c4ffffffffffffffffffffffff0%N.

(** The entity table with the request of 10:45 alone. *)
Definition db_one (table : string) : list row :=
  if (table =? "entity_table")%string
  then [request_row 1 (clock 10 45)]
  else db table.

(** The job [historical] returns for a query text. *)
Definition answered_job : TrinoRetrievalJob unit :=
  {| _query := "";
     _client := _get_trino_client store;
     _config := config;
     _full_feature_names := false;
     _on_demand_feature_views := Some [] |}.

Definition exported : string :=
  "CREATE TABLE c.d.historical_20240102_3f2a9c4 AS (SELECT 1)".

End Scenario.

(* ================================================================== *)
(** ** The theorems at the worked inputs *)
(* ================================================================== *)

Module Checks.
Import Sql Py Template Store Scenario.

(** The scenario of the specification: 7 at 10:45, nothing at 09:00 and 5
    at 10:15, in both modes. *)
Example scenario_bare :
  result false
  = [[("id", VInt 1); ("event_timestamp", VInt (clock 10 45)); ("v", VInt 7)];
     [("id", VInt 1); ("event_timestamp", VInt (clock 9 0)); ("v", VNull)];
     [("id", VInt 1); ("event_timestamp", VInt (clock 10 15)); ("v", VInt 5)]].
Proof. vm_compute. reflexivity. Qed.

Example scenario_qualified :
  result true
  = [[("id", VInt 1); ("event_timestamp", VInt (clock 10 45));
      ("F__v", VInt 7)];
     [("id", VInt 1); ("event_timestamp", VInt (clock 9 0)); ("F__v", VNull)];
     [("id", VInt 1); ("event_timestamp", VInt (clock 10 15));
      ("F__v", VInt 5)]].
Proof. vm_compute. reflexivity. Qed.

(** With a created timestamp: of the two writes for 10:00 the later one
    is kept; the row for 10:30 has no created timestamp, so the re-join
    with [H__dedup] on the created timestamp drops it. *)
Example scenario_created :
  dedup db_created [H] "entity_table" "event_timestamp" false H
  = [[("H__entity_row_unique_id", VStr "138700000");
      ("event_timestamp", VInt (clock 10 0)); ("created_timestamp", VInt 2)];
     [("H__entity_row_unique_id", VStr "138700000");
      ("event_timestamp", VInt (clock 8 0)); ("created_timestamp", VInt 9)];
     [("H__entity_row_unique_id", VStr "138700000");
      ("event_timestamp", VInt (clock 10 30)); ("created_timestamp", VNull)]]
  /\
  latest db_created [H] "entity_table" "event_timestamp" false H
  = [[("event_timestamp", VInt (clock 10 0)); ("created_timestamp", VInt 2);
      ("H__entity_row_unique_id", VStr "138700000")]] /\
  MULTIPLE_FEATURE_VIEW_POINT_IN_TIME_JOIN db_created [H] "entity_table"
    "event_timestamp" false (output_feature_names entity_df_columns [H] false)
  = [[("id", VInt 1); ("event_timestamp", VInt (clock 10 45)); ("v", VInt 6)]].
Proof. repeat split; vm_compute; reflexivity. Qed.

(** The export of the specification's scenario. *)
Example scenario_export :
  to_trino client_catalog engine job 1800 10 second_of_january
    0x3f2a9c41d0b74e2a8c5512ab34cd56ef%N []
  = (Ok "c.d.historical_20240102_3f2a9c4",
     ["CREATE TABLE c.d.historical_20240102_3f2a9c4 AS (SELECT 1)"]).
Proof. vm_compute. reflexivity. Qed.

(** The row of 10:30 and the request of 10:45 are joined. *)
Lemma base_join_condition_witness :
  let r := feature_row 1 (clock 10 30) 7 in
  let e := [("id", VInt 1); ("entity_timestamp", VInt (clock 10 45));
            ("F__entity_row_unique_id", VStr "138700000")] in
  In r (db (table_subquery F)) /\
  In e (fv_entity_dataframe db [F] "entity_table" "event_timestamp" F) /\
  (In (subquery_select false F r, e)
      (base_pairs db [F] "entity_table" "event_timestamp" false F) <->
   (forall k, In k (entities F) ->
      col (subquery_select false F r) k = col e k /\
      col (subquery_select false F r) k <> VNull) /\
   exists t te,
     col r (event_timestamp_column F) = VInt t /\
     col e "entity_timestamp" = VInt te /\
     t <= te /\ (ttl F = 0 \/ te - interval_second (ttl F) <= t)).
Proof.
  cbv zeta.
  assert (Hr : In (feature_row 1 (clock 10 30) 7) (db (table_subquery F)))
    by (vm_compute; auto).
  assert (He : In [("id", VInt 1); ("entity_timestamp", VInt (clock 10 45));
                   ("F__entity_row_unique_id", VStr "138700000")]
                  (fv_entity_dataframe db [F] "entity_table"
                     "event_timestamp" F))
    by (vm_compute; auto).
  split; [exact Hr|]. split; [exact He|].
  exact (JoinFacts.base_join_condition db [F] "entity_table"
           "event_timestamp" false F _ _ Hr He).
Defined.





Lemma full_feature_names_only_renames_witness :
  AssemblyFacts.well_named db [F] "entity_table" true entity_df_columns /\
  AssemblyFacts.well_named db [F] "entity_table" false entity_df_columns /\
  (forall fv, In fv [F] -> ToggleFacts.features_apart fv) /\
  map (map snd) (result true) = map (map snd) (result false).
Proof.
  assert (Hschema : forall r, In r (db "entity_table") ->
                              columns r = entity_df_columns).
  { intros r Hr. vm_compute in Hr. intuition (subst; reflexivity). }
  assert (Hq : AssemblyFacts.well_named db [F] "entity_table" true
                 entity_df_columns).
  { split; [exact Hschema|].
    vm_compute. repeat constructor; simpl; intuition discriminate. }
  assert (Hb : AssemblyFacts.well_named db [F] "entity_table" false
                 entity_df_columns).
  { split; [exact Hschema|].
    vm_compute. repeat constructor; simpl; intuition discriminate. }
  assert (Hapart : forall fv, In fv [F] -> ToggleFacts.features_apart fv).
  { intros fv [<-|[]] f c Hf Hc. simpl in Hf, Hc.
    intuition (subst; discriminate). }
  split; [exact Hq|]. split; [exact Hb|]. split; [exact Hapart|].
  exact (proj1 (ToggleFacts.full_feature_names_only_renames db [F]
                  "entity_table" "event_timestamp" entity_df_columns
                  Hq Hb Hapart)).
Defined.




(** A view without entities joins rows that disagree on the sentinel
    column: the grouped request row carries no join key at all, and the
    unique id is the timestamp text alone. *)
Lemma no_sentinel_join_key :
  let s := [("event_timestamp", VInt 10); ("v", VInt 5)] in
  let e := [("entity_timestamp", VInt 20);
            ("G__entity_row_unique_id", VStr "20")] in
  entities G = [] /\
  map (fun r => col r "__dummy_id") (db_global "global_table") = [VStr "a"] /\
  entity_dataframe db_global [G] "entity_table" "event_timestamp"
  = [[("__dummy_id", VStr "b"); ("event_timestamp", VInt 20);
      ("entity_timestamp", VInt 20);
      ("G__entity_row_unique_id", VStr "20")]] /\
  base_pairs db_global [G] "entity_table" "event_timestamp" false G
  = [(s, e)].
Proof. cbv zeta. repeat split; vm_compute; reflexivity. Qed.

Lemma unique_id_concatenates_keys_witness :
  In G [G] /\ entities G = [] /\
  (forall r,
     In (unique_id_column G, entity_row_unique_id "event_timestamp" G r)
        (entity_dataframe_row [G] "event_timestamp" r)) /\
  (forall r, entity_row_unique_id "event_timestamp" G r
             = cast_varchar (col r "event_timestamp")) /\
  forall e,
    In e (fv_entity_dataframe db_global [G] "entity_table" "event_timestamp"
            G) ->
    columns e = ["entity_timestamp"; unique_id_column G].
Proof.
  assert (Hin : In G [G]) by (now left).
  destruct (UniqueIdFacts.unique_id_concatenates_keys db_global [G]
              "entity_table" "event_timestamp" G)
    as (_ & Hcell & Hnone).
  destruct (Hnone eq_refl) as (Hid & Hcols & _).
  split; [exact Hin|]. split; [reflexivity|].
  split; [exact (fun r => Hcell r Hin)|]. split; [exact Hid | exact Hcols].
Defined.

Lemma pull_latest_job_defaults_witness :
  exists job,
    pull_latest_from_table_or_query unit "__dummy_id" "" (fun _ => "")
      config (TrinoSource "feature_table") ["id"] ["v"] "ts" None
      (clock 9 0) (clock 11 0)
    = Ok job /\
    full_feature_names job = false /\
    on_demand_feature_views job = None.
Proof.
  destruct (JobFacts.pull_latest_job_defaults unit "__dummy_id" ""
              (fun _ => "") config (TrinoSource "feature_table") ["id"]
              ["v"] "ts" None (clock 9 0) (clock 11 0))
    as [Hfields Hruns].
  destruct (Hruns eq_refl eq_refl) as [j Hj].
  exists j. split; [exact Hj | exact (Hfields j Hj)].
Defined.

Import AssemblyFacts LineageFacts ViewFacts CountFacts BatchFacts.
Import IntervalFacts ExportFacts UploadFacts RunFacts.

(** Request rows with pairwise different unique ids are told apart. *)
Lemma different_ids_distinct (db : string -> list row)
  (featureviews : list FeatureViewQueryContext) (table ts : string)
  (fv : FeatureViewQueryContext) :
  NoDup (map (fun e => col e (unique_id_column fv))
           (entity_dataframe db featureviews table ts)) ->
  distinct_ids db featureviews table ts fv.
Proof.
  intros Hnd e e' He He' Hu _.
  assert (E : e = e')
    by (apply (ListFacts.NoDup_map_eq _ _ e e' Hnd He He' Hu)).
  now subst.
Qed.

Ltac distinct_values :=
  vm_compute; repeat constructor; simpl; intuition discriminate.

Lemma scenario_named :
  well_named db [F] "entity_table" false entity_df_columns.
Proof.
  split.
  - intros r Hr. vm_compute in Hr. intuition (subst; reflexivity).
  - distinct_values.
Qed.

Lemma scenario_views :
  forall fv, In fv [F] ->
    names_apart false fv /\ keys_requested entity_df_columns fv /\
    distinct_ids db [F] "entity_table" "event_timestamp" fv.
Proof.
  intros fv [<-|[]]. split; [|split].
  - unfold names_apart, LatestFacts.row_number_free. simpl.
    intuition (subst; discriminate).
  - intros k Hk. simpl in Hk. simpl. intuition.
  - apply different_ids_distinct. distinct_values.
Qed.

Lemma point_in_time_join_correct_witness :
  let y := [("id", VInt 1); ("event_timestamp", VInt (clock 10 45));
            ("v", VInt 7)] in
  well_named db [F] "entity_table" false entity_df_columns /\
  (forall fv, In fv [F] ->
     names_apart false fv /\ keys_requested entity_df_columns fv /\
     distinct_ids db [F] "entity_table" "event_timestamp" fv) /\
  In y (result false) /\
  exists q x,
    In q (db "entity_table") /\
    y = project (output_feature_names entity_df_columns [F] false) x /\
    (forall c, In c entity_df_columns ->
       col x c = col q c /\
       col (entity_dataframe_row [F] "event_timestamp" q) c = col q c) /\
    col (entity_dataframe_row [F] "event_timestamp" q) "entity_timestamp"
    = col q "event_timestamp" /\
    forall fv, In fv [F] ->
      point_in_time db false fv
        (entity_dataframe_row [F] "event_timestamp" q) x.
Proof.
  cbv zeta.
  assert (Hy : In [("id", VInt 1); ("event_timestamp", VInt (clock 10 45));
                   ("v", VInt 7)] (result false))
    by (vm_compute; auto).
  split; [exact scenario_named|]. split; [exact scenario_views|].
  split; [exact Hy|].
  exact (point_in_time_join_correct db [F] "entity_table" "event_timestamp"
           false entity_df_columns
           (output_feature_names entity_df_columns [F] false) _
           scenario_named scenario_views Hy).
Defined.


Lemma view_rows_alone_witness :
  well_named db_created [F; H] "entity_table" true entity_df_columns /\
  In H [F; H] /\ keys_requested entity_df_columns H /\
  cleaned db_created [F; H] "entity_table" "event_timestamp" true H
  = cleaned db_created [H] "entity_table" "event_timestamp" true H /\
  joined_select db_created [F; H] "entity_table" "event_timestamp" true H
  = joined_select db_created [H] "entity_table" "event_timestamp" true H.
Proof.
  assert (Hnamed : well_named db_created [F; H] "entity_table" true
                     entity_df_columns).
  { split.
    - intros r Hr. vm_compute in Hr. intuition (subst; reflexivity).
    - distinct_values. }
  assert (Hin : In H [F; H]) by (right; now left).
  assert (Hkeys : keys_requested entity_df_columns H).
  { intros k Hk. simpl in Hk. simpl. intuition. }
  repeat (split; [assumption|]).
  exact (view_rows_alone db_created [F; H] "entity_table" "event_timestamp"
           true entity_df_columns H Hnamed Hin Hkeys).
Defined.



Lemma wider_interval_not_older_witness :
  let out := [("id", VInt 1); ("v", VInt 5); ("ts", VInt (clock 10 0))] in
  ~ In "_feast_row" (field_columns ["id"] ["v"] "ts" None) /\
  ~ In "" ["id"] /\
  clock 9 0 <= clock 9 0 /\ clock 10 15 <= clock 11 0 /\
  In out (snapshot_rows "__dummy_id" "" db "feature_table" ["id"] ["v"]
            "ts" None (clock 9 0) (clock 10 15)) /\
  exists out' t t',
    In out' (snapshot_rows "__dummy_id" "" db "feature_table" ["id"] ["v"]
               "ts" None (clock 9 0) (clock 11 0)) /\
    map (col out') ["id"] = map (col out) ["id"] /\
    col out "ts" = VInt t /\ col out' "ts" = VInt t' /\ t <= t'.
Proof.
  cbv zeta.
  assert (Hfree : ~ In "_feast_row" (field_columns ["id"] ["v"] "ts" None))
    by (simpl; intuition discriminate).
  assert (Hkeys : ~ In "" ["id"]) by (simpl; intuition discriminate).
  assert (Hs : clock 9 0 <= clock 9 0) by (vm_compute; discriminate).
  assert (He : clock 10 15 <= clock 11 0) by (vm_compute; discriminate).
  assert (Hout : In [("id", VInt 1); ("v", VInt 5); ("ts", VInt (clock 10 0))]
                    (snapshot_rows "__dummy_id" "" db "feature_table" ["id"]
                       ["v"] "ts" None (clock 9 0) (clock 10 15)))
    by (vm_compute; auto).
  repeat (split; [assumption|]).
  exact (wider_interval_not_older "__dummy_id" "" db "feature_table" ["id"]
           ["v"] "ts" None (clock 9 0) (clock 10 15) (clock 9 0) (clock 11 0)
           _ Hfree Hkeys Hs He Hout).
Defined.

Lemma snapshot_of_two_parts_witness :
  let out := [("id", VInt 1); ("v", VInt 7); ("ts", VInt (clock 10 30))] in
  ~ In "_feast_row" (field_columns ["id"] ["v"] "ts" None) /\
  ~ In "" ["id"] /\
  clock 9 0 <= clock 10 15 <= clock 11 0 /\
  In out (snapshot_rows "__dummy_id" "" db "feature_table" ["id"] ["v"]
            "ts" None (clock 9 0) (clock 11 0)) /\
  exists out' t,
    (In out' (snapshot_rows "__dummy_id" "" db "feature_table" ["id"] ["v"]
                "ts" None (clock 9 0) (clock 10 15)) \/
     In out' (snapshot_rows "__dummy_id" "" db "feature_table" ["id"] ["v"]
                "ts" None (clock 10 15) (clock 11 0))) /\
    map (col out') ["id"] = map (col out) ["id"] /\
    col out "ts" = VInt t /\ col out' "ts" = VInt t.
Proof.
  cbv zeta.
  assert (Hfree : ~ In "_feast_row" (field_columns ["id"] ["v"] "ts" None))
    by (simpl; intuition discriminate).
  assert (Hkeys : ~ In "" ["id"]) by (simpl; intuition discriminate).
  assert (Hmid : clock 9 0 <= clock 10 15 <= clock 11 0)
    by (split; vm_compute; discriminate).
  assert (Hout : In [("id", VInt 1); ("v", VInt 7);
                     ("ts", VInt (clock 10 30))]
                    (snapshot_rows "__dummy_id" "" db "feature_table" ["id"]
                       ["v"] "ts" None (clock 9 0) (clock 11 0)))
    by (vm_compute; auto).
  repeat (split; [assumption|]).
  exact (snapshot_of_two_parts "__dummy_id" "" db "feature_table" ["id"]
           ["v"] "ts" None (clock 9 0) (clock 10 15) (clock 11 0) _ Hfree
           Hkeys Hmid Hout).
Defined.

Lemma negative_ttl_joins_nothing_witness :
  ttl (with_ttl F (-1)) < 0 /\
  base db [with_ttl F (-1)] "entity_table" "event_timestamp" false
    (with_ttl F (-1)) = [] /\
  forall l,
    partners db [with_ttl F (-1)] "entity_table" "event_timestamp" false
      (with_ttl F (-1)) l = [].
Proof.
  assert (Hneg : ttl (with_ttl F (-1)) < 0) by reflexivity.
  split; [exact Hneg|].
  exact (negative_ttl_joins_nothing db "entity_table" "event_timestamp" false
           [with_ttl F (-1)] (with_ttl F (-1)) Hneg).
Defined.


Lemma requests_do_not_interfere_witness :
  let q := request_row 1 (clock 10 45) in
  well_named db [F] "entity_table" false entity_df_columns /\
  well_named db_one [F] "entity_table" false entity_df_columns /\
  alike db db_one [F] "entity_table" "event_timestamp" false /\
  In q (db "entity_table") /\ In q (db_one "entity_table") /\
  request_rows db [F] "entity_table" "event_timestamp" false [F]
    (entity_dataframe_row [F] "event_timestamp" q)
  = request_rows db_one [F] "entity_table" "event_timestamp" false [F]
      (entity_dataframe_row [F] "event_timestamp" q).
Proof.
  cbv zeta.
  assert (Hnamed : well_named db_one [F] "entity_table" false
                     entity_df_columns).
  { split.
    - intros r Hr. vm_compute in Hr. intuition (subst; reflexivity).
    - distinct_values. }
  assert (Halike : alike db db_one [F] "entity_table" "event_timestamp"
                     false).
  { intros fv Hin. destruct (scenario_views fv Hin) as (Hn & _ & Hd).
    destruct Hin as [<-|[]]. split; [reflexivity|].
    split; [assumption|]. split; [unfold source_keyed; distinct_values|].
    split; [assumption|]. apply different_ids_distinct. distinct_values. }
  assert (Hq : In (request_row 1 (clock 10 45)) (db "entity_table"))
    by (vm_compute; auto).
  assert (Hq' : In (request_row 1 (clock 10 45)) (db_one "entity_table"))
    by (vm_compute; auto).
  split; [exact scenario_named|]. repeat (split; [assumption|]).
  exact (requests_do_not_interfere db db_one [F] "entity_table"
           "event_timestamp" false entity_df_columns _ scenario_named
           Hnamed Halike Hq Hq').
Defined.


End Checks.
